(** * hand-motion-capture: capture pipeline and stream ingest

    Shallow embedding of
    - [dataset_gen/pi/src/camera_handler.cpp] (frame sizing, request ring,
      completion callback; the constructor with its set-up steps, and the
      destructor),
    - [dataset_gen/pi/src/main.cpp] (signal handlers, [init_network],
      [stream_pkt]; the start-up steps and the main loop),
    - [stream_server/src/stream_mgr.c] (the per-connection worker: set-up,
      loop and cleanup),
    - [dataset_creation/pi/src/frame_capture.cpp] (the signal handler),
    followed by the properties established about them.

    Machine integers are [Z] with the conversions written out.  Calls into
    the camera vendor library, the kernel and the codec are recorded in an
    event trace, in call order; what those collaborators answer is an input
    of the model. *)

From Stdlib Require Import ZArith List Lia Bool.
From Stdlib Require Import Strings.String Strings.Byte.
From Stdlib Require Import Sorting.Sorted.
From stdpp Require Import base list.

Open Scope Z_scope.

(** ** C integer types *)

Module CInt.

Definition INT_MIN : Z := - 2 ^ 31.
Definition INT_MAX : Z := 2 ^ 31 - 1.
Definition UINT_MAX : Z := 2 ^ 32 - 1.

(** Conversion to [int] (two's complement, modulo 2^32). *)
Definition to_int (z : Z) : Z := (z + 2 ^ 31) mod 2 ^ 32 - 2 ^ 31.

(** Conversion to [unsigned int] / [uint32_t]. *)
Definition to_uint (z : Z) : Z := z mod 2 ^ 32.

(** Conversion to [size_t] / [uint64_t] (LP64). *)
Definition to_size_t (z : Z) : Z := z mod 2 ^ 64.

(** [std::vector::operator[]]: an index outside the vector has no defined
    result. *)
Definition vec_at {A : Type} (v : list A) (i : Z) : option A :=
  if i <? 0 then None else v !! Z.to_nat i.

End CInt.

Export CInt.

(** ** Camera node: [camera_handler.cpp] and [main.cpp] *)

Module CameraNode.

(** Modelled from the spec: [config.h] is not among the sources; the
    fields are the ones the handler reads ([DMA_BUFFERS], [FRAME_WIDTH],
    [FRAME_HEIGHT], [FRAME_DURATION_MIN], [FRAME_DURATION_MAX]). *)
Record config := mk_config {
  dma_buffers : Z;
  frame_width : Z;
  frame_height : Z;
  frame_duration_min : Z;
  frame_duration_max : Z
}.

(** [void*]: the address of a mapped DMA buffer. *)
Definition ptr := Z.

(** [libcamera::Request::Status]. *)
Inductive req_status := RequestPending | RequestComplete | RequestCancelled.

Definition req_status_eqb (a b : req_status) : bool :=
  match a, b with
  | RequestPending, RequestPending
  | RequestComplete, RequestComplete
  | RequestCancelled, RequestCancelled => true
  | _, _ => false
  end.

(** The part of a [libcamera::Request] the handler looks at. *)
Record Request := mk_Request {
  cookie : Z;             (* uint64_t, index into mmap_buffers_ *)
  status : req_status
}.

(** [Request::reuse(ReuseBuffers)]: the request goes back to pending and
    keeps its cookie and buffers. *)
Definition reuse (r : Request) : Request :=
  {| cookie := cookie r; status := RequestPending |}.

(** The data members of [camera_handler_t] that the modelled methods
    touch.  [requests_] holds the request objects themselves; a
    [libcamera::Request*] is a position in it. *)
Record camera_handler_t := mk_camera_handler {
  requests_ : list Request;
  mmap_buffers_ : list ptr;
  next_req_idx_ : Z;        (* int *)
  frame_bytes_ : Z;         (* int *)
  dma_frame_buffers_ : Z    (* int *)
}.

(** POSIX counting semaphore. *)
Record sem_t := mk_sem { sem_value : Z; sem_destroyed : bool }.

Definition SEM_VALUE_MAX : Z := INT_MAX.

Definition sem_getvalue (s : sem_t) : Z := sem_value s.

(** [sem_post] fails with EOVERFLOW, leaving the value alone, when the
    maximum would be exceeded. *)
Definition sem_post (s : sem_t) : sem_t :=
  if sem_value s <? SEM_VALUE_MAX
  then {| sem_value := sem_value s + 1; sem_destroyed := sem_destroyed s |}
  else s.

Definition sem_destroy (s : sem_t) : sem_t :=
  {| sem_value := sem_value s; sem_destroyed := true |}.

Inductive level_t := INFO | ERROR.

(** Calls that leave the modelled code, in call order. *)
Inductive event :=
| EvLog (lvl : level_t) (msg : string)
| EvQueueRequest (req_cookie : Z) (ret : Z)   (* camera_->queueRequest *)
| EvEnqueue (data : ptr)                      (* frame_queue.enqueue *)
| EvSemPost                                   (* sem_post(&queue_counter) *)
| EvReuse (req_cookie : Z)                    (* request->reuse *)
| EvClose (fd : Z)                            (* close *)
| EvSemDestroy                                (* sem_destroy(&queue_counter) *)
| EvSocket (ret : Z)                          (* socket *)
| EvConnect (fd ret : Z)                      (* connect *)
| EvWrite (fd off count ret err : Z).         (* write(fd, data + off, count); err: errno on failure *)

(** Process-wide objects of [main.cpp].  The handler's [frame_queue] and
    [queue_counter] members are references to the objects here, so they
    live in this record and not in [camera_handler_t].

    Modelled from the spec: [lock_free_queue.h] is not among the sources;
    the queue is a FIFO of buffer pointers, oldest first, and [enqueue]
    appends. *)
Record process := mk_process {
  running : Z;              (* volatile sig_atomic_t *)
  sockfd : Z;               (* int *)
  errno : Z;
  queue_counter : sem_t;
  frame_queue : list ptr;
  cam : camera_handler_t;
  trace : list event
}.

Definition emit (e : event) (p : process) : process :=
  {| running := running p; sockfd := sockfd p; errno := errno p;
     queue_counter := queue_counter p; frame_queue := frame_queue p;
     cam := cam p; trace := trace p ++ [e] |}.

Definition log (lvl : level_t) (msg : string) (p : process) : process :=
  emit (EvLog lvl msg) p.

Definition set_cam (c : camera_handler_t) (p : process) : process :=
  {| running := running p; sockfd := sockfd p; errno := errno p;
     queue_counter := queue_counter p; frame_queue := frame_queue p;
     cam := c; trace := trace p |}.

Definition set_queue_counter (s : sem_t) (p : process) : process :=
  {| running := running p; sockfd := sockfd p; errno := errno p;
     queue_counter := s; frame_queue := frame_queue p;
     cam := cam p; trace := trace p |}.

Definition set_frame_queue (q : list ptr) (p : process) : process :=
  {| running := running p; sockfd := sockfd p; errno := errno p;
     queue_counter := queue_counter p; frame_queue := q;
     cam := cam p; trace := trace p |}.

Definition set_running (r : Z) (p : process) : process :=
  {| running := r; sockfd := sockfd p; errno := errno p;
     queue_counter := queue_counter p; frame_queue := frame_queue p;
     cam := cam p; trace := trace p |}.

Definition set_sockfd (fd : Z) (p : process) : process :=
  {| running := running p; sockfd := fd; errno := errno p;
     queue_counter := queue_counter p; frame_queue := frame_queue p;
     cam := cam p; trace := trace p |}.

Definition set_errno (e : Z) (p : process) : process :=
  {| running := running p; sockfd := sockfd p; errno := e;
     queue_counter := queue_counter p; frame_queue := frame_queue p;
     cam := cam p; trace := trace p |}.

(** *** [camera_handler_t::init_frame_config] *)

Definition init_frame_config (cfg : config) (h : camera_handler_t)
  : camera_handler_t :=
  let y_plane_bytes := to_uint (frame_width cfg * frame_height cfg) in
  let u_plane_bytes := y_plane_bytes / 4 in
  let v_plane_bytes := u_plane_bytes in
  {| requests_ := requests_ h;
     mmap_buffers_ := mmap_buffers_ h;
     next_req_idx_ := next_req_idx_ h;
     frame_bytes_ :=
       to_int (to_uint (to_uint (y_plane_bytes + u_plane_bytes) + v_plane_bytes));
     dma_frame_buffers_ := dma_buffers cfg |}.

(** *** [camera_handler_t::queue_request] *)

(** The two [std::runtime_error]s the method throws. *)
Inductive runtime_error := BufferNotReady | QueueFailed.

Definition what (e : runtime_error) : string :=
  match e with
  | BufferNotReady => "Buffer is not ready for requeuing"
  | QueueFailed => "Failed to queue request"
  end.

(** Result of a call that may throw.  [Undefined] stands for C++
    undefined behaviour (indexing a vector out of range). *)
Inductive result :=
| Ok (p : process)
| Throw (e : runtime_error) (p : process)
| Undefined.

Definition set_next_req_idx (i : Z) (h : camera_handler_t) : camera_handler_t :=
  {| requests_ := requests_ h; mmap_buffers_ := mmap_buffers_ h;
     next_req_idx_ := i; frame_bytes_ := frame_bytes_ h;
     dma_frame_buffers_ := dma_frame_buffers_ h |}.

Definition set_requests (rs : list Request) (h : camera_handler_t) : camera_handler_t :=
  {| requests_ := rs; mmap_buffers_ := mmap_buffers_ h;
     next_req_idx_ := next_req_idx_ h; frame_bytes_ := frame_bytes_ h;
     dma_frame_buffers_ := dma_frame_buffers_ h |}.

(** [vendor_ret] is what [camera_->queueRequest] returns for this
    submission. *)
Definition queue_request (vendor_ret : Z) (p : process) : result :=
  let h := cam p in
  let enqueued_bufs := sem_getvalue (queue_counter p) in
  if enqueued_bufs >? to_int (dma_frame_buffers_ h - 2) then
    Throw BufferNotReady (log ERROR (what BufferNotReady) p)
  else
    match vec_at (requests_ h) (next_req_idx_ h) with
    | None => Undefined
    | Some req =>
        let p := emit (EvQueueRequest (cookie req) vendor_ret) p in
        if vendor_ret <? 0 then
          Throw QueueFailed (log ERROR (what QueueFailed) p)
        else
          let incremented := to_int (next_req_idx_ h + 1) in
          let size := Z.of_nat (length (requests_ h)) in
          let next := to_int (to_size_t incremented mod size) in
          Ok (set_cam (set_next_req_idx next h) p)
    end.

(** *** [camera_handler_t::request_complete] *)

(** [request] is the position in [requests_] of the request the vendor
    library hands back.  [None]: undefined behaviour (a request or a
    cookie outside the tables). *)
Definition request_complete (request : nat) (p : process) : option process :=
  let h := cam p in
  match requests_ h !! request with
  | None => None
  | Some req =>
      if req_status_eqb (status req) RequestCancelled then Some p
      else
        let p := log INFO "Request completed" p in
        match vec_at (mmap_buffers_ h) (cookie req) with
        | None => None
        | Some data =>
            let p := emit (EvEnqueue data)
                       (set_frame_queue (frame_queue p ++ [data]) p) in
            let p := emit EvSemPost
                       (set_queue_counter (sem_post (queue_counter p)) p) in
            let p := emit (EvReuse (cookie req))
                       (set_cam (set_requests (<[request := reuse req]> (requests_ h)) h) p) in
            Some p
        end
  end.

(** *** [main.cpp]: signal handlers *)

Definition SIGINT : Z := 2.
Definition SIGUSR1 : Z := 10.
Definition SIGUSR2 : Z := 12.
Definition SIGTERM : Z := 15.
Definition EINTR : Z := 4.

Definition socket_disconnect_handler (signo : Z) (p : process) : process :=
  if (signo =? SIGUSR2) && (sockfd p >=? 0) then
    let p := emit (EvClose (sockfd p)) p in
    let p := set_sockfd (-1) p in
    log INFO "Socket disconnected by timer" p
  else p.

(** [vendor_ret]: the vendor library's answer should the handler submit
    a request.  An exception of [queue_request] leaves the handler. *)
Definition capture_signal_handler (signo : Z) (vendor_ret : Z) (p : process)
  : result :=
  if (signo =? SIGUSR1) && negb (running p =? 0) then
    match queue_request vendor_ret p with
    | Ok p => Ok (log INFO "Capture request queued" p)
    | r => r
    end
  else if (signo =? SIGINT) || (signo =? SIGTERM) then
    let p := set_running 0 p in
    let p := if sockfd p >=? 0
             then set_sockfd (-1) (emit (EvClose (sockfd p)) p)
             else p in
    Ok (emit EvSemDestroy (set_queue_counter (sem_destroy (queue_counter p)) p))
  else Ok p.

(** *** [main.cpp]: [init_network] and [stream_pkt] *)

(** What the kernel answers to one [socket] + [connect] attempt. *)
Record net_env := mk_net_env {
  socket_ret : Z; socket_errno : Z;
  connect_ret : Z; connect_errno : Z
}.

Definition init_network (e : net_env) (p : process) : Z * process :=
  let p := emit (EvSocket (socket_ret e)) (set_sockfd (socket_ret e) p) in
  if sockfd p <? 0 then
    let p := set_errno (socket_errno e) p in
    let p := log ERROR "Failed to create socket" p in
    (- errno p, p)
  else
    let p := emit (EvConnect (sockfd p) (connect_ret e)) p in
    if connect_ret e <? 0 then
      let p := set_errno (connect_errno e) p in
      let p := log ERROR "Failed to connect to server" p in
      (- errno p, p)
    else (0, p).

(** What the kernel answers during one pass of the write loop: to a
    reconnection, if the pass makes one, and to the [write]. *)
Record io_env := mk_io_env {
  net : net_env;
  write_ret : Z; write_errno : Z
}.

(** [write(2)]: -1 with [errno] set, or the number of bytes taken, which
    never exceeds [count]. *)
Definition sys_write (e : io_env) (count : Z) : Z :=
  if write_ret e <? 0 then -1 else Z.min (write_ret e) count.

(** The [while] loop of [stream_pkt].

    Modelled from the spec: [connection.h], which declares the type of
    [conn], is not among the sources.  [conn.sockfd] names the
    process-wide [sockfd]: [main] builds [conn] from it, the watchdog
    closes it, and [init_network] assigns the global that the loop then
    writes to.

    One element of [env] is consumed per pass; [None] means the loop is
    still running when the recorded answers end. *)
Fixpoint stream_pkt_loop (env : list io_env) (size total_bytes_written : Z)
    (p : process) : option Z * process :=
  if total_bytes_written <? size then
    match env with
    | [] => (None, p)
    | e :: env' =>
        let write_pass (p : process) :=
          let count := size - total_bytes_written in
          let result := sys_write e count in
          let p := if result <? 0 then set_errno (write_errno e) p else p in
          let p := emit (EvWrite (sockfd p) total_bytes_written count result
                           (write_errno e)) p in
          if result <? 0 then
            if errno p =? EINTR then
              stream_pkt_loop env' size total_bytes_written p
            else
              (Some (-1), log ERROR "Error transmitting frame" p)
          else
            stream_pkt_loop env' size
              (to_size_t (total_bytes_written + result)) p in
        if sockfd p <? 0 then
          let '(ret, p) := init_network (net e) p in
          if ret <? 0 then (Some ret, p) else write_pass p
        else write_pass p
    end
  else (Some 0, log INFO "Transmitted frame" p).

Definition stream_pkt (env : list io_env) (size : Z) (p : process)
  : option Z * process :=
  stream_pkt_loop env size 0 p.

(** *** Reading traces *)

(** The cookies of the requests handed to [camera_->queueRequest]. *)
Fixpoint submissions (tr : list event) : list Z :=
  match tr with
  | [] => []
  | EvQueueRequest c _ :: tr' => c :: submissions tr'
  | _ :: tr' => submissions tr'
  end.

(** Number of [sem_post] calls. *)
Fixpoint sem_posts (tr : list event) : Z :=
  match tr with
  | [] => 0
  | EvSemPost :: tr' => 1 + sem_posts tr'
  | _ :: tr' => sem_posts tr'
  end.

(** Bytes the kernel accepted over all [write] calls. *)
Fixpoint bytes_written (tr : list event) : Z :=
  match tr with
  | [] => 0
  | EvWrite _ _ _ r _ :: tr' => (if r <? 0 then 0 else r) + bytes_written tr'
  | _ :: tr' => bytes_written tr'
  end.

(** Every [write] of [tr] is made on an open descriptor, starts at the
    first byte not yet accepted ([off], counting from the start of the
    packet) and asks for all that remains of [size]. *)
Fixpoint writes_from (off size : Z) (tr : list event) : Prop :=
  match tr with
  | [] => True
  | EvWrite fd o c r _ :: tr' =>
      0 <= fd /\ o = off /\ c = size - off /\
      writes_from (off + (if r <? 0 then 0 else r)) size tr'
  | _ :: tr' => writes_from off size tr'
  end.

(** Events other than [write] calls. *)
Definition not_write (e : event) : Prop :=
  match e with EvWrite _ _ _ _ _ => False | _ => True end.

(** What a run of the write loop started at offset [total] has done
    when it returns [r] with [new] appended to the trace. *)
Definition loop_post (size total : Z) (r : option Z) (new : list event) : Prop :=
  writes_from total size new
  /\ total + bytes_written new <= size
  /\ (r = Some 0 <-> total + bytes_written new = size)
  /\ (forall r', r = Some r' -> r' <= 0)
  /\ (forall fd off c ret err,
        In (EvWrite fd off c ret err) new -> ret < 0 -> err <> EINTR ->
        r = Some (-1)).

(** The calls a run of the write loop makes on descriptor [fd], and the
    way it ends: [write_run size fd off left r tr] for a run that starts
    with [off] bytes written and [left] recorded answers.  A short write
    is continued from the first unwritten byte, an interrupted write is
    made again, any other failure ends the run with -1, and the run
    returns 0 only from an offset that has reached [size]; [None] is a
    run still going on when the recorded answers end. *)
Inductive write_run (size fd : Z)
  : Z -> nat -> option Z -> list event -> Prop :=
| run_done off left :
    size <= off ->
    write_run size fd off left (Some 0) [EvLog INFO "Transmitted frame"]
| run_unfinished off :
    off < size -> write_run size fd off 0 None []
| run_failed off left err :
    off < size -> err <> EINTR ->
    write_run size fd off (S left) (Some (-1))
      [EvWrite fd off (size - off) (-1) err;
       EvLog ERROR "Error transmitting frame"]
| run_retried off left r tr :
    off < size ->
    write_run size fd off left r tr ->
    write_run size fd off (S left) r
      (EvWrite fd off (size - off) (-1) EINTR :: tr)
| run_continued off left taken err r tr :
    off < size -> 0 <= taken <= size - off ->
    write_run size fd (off + taken) left r tr ->
    write_run size fd off (S left) r
      (EvWrite fd off (size - off) taken err :: tr).

(** POSIX: a failing call sets [errno] to a positive error number. *)
Definition posix_io (e : io_env) : Prop :=
  (socket_ret (net e) < 0 -> 0 < socket_errno (net e))
  /\ (connect_ret (net e) < 0 -> 0 < connect_errno (net e))
  /\ (write_ret e < 0 -> 0 < write_errno e).

(** The class invariant of the request ring after construction: the
    cursor addresses a request. *)
Definition ring_ok (h : camera_handler_t) : Prop :=
  0 <= next_req_idx_ h < Z.of_nat (length (requests_ h))
  /\ Z.of_nat (length (requests_ h)) <= INT_MAX.

(** *** Sample states *)

Definition sample_handler : camera_handler_t :=
  {| requests_ := [mk_Request 0 RequestPending; mk_Request 1 RequestComplete;
                   mk_Request 2 RequestCancelled; mk_Request 3 RequestPending];
     mmap_buffers_ := [4096; 8192; 12288; 16384];
     next_req_idx_ := 3;
     frame_bytes_ := 0;
     dma_frame_buffers_ := 4 |}.

Definition sample_process (count fd : Z) : process :=
  {| running := 1; sockfd := fd; errno := 0;
     queue_counter := {| sem_value := count; sem_destroyed := false |};
     frame_queue := []; cam := sample_handler; trace := [] |}.

Definition sample_io (r e : Z) : io_env :=
  {| net := {| socket_ret := 5; socket_errno := 0;
               connect_ret := 0; connect_errno := 0 |};
     write_ret := r; write_errno := e |}.

End CameraNode.

(** ** Stream server: the worker of [stream_mgr.c] *)

Module StreamServer.

Definition EAGAIN : Z := 11.
Definition ENODATA : Z := 61.

(** The eight ASCII bytes of the end-of-stream sentinel. *)
Definition EOSTREAM : list byte := list_byte_of_string "EOSTREAM".

(** A [uint64_t] or [uint32_t] read from raw bytes in host order
    (little-endian on the targets). *)
Fixpoint le_decode (bs : list byte) : Z :=
  match bs with
  | [] => 0
  | b :: bs' => Z.of_N (Byte.to_N b) + 256 * le_decode bs'
  end.

(** What the peer and the kernel deliver to one [recv_from_stream] call:
    some bytes (possibly fewer than asked for), or a failure. *)
Inductive recv_result := Recvd (data : list byte) | RecvErr.

(** Modelled from the spec: [network.h] is not among the sources.
    [recv_from_stream fd buf n] fills [buf] with at most [n] bytes and
    returns how many it got; a closed connection gives 0 and an error a
    negative count.  The first component is the returned count, the
    second the bytes stored, the third the rest of the connection. *)
Definition recv_from_stream (c : list recv_result) (n : Z)
  : Z * list byte * list recv_result :=
  match c with
  | [] => (0, [], [])
  | Recvd data :: c' =>
      let got := take (Z.to_nat n) data in (Z.of_nat (length got), got, c')
  | RecvErr :: c' => (-1, [], c')
  end.

Inductive level_t := INFO | ERROR.

(** Calls that leave the worker, in call order.  A log entry carries the
    fixed text its format string starts with. *)
Inductive event :=
| EvLog (lvl : level_t) (msg : string)
| EvRecv (requested pkt_size : Z)          (* recv_from_stream *)
| EvEnqueue (timestamp ret : Z)            (* enqueue(&timestamp_queue, ..) *)
| EvFlush (ret : Z)                        (* flush_decoder *)
| EvDecode (frame : list byte) (ret : Z)   (* decode_packet *)
| EvRecvFrame (ret : Z)                    (* recv_frame *)
| EvDequeue (ts : Z)                       (* dequeue(&timestamp_queue, ..) *)
| EvFree                                   (* free(enc_frame_buf) *)
| EvCleanupDecoder
| EvCleanupQueue
| EvClose (fd : Z).

Inductive loop_ctrl := Continue | Break.

Section Worker.

(** [ENCODED_FRAME_BUF_SIZE] is defined in a header that is not among
    the sources; it is a non-negative constant (it sizes a [malloc]). *)
Variable ENCODED_FRAME_BUF_SIZE : Z.

(** The codec wrapper ([viddec.h]) and the timestamp queue ([queue.h])
    are not among the sources either.  They are taken as abstract
    state machines: each operation returns its status code and the
    next state. *)
Variable decoder : Type.
Variable decode_packet : decoder -> list byte -> Z * decoder.
Variable recv_frame : decoder -> Z * decoder.
Variable flush_decoder : decoder -> Z * decoder.

Variable queue : Type.
Variable enqueue : queue -> Z -> Z * queue.
Variable dequeue : queue -> Z * queue.   (* the value stored in [ts] *)

(** Locals of [stream_mgr] that are live across loop passes. *)
Record worker := mk_worker {
  clientfd_in : list recv_result;   (* what [clientfd] will deliver *)
  viddec : decoder;
  timestamp_queue : queue;
  incoming_stream : bool;
  ret : Z;
  sockfd : Z;
  clientfd : Z;
  trace : list event
}.

Definition emit (e : event) (w : worker) : worker :=
  {| clientfd_in := clientfd_in w; viddec := viddec w;
     timestamp_queue := timestamp_queue w;
     incoming_stream := incoming_stream w; ret := ret w;
     sockfd := sockfd w; clientfd := clientfd w;
     trace := trace w ++ [e] |}.

Definition log (lvl : level_t) (msg : string) (w : worker) : worker :=
  emit (EvLog lvl msg) w.

Definition set_in (c : list recv_result) (w : worker) : worker :=
  {| clientfd_in := c; viddec := viddec w;
     timestamp_queue := timestamp_queue w;
     incoming_stream := incoming_stream w; ret := ret w;
     sockfd := sockfd w; clientfd := clientfd w; trace := trace w |}.

Definition set_viddec (d : decoder) (w : worker) : worker :=
  {| clientfd_in := clientfd_in w; viddec := d;
     timestamp_queue := timestamp_queue w;
     incoming_stream := incoming_stream w; ret := ret w;
     sockfd := sockfd w; clientfd := clientfd w; trace := trace w |}.

Definition set_queue (q : queue) (w : worker) : worker :=
  {| clientfd_in := clientfd_in w; viddec := viddec w;
     timestamp_queue := q;
     incoming_stream := incoming_stream w; ret := ret w;
     sockfd := sockfd w; clientfd := clientfd w; trace := trace w |}.

Definition set_incoming (b : bool) (w : worker) : worker :=
  {| clientfd_in := clientfd_in w; viddec := viddec w;
     timestamp_queue := timestamp_queue w;
     incoming_stream := b; ret := ret w;
     sockfd := sockfd w; clientfd := clientfd w; trace := trace w |}.

Definition set_ret (r : Z) (w : worker) : worker :=
  {| clientfd_in := clientfd_in w; viddec := viddec w;
     timestamp_queue := timestamp_queue w;
     incoming_stream := incoming_stream w; ret := r;
     sockfd := sockfd w; clientfd := clientfd w; trace := trace w |}.

(** One [recv_from_stream(clientfd, buf, n)]: the count, the bytes and
    the worker afterwards. *)
Definition do_recv (n : Z) (w : worker) : Z * list byte * worker :=
  let '(pkt_size, buf, rest) := recv_from_stream (clientfd_in w) n in
  (pkt_size, buf, emit (EvRecv n pkt_size) (set_in rest w)).

(** The [if (new_frame)] block; [new_frame] is never cleared. *)
Definition frame_stage (w : worker) : loop_ctrl * worker :=
  let '(r, d) := recv_frame (viddec w) in
  let w := emit (EvRecvFrame r) (set_ret r (set_viddec d w)) in
  if r =? EAGAIN then (Continue, w)
  else if r =? ENODATA then (Break, log INFO "Recvd EOF from decoder" w)
  else if negb (r =? 0) then (Break, w)
  else
    let w := log INFO "Recvd frame from decoder" w in
    let '(ts, q) := dequeue (timestamp_queue w) in
    let w := emit (EvDequeue ts) (set_queue q w) in
    (Continue, log INFO "Dequeued timestamp" w).

(** One pass of the [while (true)] body. *)
Definition stream_mgr_iter (w : worker) : loop_ctrl * worker :=
  if incoming_stream w then
    let '(pkt_size, timestamp, w) := do_recv 8 w in
    if negb (pkt_size =? 8) then
      (Break, log ERROR "Received unexpected timestamp size" w)
    else if List.list_eq_dec byte_eq_dec timestamp EOSTREAM then
      let w := log INFO "Received end of stream signal" w in
      let w := set_incoming false w in
      let '(r, d) := flush_decoder (viddec w) in
      (Continue, emit (EvFlush r) (set_ret r (set_viddec d w)))
    else
      let '(r, q) := enqueue (timestamp_queue w) (le_decode timestamp) in
      let w := emit (EvEnqueue (le_decode timestamp) r) (set_ret r (set_queue q w)) in
      if negb (r =? 0) then (Break, w)
      else
        let '(pkt_size, size_buf, w) := do_recv 4 w in
        if negb (pkt_size =? 4) then
          (Break, log ERROR "Received unexpected frame size buffer" w)
        else
          let frame_size := le_decode size_buf in
          if frame_size >? ENCODED_FRAME_BUF_SIZE then
            (Break, log ERROR "Received frame size that is larger than the allocated buffer" w)
          else
            let '(pkt_size, enc_frame_buf, w) := do_recv frame_size w in
            if negb (pkt_size =? frame_size) then
              (Break, log ERROR "Received unexpected frame size" w)
            else
              let w := log INFO "Received frame" w in
              let '(r, d) := decode_packet (viddec w) enc_frame_buf in
              let w := emit (EvDecode enc_frame_buf r) (set_ret r (set_viddec d w)) in
              if negb (r =? 0) then (Break, w)
              else frame_stage w
  else frame_stage w.

(** The [while (true)] loop: [None] when it is still running after
    [fuel] passes, otherwise the worker at the [break]. *)
Fixpoint stream_mgr_loop (fuel : nat) (w : worker) : option worker :=
  match fuel with
  | O => None
  | S fuel' =>
      match stream_mgr_iter w with
      | (Break, w') => Some w'
      | (Continue, w') => stream_mgr_loop fuel' w'
      end
  end.

(** The [cleanup:] label. *)
Definition cleanup (w : worker) : worker :=
  let w := emit EvFree w in
  let w := emit EvCleanupDecoder w in
  let w := emit EvCleanupQueue w in
  let w := if sockfd w >=? 0 then emit (EvClose (sockfd w)) w else w in
  if clientfd w >=? 0 then emit (EvClose (clientfd w)) w else w.

(** [stream_mgr] from the first pass of the loop on (both sockets are
    open there, [incoming_stream] is true). *)
Definition stream_mgr (fuel : nat) (w : worker) : option worker :=
  match stream_mgr_loop fuel w with
  | Some w' => Some (cleanup w')
  | None => None
  end.

(** The worker as the loop is entered. *)
Definition entry (input : list recv_result) (d : decoder) (q : queue)
    (sockfd clientfd : Z) : worker :=
  {| clientfd_in := input; viddec := d; timestamp_queue := q;
     incoming_stream := true; ret := 0;
     sockfd := sockfd; clientfd := clientfd; trace := [] |}.

End Worker.

Arguments mk_worker {decoder queue}.
Arguments clientfd_in {decoder queue}.
Arguments viddec {decoder queue}.
Arguments timestamp_queue {decoder queue}.
Arguments incoming_stream {decoder queue}.
Arguments ret {decoder queue}.
Arguments sockfd {decoder queue}.
Arguments clientfd {decoder queue}.
Arguments trace {decoder queue}.
Arguments emit {decoder queue}.
Arguments log {decoder queue}.
Arguments cleanup {decoder queue}.
Arguments entry {decoder queue}.
Arguments set_in {decoder queue}.
Arguments set_viddec {decoder queue}.
Arguments set_queue {decoder queue}.
Arguments set_incoming {decoder queue}.
Arguments set_ret {decoder queue}.
Arguments do_recv {decoder queue}.
Arguments frame_stage {decoder} recv_frame {queue} dequeue.
Arguments stream_mgr_iter ENCODED_FRAME_BUF_SIZE {decoder}
  decode_packet recv_frame flush_decoder {queue} enqueue dequeue.
Arguments stream_mgr_loop ENCODED_FRAME_BUF_SIZE {decoder}
  decode_packet recv_frame flush_decoder {queue} enqueue dequeue.
Arguments stream_mgr ENCODED_FRAME_BUF_SIZE {decoder}
  decode_packet recv_frame flush_decoder {queue} enqueue dequeue.

(** *** Reading traces *)

(** Timestamps put on the queue: [enqueue] calls that returned 0. *)
Fixpoint timestamps_enqueued (tr : list event) : Z :=
  match tr with
  | [] => 0
  | EvEnqueue _ r :: tr' => (if r =? 0 then 1 else 0) + timestamps_enqueued tr'
  | _ :: tr' => timestamps_enqueued tr'
  end.

(** Timestamps taken off the queue: [dequeue] calls. *)
Fixpoint timestamps_dequeued (tr : list event) : Z :=
  match tr with
  | [] => 0
  | EvDequeue _ :: tr' => 1 + timestamps_dequeued tr'
  | _ :: tr' => timestamps_dequeued tr'
  end.

(** Frames the decoder emitted: [recv_frame] calls that returned 0. *)
Fixpoint frames_emitted (tr : list event) : Z :=
  match tr with
  | [] => 0
  | EvRecvFrame r :: tr' => (if r =? 0 then 1 else 0) + frames_emitted tr'
  | _ :: tr' => frames_emitted tr'
  end.

(** Input packets received in full (timestamp, size and payload): the
    worker calls [decode_packet] for these and for no others. *)
Fixpoint packets_received (tr : list event) : Z :=
  match tr with
  | [] => 0
  | EvDecode _ _ :: tr' => 1 + packets_received tr'
  | _ :: tr' => packets_received tr'
  end.

(** Reads from the socket. *)
Fixpoint socket_reads (tr : list event) : Z :=
  match tr with
  | [] => 0
  | EvRecv _ _ :: tr' => 1 + socket_reads tr'
  | _ :: tr' => socket_reads tr'
  end.

(** [recv_frame] calls. *)
Fixpoint frame_polls (tr : list event) : Z :=
  match tr with
  | [] => 0
  | EvRecvFrame _ :: tr' => 1 + frame_polls tr'
  | _ :: tr' => frame_polls tr'
  end.

(** The worker left the loop because [recv_frame] reported the end of
    the stream. *)
Definition drained {decoder queue : Type} (w : worker decoder queue) : Prop :=
  exists tr0,
    trace w = tr0 ++ [EvRecvFrame ENODATA; EvLog INFO "Recvd EOF from decoder"].

(** States of the loop reachable from [w0]: [Continue] at the top of a
    pass, [Break] once the loop has been left. *)
Inductive reachable {decoder queue : Type}
    (iter : worker decoder queue -> loop_ctrl * worker decoder queue)
    (w0 : worker decoder queue)
  : loop_ctrl -> worker decoder queue -> Prop :=
| reach_entry : reachable iter w0 Continue w0
| reach_pass c w w' :
    reachable iter w0 Continue w -> iter w = (c, w') ->
    reachable iter w0 c w'.

(** [drains recv_frame d k]: polled from state [d], the decoder answers
    with a frame or with EAGAIN [k] times and then reports the end of
    the stream. *)
Inductive drains {decoder : Type} (recv_frame : decoder -> Z * decoder)
  : decoder -> nat -> Prop :=
| drains_eof d d' :
    recv_frame d = (ENODATA, d') -> drains recv_frame d 0
| drains_more d r d' k :
    recv_frame d = (r, d') -> r = 0 \/ r = EAGAIN ->
    drains recv_frame d' k -> drains recv_frame d (S k).

(** *** Invariants of the loop *)

(** At every point of the trace, no more timestamps have been dequeued
    than enqueued. *)
Definition balanced (tr : list event) : Prop :=
  forall n : nat,
    timestamps_dequeued (take n tr) <= timestamps_enqueued (take n tr).

Section Invariants.

Context {decoder queue : Type}.

(** [held d]: the number of frames the decoder has taken in and not yet
    given out. *)
Variable held : decoder -> nat.

(** Holds at the top of every pass. *)
Definition aligned (w : worker decoder queue) : Prop :=
  timestamps_enqueued (trace w)
  = timestamps_dequeued (trace w) + Z.of_nat (held (viddec w))
  /\ timestamps_enqueued (trace w) = packets_received (trace w)
  /\ timestamps_dequeued (trace w) = frames_emitted (trace w)
  /\ balanced (trace w).

(** Holds once the loop has been left. *)
Definition settled (w : worker decoder queue) : Prop :=
  packets_received (trace w) <= timestamps_enqueued (trace w)
                             <= packets_received (trace w) + 1
  /\ timestamps_dequeued (trace w) = frames_emitted (trace w)
  /\ balanced (trace w)
  /\ (drained w -> timestamps_dequeued (trace w) = timestamps_enqueued (trace w)).

Definition pass_post (out : loop_ctrl * worker decoder queue) : Prop :=
  match out with
  | (Continue, w') => aligned w'
  | (Break, w') => settled w'
  end.

(** What a run of draining passes leaves behind. *)
Definition drain_post (k : nat) (w w2 : worker decoder queue) : Prop :=
  drained w2
  /\ clientfd_in w2 = clientfd_in w
  /\ socket_reads (trace w2) = socket_reads (trace w)
  /\ timestamps_enqueued (trace w2) = timestamps_enqueued (trace w)
  /\ packets_received (trace w2) = packets_received (trace w)
  /\ frame_polls (trace w2) = frame_polls (trace w) + Z.of_nat (S k)
  /\ timestamps_dequeued (trace w2) - timestamps_dequeued (trace w)
     = frames_emitted (trace w2) - frames_emitted (trace w).

End Invariants.

(** *** A sample codec and queue *)

(** A decoder that keeps one frame back until it is flushed: the number
    of frames it holds, and whether it has been flushed. *)
Definition lag_decoder : Type := nat * bool.

Definition lag_decode_packet (d : lag_decoder) (_ : list byte) : Z * lag_decoder :=
  (0, (S (fst d), snd d)).

Definition lag_recv_frame (d : lag_decoder) : Z * lag_decoder :=
  match d with
  | (S (S n), false) => (0, (S n, false))
  | (_, false) => (EAGAIN, d)
  | (S n, true) => (0, (n, true))
  | (O, true) => (ENODATA, d)
  end.

Definition lag_flush_decoder (d : lag_decoder) : Z * lag_decoder :=
  (0, (fst d, true)).

Definition fifo_enqueue (q : list Z) (ts : Z) : Z * list Z := (0, q ++ [ts]).

Definition fifo_dequeue (q : list Z) : Z * list Z :=
  match q with
  | [] => (0, [])
  | ts :: q' => (ts, q')
  end.

Definition sample_iter (buf_size : Z) :=
  stream_mgr_iter buf_size lag_decode_packet lag_recv_frame
    lag_flush_decoder fifo_enqueue fifo_dequeue.

Definition sample_loop (buf_size : Z) :=
  stream_mgr_loop buf_size lag_decode_packet lag_recv_frame
    lag_flush_decoder fifo_enqueue fifo_dequeue.

Definition sample_stream_mgr (buf_size : Z) :=
  stream_mgr buf_size lag_decode_packet lag_recv_frame
    lag_flush_decoder fifo_enqueue fifo_dequeue.

Definition sample_entry (input : list recv_result) : worker lag_decoder (list Z) :=
  entry input (O, false) [] 3 4.

(** Wire bytes of a packet: 8 timestamp bytes, 4 size bytes, payload. *)
Definition ts_bytes : list byte := list_byte_of_string "12345678".
Definition size_bytes (n : byte) : list byte := [n; x00; x00; x00].

(** Two packets, then the end-of-stream sentinel. *)
Definition two_packets : list recv_result :=
  [Recvd ts_bytes; Recvd (size_bytes x02); Recvd [x61; x62];
   Recvd ts_bytes; Recvd (size_bytes x01); Recvd [x63];
   Recvd EOSTREAM].

End StreamServer.

(** ** Camera node: construction, teardown and repeated triggers *)

Module CameraInit.

Import CameraNode.

(** [libcamera::CameraConfiguration::Status], the answer of [validate]. *)
Inductive cfg_status := Valid | Adjusted | Invalid.

Definition cfg_status_eqb (a b : cfg_status) : bool :=
  match a, b with
  | Valid, Valid | Adjusted, Adjusted | Invalid, Invalid => true
  | _, _ => false
  end.

(** The [std::runtime_error]s thrown while the handler is set up. *)
Inductive init_error :=
| GenerateConfigFailed
| ConfigInvalid
| ConfigAdjusted
| ConfigureFailed
| AllocateFailed
| CreateRequestFailed
| AddBufferFailed
| PlaneSizeMismatch
| MmapFailed (err : Z)       (* message ends with strerror(err) *)
| CmStartFailed
| NoCameras
| GetFailed
| AcquireFailed
| StartFailed.

Definition init_what (e : init_error) : string :=
  match e with
  | GenerateConfigFailed => "Failed to generate camera configuration"
  | ConfigInvalid => "Invalid camera configuration, unable to adjust"
  | ConfigAdjusted => "Invalid camera configuration, adjusted"
  | ConfigureFailed => "Failed to configure camera"
  | AllocateFailed => "Failed to allocate buffers"
  | CreateRequestFailed => "Failed to create request"
  | AddBufferFailed => "Failed to add buffer to request"
  | PlaneSizeMismatch => "Plane size does not match expected size"
  | MmapFailed _ => "Failed to mmap plane data: "
  | CmStartFailed => "Failed to start camera manager"
  | NoCameras => "No cameras available"
  | GetFailed => "Failed to retrieve camera"
  | AcquireFailed => "Failed to acquire camera"
  | StartFailed => "Failed to start camera"
  end.

(** Objects of the vendor library that the handler owns through a
    smart pointer. *)
Inductive object :=
| ObjManager                       (* cm_ *)
| ObjCamera                        (* camera_, a shared reference *)
| ObjConfiguration                 (* config_ *)
| ObjAllocator                     (* allocator_ *)
| ObjControls                      (* controls_ *)
| ObjRequests (cookies : list Z)   (* requests_, with the requests it holds *)
| ObjRequest (req_cookie : Z).     (* the local [request] of init_dma_buffers *)

(** Calls that leave the handler during set-up and teardown, in call
    order. *)
Inductive init_event :=
| IvLog (msg : string)                          (* logger->log(ERROR, ..) *)
| IvGenerateConfiguration (ok : bool)
| IvStreamConfig (width height buffer_count : Z) (* cfg.size, cfg.bufferCount *)
| IvValidate (st : cfg_status)
| IvConfigure (ret : Z)
| IvAllocate (ret : Z)
| IvCreateRequest (req_cookie : Z) (ok : bool)
| IvAddBuffer (req_cookie ret : Z)
| IvMmap (len fd off : Z) (res : option ptr)    (* None: MAP_FAILED *)
| IvConnectCallback                             (* requestCompleted.connect *)
| IvCameraStop
| IvMunmap (data : ptr) (len : Z)
| IvAllocatorFree
| IvCameraRelease
| IvCmStop
| IvCmStart (ret : Z)                           (* cm_->start *)
| IvCameras (count : nat)                       (* cm_->cameras *)
| IvCmGet (id : string) (ok : bool)             (* cm_->get(cameras[0]->id()) *)
| IvAcquire (ret : Z)
| IvControls (frame_duration_min frame_duration_max : Z)
| IvCameraStart (ret : Z)
| IvDestroyed (o : object).       (* a smart pointer gives up its object *)

Inductive init_result :=
| IOk (h : camera_handler_t) (tr : list init_event)
| IThrow (e : init_error) (h : camera_handler_t) (tr : list init_event)
| IUndefined.

Definition throw (e : init_error) (h : camera_handler_t) (tr : list init_event)
  : init_result :=
  IThrow e h (tr ++ [IvLog (init_what e)]).

(** *** [camera_handler_t::init_camera_config] *)

(** What the vendor library answers: whether a configuration was
    generated, the two [validate] calls, and [configure]. *)
Record config_env := mk_config_env {
  generate_ok : bool;
  validate_1 : cfg_status;
  validate_2 : cfg_status;
  configure_ret : Z
}.

Definition init_camera_config (cfg : config) (e : config_env)
    (h : camera_handler_t) (tr : list init_event) : init_result :=
  let tr := tr ++ [IvGenerateConfiguration (generate_ok e)] in
  if negb (generate_ok e) then throw GenerateConfigFailed h tr
  else
    let tr := tr ++ [IvStreamConfig (to_uint (frame_width cfg))
                       (to_uint (frame_height cfg))
                       (to_uint (dma_frame_buffers_ h))] in
    let tr := tr ++ [IvValidate (validate_1 e)] in
    if cfg_status_eqb (validate_1 e) Invalid then throw ConfigInvalid h tr
    else
      let tr := tr ++ [IvValidate (validate_2 e)] in
      if cfg_status_eqb (validate_2 e) Adjusted then throw ConfigAdjusted h tr
      else
        let tr := tr ++ [IvConfigure (configure_ret e)] in
        if configure_ret e <? 0 then throw ConfigureFailed h tr
        else IOk h tr.

(** *** [camera_handler_t::init_dma_buffers] *)

(** [libcamera::FrameBuffer::Plane]. *)
Record plane := mk_plane {
  plane_length : Z;     (* unsigned int *)
  plane_fd : Z;
  plane_offset : Z
}.

(** One buffer of the allocator, with what the vendor library and the
    kernel answer while it is set up. *)
Record buffer_env := mk_buffer_env {
  planes : list plane;
  create_ok : bool;            (* createRequest gave a request *)
  add_buffer_ret : Z;
  mmap_ret : option ptr;       (* None: MAP_FAILED *)
  mmap_errno : Z
}.

(** [frame_bytes_ * 2/3], stored in an [unsigned int]: the size the luma
    plane is expected to have. *)
Definition expected_y_plane_bytes (frame_bytes : Z) : Z :=
  to_uint (Z.quot (to_int (frame_bytes * 2)) 3).

Definition expected_u_plane_bytes (frame_bytes : Z) : Z :=
  expected_y_plane_bytes frame_bytes / 4.

Definition push_request (r : Request) (h : camera_handler_t) : camera_handler_t :=
  {| requests_ := requests_ h ++ [r]; mmap_buffers_ := mmap_buffers_ h;
     next_req_idx_ := next_req_idx_ h; frame_bytes_ := frame_bytes_ h;
     dma_frame_buffers_ := dma_frame_buffers_ h |}.

Definition push_mapping (data : ptr) (h : camera_handler_t) : camera_handler_t :=
  {| requests_ := requests_ h; mmap_buffers_ := mmap_buffers_ h ++ [data];
     next_req_idx_ := next_req_idx_ h; frame_bytes_ := frame_bytes_ h;
     dma_frame_buffers_ := dma_frame_buffers_ h |}.

(** The range-for over [allocator_->buffers(stream_)]; [req_cookie] is
    the counter declared before it.  [IUndefined]: a buffer with fewer
    than three planes is indexed out of range. *)
Fixpoint dma_buffer_loop (bufs : list buffer_env) (req_cookie : Z)
    (h : camera_handler_t) (tr : list init_event) : init_result :=
  match bufs with
  | [] => IOk h tr
  | b :: bufs' =>
      let this_cookie := req_cookie in
      let req_cookie := to_size_t (req_cookie + 1) in
      let tr := tr ++ [IvCreateRequest this_cookie (create_ok b)] in
      if negb (create_ok b) then throw CreateRequestFailed h tr
      else
        let tr := tr ++ [IvAddBuffer this_cookie (add_buffer_ret b)] in
        if add_buffer_ret b <? 0 then throw AddBufferFailed h tr
        else
          let h := push_request (mk_Request this_cookie RequestPending) h in
          match planes b with
          | y_plane :: u_plane :: v_plane :: _ =>
              let y_plane_bytes := expected_y_plane_bytes (frame_bytes_ h) in
              let u_plane_bytes := y_plane_bytes / 4 in
              let v_plane_bytes := u_plane_bytes in
              if negb (plane_length y_plane =? y_plane_bytes)
                 || negb (plane_length u_plane =? u_plane_bytes)
                 || negb (plane_length v_plane =? v_plane_bytes)
              then throw PlaneSizeMismatch h tr
              else
                let tr := tr ++ [IvMmap (to_size_t (frame_bytes_ h))
                                   (plane_fd y_plane) (plane_offset y_plane)
                                   (mmap_ret b)] in
                match mmap_ret b with
                | None => throw (MmapFailed (mmap_errno b)) h tr
                | Some data =>
                    dma_buffer_loop bufs' req_cookie (push_mapping data h) tr
                end
          | _ => IUndefined
          end
  end.

(** [allocate_ret]: the answer of [allocator_->allocate]; [bufs]: the
    buffers it made. *)
Definition init_dma_buffers (allocate_ret : Z) (bufs : list buffer_env)
    (h : camera_handler_t) (tr : list init_event) : init_result :=
  let tr := tr ++ [IvAllocate allocate_ret] in
  if allocate_ret <? 0 then throw AllocateFailed h tr
  else
    match dma_buffer_loop bufs 0 h tr with
    | IOk h tr => IOk h (tr ++ [IvConnectCallback])
    | r => r
    end.

(** *** [camera_handler_t::~camera_handler_t] *)

Definition destroy (h : camera_handler_t) : list init_event :=
  [IvCameraStop]
  ++ map (fun data => IvMunmap data (to_size_t (frame_bytes_ h))) (mmap_buffers_ h)
  ++ [IvAllocatorFree; IvCameraRelease; IvCmStop].

(** *** Reading set-up traces *)

(** Regions mapped, with the length asked for. *)
Fixpoint mapped (tr : list init_event) : list (ptr * Z) :=
  match tr with
  | [] => []
  | IvMmap len _ _ (Some data) :: tr' => (data, len) :: mapped tr'
  | _ :: tr' => mapped tr'
  end.

(** Regions unmapped, with the length given. *)
Fixpoint unmapped (tr : list init_event) : list (ptr * Z) :=
  match tr with
  | [] => []
  | IvMunmap data len :: tr' => (data, len) :: unmapped tr'
  | _ :: tr' => unmapped tr'
  end.

(** Number of [createRequest] calls. *)
Fixpoint requests_created (tr : list init_event) : nat :=
  match tr with
  | [] => 0%nat
  | IvCreateRequest _ _ :: tr' => S (requests_created tr')
  | _ :: tr' => requests_created tr'
  end.

Definition callback_connected (tr : list init_event) : Prop :=
  In IvConnectCallback tr.

(** The first step of setting up buffer [b] that fails, if any. *)
Definition buffer_error (frame_bytes : Z) (b : buffer_env) : option init_error :=
  if negb (create_ok b) then Some CreateRequestFailed
  else if add_buffer_ret b <? 0 then Some AddBufferFailed
  else
    match planes b with
    | y_plane :: u_plane :: v_plane :: _ =>
        if negb (plane_length y_plane =? expected_y_plane_bytes frame_bytes)
           || negb (plane_length u_plane =? expected_u_plane_bytes frame_bytes)
           || negb (plane_length v_plane =? expected_u_plane_bytes frame_bytes)
        then Some PlaneSizeMismatch
        else match mmap_ret b with
             | None => Some (MmapFailed (mmap_errno b))
             | Some _ => None
             end
    | _ => None
    end.

(** A buffer with three planes of the expected sizes for which every call
    succeeds, mapped at [data]. *)
Definition buffer_good (frame_bytes : Z) (b : buffer_env) (data : ptr) : Prop :=
  create_ok b = true
  /\ 0 <= add_buffer_ret b
  /\ (exists y_plane u_plane v_plane rest,
        planes b = y_plane :: u_plane :: v_plane :: rest
        /\ plane_length y_plane = expected_y_plane_bytes frame_bytes
        /\ plane_length u_plane = expected_u_plane_bytes frame_bytes
        /\ plane_length v_plane = expected_u_plane_bytes frame_bytes)
  /\ mmap_ret b = Some data.

(** A handler as the constructor's member initialisers leave it. *)
Definition fresh (h : camera_handler_t) : Prop :=
  requests_ h = [] /\ mmap_buffers_ h = [] /\ next_req_idx_ h = 0.

(** *** Repeated triggers *)

(** [queue_request] called once per element of [rets] (the vendor
    library's answers), until one call throws. *)
Fixpoint queue_requests (rets : list Z) (p : process) : result :=
  match rets with
  | [] => Ok p
  | vendor_ret :: rets' =>
      match queue_request vendor_ret p with
      | Ok p' => queue_requests rets' p'
      | r => r
      end
  end.

(** The cookie of the request at ring position [i]. *)
Definition cookie_at (h : camera_handler_t) (i : Z) : Z :=
  match vec_at (requests_ h) i with
  | Some r => cookie r
  | None => 0
  end.

(** Number of [request->reuse] calls. *)
Fixpoint reuses (tr : list event) : Z :=
  match tr with
  | [] => 0
  | EvReuse _ :: tr' => 1 + reuses tr'
  | _ :: tr' => reuses tr'
  end.

(** *** [camera_handler_t::init_camera_manager] *)

Record manager_env := mk_manager_env {
  cm_start_ret : Z;
  camera_ids : list string;     (* the ids of cm_->cameras() *)
  get_ok : bool;                (* cm_->get gave a camera *)
  acquire_ret : Z
}.

Definition init_camera_manager (e : manager_env) (h : camera_handler_t)
    (tr : list init_event) : init_result :=
  let tr := tr ++ [IvCmStart (cm_start_ret e)] in
  if cm_start_ret e <? 0 then throw CmStartFailed h tr
  else
    let tr := tr ++ [IvCameras (length (camera_ids e))] in
    match camera_ids e with
    | [] => throw NoCameras h tr
    | id :: _ =>
        let tr := tr ++ [IvCmGet id (get_ok e)] in
        if negb (get_ok e) then throw GetFailed h tr
        else
          let tr := tr ++ [IvAcquire (acquire_ret e)] in
          if acquire_ret e <? 0 then throw AcquireFailed h tr
          else IOk h tr
    end.

(** *** [camera_handler_t::init_camera_controls] *)

(** [IvControls] stands for the control list: the two [unsigned int]
    durations it is built from (the frame duration limits, the minimum
    being the exposure time as well); the other controls are constants. *)
Definition init_camera_controls (cfg : config) (start_ret : Z)
    (h : camera_handler_t) (tr : list init_event) : init_result :=
  let duration_min := to_uint (frame_duration_min cfg) in
  let duration_max := to_uint (frame_duration_max cfg) in
  let tr := tr ++ [IvControls duration_min duration_max] in
  let tr := tr ++ [IvCameraStart start_ret] in
  if start_ret <? 0 then throw StartFailed h tr
  else IOk h tr.

(** *** The constructor *)

(** Everything the vendor library and the kernel answer while the
    handler is constructed. *)
Record vendor_env := mk_vendor_env {
  manager : manager_env;
  configuration : config_env;
  allocate_ret : Z;
  buffers : list buffer_env;
  start_ret : Z
}.

(** The next set-up step runs only if the one before returned. *)
Definition and_then (r : init_result)
    (k : camera_handler_t -> list init_event -> init_result) : init_result :=
  match r with
  | IOk h tr => k h tr
  | r => r
  end.

(** The handler after the member initialisers: empty tables and the
    cursor at 0.  The two sizes are set by [init_frame_config]. *)
Definition member_init : camera_handler_t :=
  {| requests_ := []; mmap_buffers_ := []; next_req_idx_ := 0;
     frame_bytes_ := 0; dma_frame_buffers_ := 0 |}.

(** The five calls of the constructor's body. *)
Definition constructor_body (cfg : config) (e : vendor_env) : init_result :=
  let h := init_frame_config cfg member_init in
  and_then (init_camera_manager (manager e) h []) (fun h tr =>
  and_then (init_camera_config cfg (configuration e) h tr) (fun h tr =>
  and_then (init_dma_buffers (allocate_ret e) (buffers e) h tr) (fun h tr =>
  init_camera_controls cfg (start_ret e) h tr))).

(** The request that a throwing [init_dma_buffers] holds in its local
    [request]: one that was created and could not be given its buffer,
    so that it never reached [requests_]. *)
Fixpoint local_request (tr : list init_event) : option Z :=
  match tr with
  | [] => None
  | IvCreateRequest req_cookie true :: IvAddBuffer _ ret :: tr' =>
      if ret <? 0 then Some req_cookie else local_request tr'
  | _ :: tr' => local_request tr'
  end.

Definition is_controls (ev : init_event) : bool :=
  match ev with IvControls _ _ => true | _ => false end.
Definition is_allocate (ev : init_event) : bool :=
  match ev with IvAllocate _ => true | _ => false end.
Definition is_generated (ev : init_event) : bool :=
  match ev with IvGenerateConfiguration true => true | _ => false end.
Definition is_got (ev : init_event) : bool :=
  match ev with IvCmGet _ true => true | _ => false end.
Definition is_cm_start (ev : init_event) : bool :=
  match ev with IvCmStart _ => true | _ => false end.

(** What an exception that leaves the constructor destroys on its way:
    the local [request] if it holds one, then the members in reverse
    order of declaration.  The destructor's body does not run.  A smart
    pointer gives up an object only if it was given one: [cm_],
    [allocator_] and [controls_] by the [make_unique] that precedes
    [cm_->start], [allocate] and the building of the control list,
    [camera_] and [config_] by a [get] and a [generateConfiguration]
    that gave something.  [mmap_buffers_] holds plain pointers: its
    destruction unmaps nothing.  Locals that only refer to objects owned
    elsewhere (the [cameras] of [init_camera_manager], the planes) are
    left out.  What the vendor library's destructors do in turn is not
    part of the sources. *)
Definition unwinding (h : camera_handler_t) (tr : list init_event)
  : list init_event :=
  let owned (o : object) (made : init_event -> bool) :=
    if existsb made tr then [IvDestroyed o] else [] in
  match local_request tr with
  | Some req_cookie => [IvDestroyed (ObjRequest req_cookie)]
  | None => []
  end
  ++ match requests_ h with
     | [] => []
     | rs => [IvDestroyed (ObjRequests (map cookie rs))]
     end
  ++ owned ObjControls is_controls
  ++ owned ObjAllocator is_allocate
  ++ owned ObjConfiguration is_generated
  ++ owned ObjCamera is_got
  ++ owned ObjManager is_cm_start.

(** [camera_handler_t::camera_handler_t]: the body, and the unwinding
    should one of its calls throw. *)
Definition construct (cfg : config) (e : vendor_env) : init_result :=
  match constructor_body cfg e with
  | IThrow err h tr => IThrow err h (tr ++ unwinding h tr)
  | r => r
  end.

(** The objects destroyed, in order. *)
Fixpoint destroyed (tr : list init_event) : list object :=
  match tr with
  | [] => []
  | IvDestroyed o :: tr' => o :: destroyed tr'
  | _ :: tr' => destroyed tr'
  end.

(** Place of an object in the order of unwinding: the local first, then
    the members from the last declared to the first. *)
Definition unwind_rank (o : object) : nat :=
  match o with
  | ObjRequest _ => 0
  | ObjRequests _ => 1
  | ObjControls => 2
  | ObjAllocator => 3
  | ObjConfiguration => 4
  | ObjCamera => 5
  | ObjManager => 6
  end.

(** The answers of the [camera_->start] calls made. *)
Fixpoint camera_starts (tr : list init_event) : list Z :=
  match tr with
  | [] => []
  | IvCameraStart ret :: tr' => ret :: camera_starts tr'
  | _ :: tr' => camera_starts tr'
  end.

(** Calls that give something back: none of them is made while the
    handler is constructed. *)
Definition releasing (ev : init_event) : Prop :=
  match ev with
  | IvCameraStop | IvMunmap _ _ | IvAllocatorFree | IvCameraRelease
  | IvCmStop => True
  | _ => False
  end.

(** Calls of a set-up step before the callback is connected and the
    camera started: nothing is started, given back or connected. *)
Definition quiet (new : list init_event) : Prop :=
  camera_starts new = []
  /\ Forall (fun ev => ~ releasing ev) new
  /\ ~ callback_connected new.

(** Every answer of the manager and of the configuration is good. *)
Definition manager_ok (e : manager_env) : Prop :=
  0 <= cm_start_ret e /\ camera_ids e <> [] /\ get_ok e = true
  /\ 0 <= acquire_ret e.

Definition configuration_ok (e : config_env) : Prop :=
  generate_ok e = true /\ validate_1 e <> Invalid /\ validate_2 e <> Adjusted
  /\ 0 <= configure_ret e.

(** *** Sample set-up *)

Definition sample_buffer (frame_bytes : Z) (data : ptr) : buffer_env :=
  {| planes := [mk_plane (expected_y_plane_bytes frame_bytes) 7 0;
                mk_plane (expected_u_plane_bytes frame_bytes) 7 0;
                mk_plane (expected_u_plane_bytes frame_bytes) 7 0];
     create_ok := true; add_buffer_ret := 0;
     mmap_ret := Some data; mmap_errno := 0 |}.

Definition fresh_handler (frame_bytes n : Z) : camera_handler_t :=
  {| requests_ := []; mmap_buffers_ := []; next_req_idx_ := 0;
     frame_bytes_ := frame_bytes; dma_frame_buffers_ := n |}.

Definition sample_vendor (frame_bytes : Z) (start : Z) : vendor_env :=
  {| manager := mk_manager_env 0 ["imx708"%string] true 0;
     configuration := mk_config_env true Valid Valid 0;
     allocate_ret := 2;
     buffers := [sample_buffer frame_bytes 4096; sample_buffer frame_bytes 8192];
     start_ret := start |}.

(** How the handler and the trace stand after [n] buffers, mapped at
    [datas], have been set up starting with cookie [c]. *)
Definition after_buffers (c : Z) (n : nat) (datas : list ptr)
    (h : camera_handler_t) (tr : list init_event)
    (h' : camera_handler_t) (tr' : list init_event) : Prop :=
  length datas = n
  /\ requests_ h'
     = requests_ h ++ map (fun i => mk_Request i RequestPending) (seqZ c (Z.of_nat n))
  /\ mmap_buffers_ h' = mmap_buffers_ h ++ datas
  /\ next_req_idx_ h' = next_req_idx_ h
  /\ frame_bytes_ h' = frame_bytes_ h
  /\ dma_frame_buffers_ h' = dma_frame_buffers_ h
  /\ mapped tr' = mapped tr ++ map (fun d => (d, to_size_t (frame_bytes_ h))) datas
  /\ unmapped tr' = unmapped tr
  /\ requests_created tr' = (requests_created tr + n)%nat
  /\ (callback_connected tr' -> callback_connected tr).

End CameraInit.

(** ** Camera node: start-up in [main.cpp] *)

Module Startup.

Import CameraNode.

(** What the kernel answers to one call: the return value, and the
    [errno] it sets should the call fail. *)
Record sys_ret := mk_sys_ret { sret : Z; serrno : Z }.

Inductive handler_id := CaptureHandler | DisconnectHandler.

(** Calls made while starting up, in call order. *)
Inductive sys_event :=
| SvLog (msg : string)                       (* logger->log(ERROR, ..) *)
| SvSetaffinity (cpu ret : Z)                (* sched_setaffinity *)
| SvGetPriorityMax (ret : Z)                 (* sched_get_priority_max *)
| SvSetscheduler (priority ret : Z)          (* sched_setscheduler *)
| SvTimerCreate (ret : Z)
| SvTimerSettime (sec nsec : Z)
| SvSigaction (signo : Z) (handler : handler_id) (ret : Z)
| SvOpen (ret : Z)                           (* open("/proc/gpio_interrupt_pid") *)
| SvDprintf (fd pid ret : Z)
| SvClose (fd ret : Z).

(** The process together with the start-up calls made so far.  The
    calls of [init_network] are in the process's own trace. *)
Record boot := mk_boot { proc : process; sys : list sys_event }.

Definition sys_emit (e : sys_event) (b : boot) : boot :=
  {| proc := proc b; sys := sys b ++ [e] |}.

Definition sys_log (msg : string) (b : boot) : boot := sys_emit (SvLog msg) b.

(** A call that failed leaves its error number in [errno]. *)
Definition fail_errno (r : sys_ret) (b : boot) : boot :=
  {| proc := set_errno (serrno r) (proc b); sys := sys b |}.

Record sched_env := mk_sched_env {
  setaffinity : sys_ret;
  priority_max : Z;
  setscheduler : sys_ret
}.

Definition init_realtime_scheduling (recording_cpu : Z) (e : sched_env)
    (b : boot) : Z * boot :=
  let b := sys_emit (SvSetaffinity recording_cpu (sret (setaffinity e))) b in
  if sret (setaffinity e) <? 0 then
    let b := fail_errno (setaffinity e) b in
    let b := sys_log "Failed to set CPU affinity" b in
    (- errno (proc b), b)
  else
    let b := sys_emit (SvGetPriorityMax (priority_max e)) b in
    let b := sys_emit (SvSetscheduler (priority_max e) (sret (setscheduler e))) b in
    if sret (setscheduler e) <? 0 then
      let b := fail_errno (setscheduler e) b in
      let b := sys_log "Failed to set real-time scheduling policy" b in
      (- errno (proc b), b)
    else (0, b).

Definition init_timer (e : sys_ret) (b : boot) : Z * boot :=
  let b := sys_emit (SvTimerCreate (sret e)) b in
  if sret e =? -1 then
    let b := fail_errno e b in
    let b := sys_log "Failed to create socket disconnect timer" b in
    (- errno (proc b), b)
  else (0, b).

(** [arm_timer]: a one-shot 0.3 s timer; the result of [timer_settime]
    is not looked at. *)
Definition arm_timer (b : boot) : boot :=
  sys_emit (SvTimerSettime 0 300000000) b.

Record signals_env := mk_signals_env {
  sa_usr1 : sys_ret;
  sa_int : sys_ret;
  sa_term : sys_ret;
  sa_usr2 : sys_ret
}.

(** One [sigaction(..) < 0] operand of the [||] chain: the boot state
    after the call and whether the operand is true. *)
Definition try_sigaction (signo : Z) (hd : handler_id) (r : sys_ret) (b : boot)
  : bool * boot :=
  let b := sys_emit (SvSigaction signo hd (sret r)) b in
  if sret r <? 0 then (true, fail_errno r b) else (false, b).

Definition init_signals (e : signals_env) (b : boot) : Z * boot :=
  let failed (b : boot) : Z * boot :=
    let b := sys_log "Failed to set signal handlers" b in
    (- errno (proc b), b) in
  let '(f, b) := try_sigaction SIGUSR1 CaptureHandler (sa_usr1 e) b in
  if f then failed b else
  let '(f, b) := try_sigaction SIGINT CaptureHandler (sa_int e) b in
  if f then failed b else
  let '(f, b) := try_sigaction SIGTERM CaptureHandler (sa_term e) b in
  if f then failed b else
  let '(f, b) := try_sigaction SIGUSR2 DisconnectHandler (sa_usr2 e) b in
  if f then failed b else (0, b).

Record kernel_env := mk_kernel_env {
  open_ret : sys_ret;
  pid : Z;
  dprintf_ret : sys_ret;
  close_ret : sys_ret
}.

Definition sys_close (fd : Z) (r : sys_ret) (b : boot) : boot :=
  let b := sys_emit (SvClose fd (sret r)) b in
  if sret r <? 0 then fail_errno r b else b.

Definition register_with_kernel (e : kernel_env) (b : boot) : Z * boot :=
  let fd := sret (open_ret e) in
  let b := sys_emit (SvOpen fd) b in
  if fd <? 0 then
    let b := fail_errno (open_ret e) b in
    let b := sys_log "Failed to open /proc/gpio_interrupt_pid" b in
    (- errno (proc b), b)
  else
    let b := sys_emit (SvDprintf fd (pid e) (sret (dprintf_ret e))) b in
    if sret (dprintf_ret e) <? 0 then
      let b := fail_errno (dprintf_ret e) b in
      let b := sys_log "Failed to write to /proc/gpio_interrupt_pid" b in
      let b := sys_close fd (close_ret e) b in
      (- errno (proc b), b)
    else
      let b := sys_close fd (close_ret e) b in
      (0, b).

(** [std::stoi(port)]: the number read from the configured PORT, or the
    exception it throws when the text holds no number or one that does
    not fit an [int] ([what] is the text of [e.what()]). *)
Inductive stoi_result :=
| Parsed (value : Z)
| Threw (what : string).

(** [init_network] as [main] calls it at start-up, with the conversion
    of [port] that stands between [socket] and [connect]: [inl ret] when
    the function returns [ret], [inr what] when the exception of
    [std::stoi] leaves it. *)
Definition init_network_port (port : stoi_result) (e : net_env) (p : process)
  : (Z + string) * process :=
  let p := emit (EvSocket (socket_ret e)) (set_sockfd (socket_ret e) p) in
  if sockfd p <? 0 then
    let p := set_errno (socket_errno e) p in
    let p := log ERROR "Failed to create socket" p in
    (inl (- errno p), p)
  else
    match port with
    | Threw what => (inr what, p)
    | Parsed _ =>
        let p := emit (EvConnect (sockfd p) (connect_ret e)) p in
        if connect_ret e <? 0 then
          let p := set_errno (connect_errno e) p in
          let p := log ERROR "Failed to connect to server" p in
          (inl (- errno p), p)
        else (inl 0, p)
    end.

(** Everything the kernel and the configuration answer during
    start-up. *)
Record startup_env := mk_startup_env {
  sched : sched_env;
  network : net_env;
  port : stoi_result;
  timer : sys_ret;
  signals : signals_env;
  kernel : kernel_env
}.

(** How [main] leaves its start-up section: by returning [code], or by
    entering the streaming loop. *)
Inductive startup_result :=
| Exited (code : Z) (b : boot)
| Streaming (b : boot).

(** The five start-up calls of [main] and [running = 1].  An exception
    thrown on the way is caught by the handler at the end of [main],
    which logs [e.what()] (the logger exists by then) and returns 1. *)
Definition main_startup (recording_cpu : Z) (e : startup_env) (b : boot)
  : startup_result :=
  let '(ret, b) := init_realtime_scheduling recording_cpu (sched e) b in
  if ret <? 0 then Exited ret b else
  match init_network_port (port e) (network e) (proc b) with
  | (inr what, p) => Exited 1 (sys_log what {| proc := p; sys := sys b |})
  | (inl ret, p) =>
  let b := {| proc := p; sys := sys b |} in
  if ret <? 0 then Exited ret b else
  let '(ret, b) := init_timer (timer e) b in
  if ret <? 0 then Exited ret b else
  let '(ret, b) := init_signals (signals e) b in
  if ret <? 0 then Exited ret b else
  let '(ret, b) := register_with_kernel (kernel e) b in
  if ret <? 0 then Exited ret b else
  Streaming {| proc := set_running 1 (proc b); sys := sys b |}
  end.

(** *** Reading start-up traces *)

(** Descriptors opened and not closed again, oldest first. *)
Fixpoint open_fds (tr : list sys_event) (acc : list Z) : list Z :=
  match tr with
  | [] => acc
  | SvOpen fd :: tr' => open_fds tr' (if fd <? 0 then acc else acc ++ [fd])
  | SvClose fd _ :: tr' => open_fds tr' (List.filter (fun x => negb (x =? fd)) acc)
  | _ :: tr' => open_fds tr' acc
  end.

(** Number of [sigaction] calls. *)
Fixpoint sigactions (tr : list sys_event) : nat :=
  match tr with
  | [] => 0%nat
  | SvSigaction _ _ _ :: tr' => S (sigactions tr')
  | _ :: tr' => sigactions tr'
  end.

(** Number of writes of the PID to the kernel driver. *)
Fixpoint registrations (tr : list sys_event) : nat :=
  match tr with
  | [] => 0%nat
  | SvDprintf _ _ _ :: tr' => S (registrations tr')
  | _ :: tr' => registrations tr'
  end.

(** Number of [timer_create] calls. *)
Fixpoint timers_created (tr : list sys_event) : nat :=
  match tr with
  | [] => 0%nat
  | SvTimerCreate _ :: tr' => S (timers_created tr')
  | _ :: tr' => timers_created tr'
  end.

(** Number of [socket] calls in a process trace. *)
Fixpoint sockets_made (tr : list event) : nat :=
  match tr with
  | [] => 0%nat
  | EvSocket _ :: tr' => S (sockets_made tr')
  | _ :: tr' => sockets_made tr'
  end.

(** Number of [close] calls in a process trace. *)
Fixpoint closes (tr : list event) : nat :=
  match tr with
  | [] => 0%nat
  | EvClose _ :: tr' => S (closes tr')
  | _ :: tr' => closes tr'
  end.

(** Number of [connect] calls in a process trace. *)
Fixpoint connects (tr : list event) : nat :=
  match tr with
  | [] => 0%nat
  | EvConnect _ _ :: tr' => S (connects tr')
  | _ :: tr' => connects tr'
  end.

(** Lines logged during start-up, oldest first. *)
Fixpoint logged (tr : list sys_event) : list string :=
  match tr with
  | [] => []
  | SvLog msg :: tr' => msg :: logged tr'
  | _ :: tr' => logged tr'
  end.

(** Every step of start-up succeeds. *)
Definition sched_ok (e : sched_env) : Prop :=
  0 <= sret (setaffinity e) /\ 0 <= sret (setscheduler e).
Definition network_ok (e : net_env) : Prop :=
  0 <= socket_ret e /\ 0 <= connect_ret e.
Definition port_ok (r : stoi_result) : Prop := exists value, r = Parsed value.
Definition timer_ok (e : sys_ret) : Prop := sret e <> -1.
Definition signals_ok (e : signals_env) : Prop :=
  0 <= sret (sa_usr1 e) /\ 0 <= sret (sa_int e)
  /\ 0 <= sret (sa_term e) /\ 0 <= sret (sa_usr2 e).
Definition kernel_ok (e : kernel_env) : Prop :=
  0 <= sret (open_ret e) /\ 0 <= sret (dprintf_ret e).

(** POSIX: a failing call sets [errno] to a positive error number. *)
Definition posix_ret (r : sys_ret) : Prop := 0 < serrno r.
Definition posix_startup (e : startup_env) : Prop :=
  posix_ret (setaffinity (sched e)) /\ posix_ret (setscheduler (sched e))
  /\ 0 < socket_errno (network e) /\ 0 < connect_errno (network e)
  /\ posix_ret (timer e)
  /\ posix_ret (sa_usr1 (signals e)) /\ posix_ret (sa_int (signals e))
  /\ posix_ret (sa_term (signals e)) /\ posix_ret (sa_usr2 (signals e))
  /\ posix_ret (open_ret (kernel e)) /\ posix_ret (dprintf_ret (kernel e))
  /\ posix_ret (close_ret (kernel e)).

(** *** Sample answers *)

Definition ok_ret (v : Z) : sys_ret := mk_sys_ret v 1.
Definition bad_ret (err : Z) : sys_ret := mk_sys_ret (-1) err.

Definition sample_startup_port (connect : Z) (port : stoi_result)
  : startup_env :=
  {| sched := mk_sched_env (ok_ret 0) 99 (ok_ret 0);
     network := mk_net_env 5 1 connect 111;
     port := port;
     timer := ok_ret 0;
     signals := mk_signals_env (ok_ret 0) (ok_ret 0) (ok_ret 0) (ok_ret 0);
     kernel := mk_kernel_env (ok_ret 6) 4242 (ok_ret 4) (ok_ret 0) |}.

Definition sample_startup (connect : Z) : startup_env :=
  sample_startup_port connect (Parsed 8080).

Definition sample_boot : boot :=
  {| proc := {| running := 0; sockfd := -1; errno := 0;
                queue_counter := mk_sem 0 false; frame_queue := [];
                cam := sample_handler; trace := [] |};
     sys := [] |}.

End Startup.

(** ** Camera node: signals and packets at run time *)

Module CameraRun.

Import CameraNode.

(** The signals [init_signals] installs a handler for. *)
Definition installed (signo : Z) : bool :=
  (signo =? SIGUSR1) || (signo =? SIGINT) || (signo =? SIGTERM)
  || (signo =? SIGUSR2).

(** Delivery of [signo] once [init_signals] has run: SIGUSR2 goes to
    [socket_disconnect_handler], the other three installed signals to
    [capture_signal_handler]. *)
Definition deliver (signo vendor_ret : Z) (p : process) : result :=
  if signo =? SIGUSR2 then Ok (socket_disconnect_handler signo p)
  else capture_signal_handler signo vendor_ret p.

(** Signals delivered one after the other, each with the vendor
    library's answer should it lead to a submission; an exception that
    leaves a handler ends the run. *)
Fixpoint deliver_all (sigs : list (Z * Z)) (p : process) : result :=
  match sigs with
  | [] => Ok p
  | (signo, vendor_ret) :: sigs' =>
      match deliver signo vendor_ret p with
      | Ok p' => deliver_all sigs' p'
      | r => r
      end
  end.

Definition is_shutdown (signo : Z) : bool :=
  (signo =? SIGINT) || (signo =? SIGTERM).

(** Number of shutdown signals among [sigs]. *)
Fixpoint shutdowns (sigs : list (Z * Z)) : nat :=
  match sigs with
  | [] => 0%nat
  | (signo, _) :: sigs' =>
      if is_shutdown signo then S (shutdowns sigs') else shutdowns sigs'
  end.

(** Number of [sem_destroy] calls. *)
Fixpoint sem_destroys (tr : list event) : nat :=
  match tr with
  | [] => 0%nat
  | EvSemDestroy :: tr' => S (sem_destroys tr')
  | _ :: tr' => sem_destroys tr'
  end.

(** Number of [close] calls. *)
Fixpoint close_calls (tr : list event) : nat :=
  match tr with
  | [] => 0%nat
  | EvClose _ :: tr' => S (close_calls tr')
  | _ :: tr' => close_calls tr'
  end.

(** Number of [socket] and [connect] calls. *)
Fixpoint connection_calls (tr : list event) : nat :=
  match tr with
  | [] => 0%nat
  | EvSocket _ :: tr' => S (connection_calls tr')
  | EvConnect _ _ :: tr' => S (connection_calls tr')
  | _ :: tr' => connection_calls tr'
  end.

(** Every [write] of [tr] is made on descriptor [fd]. *)
Definition writes_on (fd : Z) (tr : list event) : Prop :=
  Forall (fun ev => match ev with
                    | EvWrite fd' _ _ _ _ => fd' = fd
                    | _ => True
                    end) tr.

(** A pass of the write loop that cannot end the call with an error: the
    connection can be made, and the [write] takes at least one byte or is
    interrupted. *)
Definition pass_ok (e : io_env) : Prop :=
  0 <= socket_ret (net e) /\ 0 <= connect_ret (net e)
  /\ (1 <= write_ret e \/ (write_ret e < 0 /\ write_errno e = EINTR)).

(** Passes whose [write] takes at least one byte. *)
Fixpoint taking_passes (env : list io_env) : Z :=
  match env with
  | [] => 0
  | e :: env' => (if 1 <=? write_ret e then 1 else 0) + taking_passes env'
  end.

(** *** What goes on while [main] is in its loop *)

(** One action of [stream_pkt], with the [init_network] it calls.  A
    signal handler can run between any two of them, so each is a step of
    its own; [err] is the [errno] of a call that fails. *)
Inductive pkt_action :=
| PktSocket (ret err : Z)             (* sockfd = socket(..) *)
| PktConnect (ret err : Z)            (* connect(sockfd, ..) *)
| PktWrite (off count ret err : Z)    (* write(sockfd, data + off, count) *)
| PktLog (lvl : level_t) (msg : string).

Definition perform (a : pkt_action) (p : process) : process :=
  match a with
  | PktSocket ret err =>
      let p := emit (EvSocket ret) (set_sockfd ret p) in
      if ret <? 0 then set_errno err p else p
  | PktConnect ret err =>
      let p := emit (EvConnect (sockfd p) ret) p in
      if ret <? 0 then set_errno err p else p
  | PktWrite off count ret err =>
      let p := if ret <? 0 then set_errno err p else p in
      emit (EvWrite (sockfd p) off count ret err) p
  | PktLog lvl msg => log lvl msg p
  end.

Definition perform_all (acts : list pkt_action) (p : process) : process :=
  fold_left (fun p a => perform a p) acts p.

(** [sem_wait]: takes one unit of the count.  With the count at 0 the
    caller blocks ([None]), unless a signal handler interrupts the wait:
    the call then fails with EINTR and leaves the count alone (the
    handlers are installed without SA_RESTART). *)
Definition sem_wait (interrupted : bool) (s : sem_t) : option sem_t :=
  if 0 <? sem_value s
  then Some {| sem_value := sem_value s - 1; sem_destroyed := sem_destroyed s |}
  else if interrupted then Some s
  else None.

(** What can happen next in the process once [main] has stored 1 in
    [running] and entered its loop.  An installed signal is delivered
    and its handler runs to its end; the main thread takes a step of its
    loop, or of the [stream_pkt] that [encode_frame] calls back; the
    vendor library's thread runs [request_complete].

    POSIX leaves [sem_wait] and [sem_post] on a destroyed semaphore
    undefined; here they act on its count as on a live one, and nothing
    stated about runs that contain them depends on the count.

    Modelled from the spec: [lock_free_queue.h] is not among the
    sources; [dequeue] takes the oldest pointer of the queue, if any. *)
Inductive activity :=
| Signal (signo vendor_ret : Z)
| Packet (a : pkt_action)
| Completion (request : nat)
| Wait (interrupted : bool)           (* sem_wait(&queue_counter) *)
| Dequeue.                            (* frame_queue.dequeue() *)

Definition act (a : activity) (p : process) : result :=
  match a with
  | Signal signo vendor_ret => deliver signo vendor_ret p
  | Packet a => Ok (perform a p)
  | Completion request =>
      match request_complete request p with
      | Some p' => Ok p'
      | None => Undefined
      end
  | Wait interrupted =>
      match sem_wait interrupted (queue_counter p) with
      | Some s => Ok (set_queue_counter s p)
      | None => Ok p
      end
  | Dequeue => Ok (set_frame_queue (tl (frame_queue p)) p)
  end.

(** Activities one after the other; an exception that leaves a handler,
    or undefined behaviour, ends the run. *)
Fixpoint act_all (acts : list activity) (p : process) : result :=
  match acts with
  | [] => Ok p
  | a :: acts' =>
      match act a p with
      | Ok p' => act_all acts' p'
      | r => r
      end
  end.

(** The signals among [acts] have a handler installed. *)
Definition installed_signal (a : activity) : Prop :=
  match a with
  | Signal signo _ => installed signo = true
  | _ => True
  end.

(** Number of shutdown signals among [acts]. *)
Fixpoint shutdown_signals (acts : list activity) : nat :=
  match acts with
  | [] => 0%nat
  | Signal signo _ :: acts' =>
      if is_shutdown signo then S (shutdown_signals acts')
      else shutdown_signals acts'
  | _ :: acts' => shutdown_signals acts'
  end.

(** Number of [socket] calls that gave a descriptor. *)
Fixpoint opened (tr : list event) : nat :=
  match tr with
  | [] => 0%nat
  | EvSocket ret :: tr' => if ret <? 0 then opened tr' else S (opened tr')
  | _ :: tr' => opened tr'
  end.

(** 1 when [fd] is a descriptor, 0 when it is negative. *)
Definition is_open (fd : Z) : nat := if fd >=? 0 then 1%nat else 0%nat.

End CameraRun.

(** ** Stream server: the shape of a run *)

Module StreamPhases.

Import StreamServer.

(** What the [if (new_frame)] block appends to the trace, with the way
    it leaves the pass. *)
Inductive stage_step : loop_ctrl -> list event -> Prop :=
| stage_again : stage_step Continue [EvRecvFrame EAGAIN]
| stage_eof :
    stage_step Break [EvRecvFrame ENODATA; EvLog INFO "Recvd EOF from decoder"]
| stage_error r :
    r <> 0 -> r <> EAGAIN -> r <> ENODATA -> stage_step Break [EvRecvFrame r]
| stage_frame ts :
    stage_step Continue [EvRecvFrame 0; EvLog INFO "Recvd frame from decoder";
                         EvDequeue ts; EvLog INFO "Dequeued timestamp"].

(** What one pass of the loop appends to the trace:
    [pass_step buf_size inc c inc' new] for a pass entered with
    [incoming_stream = inc] that leaves by [c] with
    [incoming_stream = inc']. *)
Inductive pass_step (buf_size : Z)
  : bool -> loop_ctrl -> bool -> list event -> Prop :=
| pass_drain c evs :
    stage_step c evs -> pass_step buf_size false c false evs
| pass_bad_timestamp k :
    k <> 8 ->
    pass_step buf_size true Break true
      [EvRecv 8 k; EvLog ERROR "Received unexpected timestamp size"]
| pass_sentinel r :
    pass_step buf_size true Continue false
      [EvRecv 8 8; EvLog INFO "Received end of stream signal"; EvFlush r]
| pass_enqueue_failed ts r :
    r <> 0 ->
    pass_step buf_size true Break true [EvRecv 8 8; EvEnqueue ts r]
| pass_bad_size ts k :
    k <> 4 ->
    pass_step buf_size true Break true
      [EvRecv 8 8; EvEnqueue ts 0; EvRecv 4 k;
       EvLog ERROR "Received unexpected frame size buffer"]
| pass_oversized ts :
    pass_step buf_size true Break true
      [EvRecv 8 8; EvEnqueue ts 0; EvRecv 4 4;
       EvLog ERROR "Received frame size that is larger than the allocated buffer"]
| pass_short ts n k :
    0 <= n <= buf_size -> k <> n ->
    pass_step buf_size true Break true
      [EvRecv 8 8; EvEnqueue ts 0; EvRecv 4 4; EvRecv n k;
       EvLog ERROR "Received unexpected frame size"]
| pass_decode_failed ts frame r :
    Z.of_nat (length frame) <= buf_size -> r <> 0 ->
    pass_step buf_size true Break true
      [EvRecv 8 8; EvEnqueue ts 0; EvRecv 4 4;
       EvRecv (Z.of_nat (length frame)) (Z.of_nat (length frame));
       EvLog INFO "Received frame"; EvDecode frame r]
| pass_packet ts frame c evs :
    Z.of_nat (length frame) <= buf_size -> stage_step c evs ->
    pass_step buf_size true c true
      ([EvRecv 8 8; EvEnqueue ts 0; EvRecv 4 4;
        EvRecv (Z.of_nat (length frame)) (Z.of_nat (length frame));
        EvLog INFO "Received frame"; EvDecode frame 0] ++ evs).

(** A frame handed to [decode_packet] fits the buffer it was read
    into. *)
Definition frame_fits (buf_size : Z) (ev : event) : Prop :=
  match ev with
  | EvDecode frame _ => Z.of_nat (length frame) <= buf_size
  | _ => True
  end.

(** The reads of a packet fill, in turn, [timestamp], [frame_size] and
    [enc_frame_buf]; [slot] tells which of the three the next read
    fills. *)
Definition next_slot (slot : nat) : nat :=
  match slot with
  | 0%nat => 1%nat
  | 1%nat => 2%nat
  | _ => 0%nat
  end.

(** No read of [tr] asks for more than the variable it fills can hold:
    8 bytes for the timestamp, 4 for the size, and between 0 and
    [buf_size] for the payload. *)
Fixpoint reads_fit (buf_size : Z) (slot : nat) (tr : list event) : Prop :=
  match tr with
  | [] => True
  | EvRecv n _ :: tr' =>
      match slot with
      | 0%nat => n = 8
      | 1%nat => n = 4
      | _ => 0 <= n <= buf_size
      end /\ reads_fit buf_size (next_slot slot) tr'
  | _ :: tr' => reads_fit buf_size slot tr'
  end.

(** The slot the read after [tr] fills. *)
Fixpoint slot_after (slot : nat) (tr : list event) : nat :=
  match tr with
  | [] => slot
  | EvRecv _ _ :: tr' => slot_after (next_slot slot) tr'
  | _ :: tr' => slot_after slot tr'
  end.

(** What holds of the trace at the end of a pass that leaves by [c]
    with [incoming_stream = b]: the reads and the frames fit, and while
    packets are coming the next read is that of a timestamp. *)
Definition fits_inv (buf_size : Z) (b : bool) (c : loop_ctrl)
    (tr : list event) : Prop :=
  Forall (frame_fits buf_size) tr
  /\ reads_fit buf_size 0 tr
  /\ (c = Continue -> b = true -> slot_after 0 tr = 0%nat).

Definition no_flush (ev : event) : Prop :=
  match ev with EvFlush _ => False | _ => True end.

(** The calls of the draining phase. *)
Definition drain_event (ev : event) : Prop :=
  match ev with
  | EvRecvFrame _ | EvDequeue _ | EvLog _ _ => True
  | _ => False
  end.

(** A read in the timestamp slot that delivers the sentinel. *)
Definition delivers_sentinel (r : recv_result) : Prop :=
  match r with
  | Recvd data => take 8 data = EOSTREAM
  | RecvErr => False
  end.

(** While packets are coming, [flush_decoder] has not been called;
    once the sentinel has been seen, it has been called once, and only
    calls of the draining phase follow it. *)
Definition phase_inv (b : bool) (tr : list event) : Prop :=
  if b then Forall no_flush tr
  else exists pre r post,
      tr = pre ++ EvFlush r :: post
      /\ Forall no_flush pre /\ Forall drain_event post.

(** The counts of the streaming phase. *)
Definition streaming_inv (b : bool) (c : loop_ctrl) (tr : list event) : Prop :=
  b = true ->
  timestamps_dequeued tr = frames_emitted tr
  /\ frames_emitted tr <= frame_polls tr <= packets_received tr
  /\ packets_received tr <= timestamps_enqueued tr <= packets_received tr + 1
  /\ (c = Continue ->
      frame_polls tr = packets_received tr
      /\ timestamps_enqueued tr = packets_received tr)
  /\ balanced tr.

End StreamPhases.

(** ** Stream server: set-up and the [cleanup] label *)

Module StreamSetup.

Import StreamServer.

Definition EIO : Z := 5.

(** What the environment answers while the thread sets up. *)
Record setup_env := mk_setup_env {
  malloc_ok : bool;              (* malloc returned a buffer *)
  setaffinity_ret : Z;
  setaffinity_errno : Z;
  init_queue_ret : Z;
  init_decoder_ret : Z;
  setup_stream_ret : Z;
  accept_conn_ret : Z
}.

(** A local of structure type as [cleanup] finds it: never handed to
    its initialiser, handed to an initialiser that failed, or
    initialised. *)
Inductive obj_state := Untouched | InitFailed | Ready.

(** Calls made outside the loop, in call order. *)
Inductive setup_event :=
| SeLog (lvl : level_t) (msg : string)
| SeMalloc (ok : bool)
| SeSetaffinity (core ret : Z)
| SeInitQueue (ret : Z)
| SeInitDecoder (ret : Z)
| SeSetupStream (ret : Z)
| SeAcceptConn (sockfd ret : Z)
| SeFree
| SeCleanupDecoder (st : obj_state)
| SeCleanupQueue (st : obj_state)
| SeClose (fd : Z).

(** [pin_to_core]: the value returned and the calls made. *)
Definition pin_to_core (core : Z) (e : setup_env) (tr : list setup_event)
  : Z * list setup_event :=
  let ret := setaffinity_ret e in
  let tr := tr ++ [SeSetaffinity core ret] in
  if ret =? -1 then
    (- setaffinity_errno e, tr ++ [SeLog ERROR "Error pinning thread"])
  else
    (ret, tr ++ [SeLog INFO "Successfuly pinned thread"]).

(** The locals of [stream_mgr] that the [cleanup] label uses.  The two
    descriptors are declared with their initialisers after the first
    [goto cleanup]: [None] stands for a descriptor that has not been
    assigned when the label is reached. *)
Record locals := mk_locals {
  l_ret : Z;
  enc_frame_buf : bool;            (* non-null *)
  timestamp_queue_st : obj_state;
  viddec_st : obj_state;
  l_sockfd : option Z;
  l_clientfd : option Z
}.

(** How set-up ends: in the loop, with both descriptors, or at the
    [cleanup] label. *)
Inductive setup_outcome :=
| Entered (sockfd clientfd : Z) (tr : list setup_event)
| ToCleanup (l : locals) (tr : list setup_event).

Definition init_state (ret : Z) : obj_state :=
  if ret =? 0 then Ready else InitFailed.

(** [stream_mgr] up to the loop. *)
Definition setup (core : Z) (e : setup_env) : setup_outcome :=
  let tr := [SeMalloc (malloc_ok e)] in
  if negb (malloc_ok e) then
    ToCleanup (mk_locals 0 false Untouched Untouched None None)
      (tr ++ [SeLog ERROR "Failed to allocate encoded frame buffer in a thread"])
  else
    let '(ret, tr) := pin_to_core core e tr in
    if negb (ret =? 0) then
      ToCleanup (mk_locals ret true Untouched Untouched None None) tr
    else
      let ret := init_queue_ret e in
      let tr := tr ++ [SeInitQueue ret] in
      if negb (ret =? 0) then
        ToCleanup (mk_locals ret true InitFailed Untouched None None) tr
      else
        let ret := init_decoder_ret e in
        let tr := tr ++ [SeInitDecoder ret] in
        if negb (ret =? 0) then
          ToCleanup (mk_locals ret true Ready InitFailed None None) tr
        else
          let sockfd := setup_stream_ret e in
          let tr := tr ++ [SeSetupStream sockfd] in
          if sockfd <? 0 then
            ToCleanup (mk_locals (- EIO) true Ready Ready (Some sockfd) None) tr
          else
            let clientfd := accept_conn_ret e in
            let tr := tr ++ [SeAcceptConn sockfd clientfd] in
            if clientfd <? 0 then
              ToCleanup (mk_locals (- EIO) true Ready Ready (Some sockfd)
                           (Some clientfd)) tr
            else Entered sockfd clientfd tr.

(** How the [cleanup] label ends when reached from set-up: normally, or
    by reading a descriptor that was never assigned. *)
Inductive cleanup_outcome :=
| Cleaned (tr : list setup_event)
| ReadsUnassigned (var : string) (tr : list setup_event).

(** The [cleanup] label, reached by a [goto] of the set-up code. *)
Definition cleanup_locals (l : locals) (tr : list setup_event)
  : cleanup_outcome :=
  let tr := if enc_frame_buf l then tr ++ [SeFree] else tr in
  let tr := tr ++ [SeCleanupDecoder (viddec_st l)] in
  let tr := tr ++ [SeCleanupQueue (timestamp_queue_st l)] in
  match l_sockfd l with
  | None => ReadsUnassigned "sockfd" tr
  | Some fd =>
      let tr := if fd >=? 0 then tr ++ [SeClose fd] else tr in
      match l_clientfd l with
      | None => ReadsUnassigned "clientfd" tr
      | Some cfd => Cleaned (if cfd >=? 0 then tr ++ [SeClose cfd] else tr)
      end
  end.

(** The buffer, the pinning and the queue are in place. *)
Definition queue_ready (e : setup_env) : Prop :=
  malloc_ok e = true /\ setaffinity_ret e = 0 /\ init_queue_ret e = 0.

(** The decoder is in place as well. *)
Definition decoder_ready (e : setup_env) : Prop :=
  queue_ready e /\ init_decoder_ret e = 0.

(** The steps before [accept_conn] all succeed. *)
Definition listening (e : setup_env) : Prop :=
  decoder_ready e /\ 0 <= setup_stream_ret e.

(** Calls of the loop that release something. *)
Definition releases (ev : event) : Prop :=
  match ev with
  | EvFree | EvCleanupDecoder | EvCleanupQueue | EvClose _ => True
  | _ => False
  end.

Definition sample_setup (accept : Z) : setup_env :=
  mk_setup_env true 0 1 0 0 3 accept.

End StreamSetup.

(** ** Camera node: triggers, completions and the main loop *)

Module Pipeline.

Import CameraNode Startup CameraRun.

(** Where the main thread stands in its loop.  A trigger or a step of
    the vendor library's thread can come between any two of its
    steps. *)
Inductive main_pc :=
| AtLoop                     (* at [while (running)] *)
| AtWait                     (* [arm_timer] done, at [sem_wait] *)
| AtDequeue                  (* [sem_wait] has returned, at [dequeue] *)
| Encoding (frame : ptr)     (* in [encode_frame] *)
| Left.                      (* out of the loop *)

(** Where the request submitted last stands. *)
Inductive camera_pc :=
| Idle                       (* none submitted yet, or the last completed *)
| Capturing (request : nat)  (* with the camera, which fills its buffer *)
| Posting (request : nat).   (* [request_complete] has enqueued the buffer
                                and not yet posted the semaphore *)

Record pipeline := mk_pipeline {
  node : boot;
  main_at : main_pc;
  camera_at : camera_pc
}.

Inductive outcome :=
| Running (st : pipeline)
| Stopped (st : pipeline)                        (* main has left its loop *)
| Thrown (e : runtime_error) (st : pipeline)     (* queue_request threw *)
| Overrun (st : pipeline)                        (* trigger before the last
                                                    request completed *)
| Crashed.                                       (* undefined behaviour *)

(** One step of the [while (running)] loop of [main].  A [sem_wait]
    that blocks leaves the thread where it is.  The value [sem_wait]
    returns is not looked at, so an interrupted wait goes on to
    [dequeue] all the same.

    Modelled from the spec: [lock_free_queue.h] and [videnc.h] are not
    among the sources.  [dequeue] gives the oldest pointer of the queue,
    or null when it is empty; the encoder works on the frame it is given
    until [encode_frame] returns. *)
Definition main_step (interrupted : bool) (st : pipeline) : outcome :=
  let b := node st in
  let p := proc b in
  match main_at st with
  | AtLoop =>
      if running p =? 0 then Stopped (mk_pipeline b Left (camera_at st))
      else Running (mk_pipeline (arm_timer b) AtWait (camera_at st))
  | AtWait =>
      match sem_wait interrupted (queue_counter p) with
      | None => Running st
      | Some s =>
          Running (mk_pipeline {| proc := set_queue_counter s p; sys := sys b |}
                     AtDequeue (camera_at st))
      end
  | AtDequeue =>
      match frame_queue p with
      | [] => Running (mk_pipeline b AtLoop (camera_at st))
      | frame :: rest =>
          Running (mk_pipeline
                     {| proc := set_frame_queue rest p; sys := sys b |}
                     (Encoding frame) (camera_at st))
      end
  | Encoding _ => Running (mk_pipeline b AtLoop (camera_at st))
  | Left => Stopped st
  end.

(** [request_complete] up to and including [enqueue]: [false] when the
    request was cancelled and the method has returned, [true] when the
    buffer is in the queue and [sem_post] comes next. *)
Definition complete_enqueue (request : nat) (p : process)
  : option (bool * process) :=
  let h := cam p in
  match requests_ h !! request with
  | None => None
  | Some req =>
      if req_status_eqb (status req) RequestCancelled then Some (false, p)
      else
        let p := log INFO "Request completed" p in
        match vec_at (mmap_buffers_ h) (cookie req) with
        | None => None
        | Some data =>
            Some (true,
                  emit (EvEnqueue data)
                    (set_frame_queue (frame_queue p ++ [data]) p))
        end
  end.

(** The rest of [request_complete]: [sem_post] and [reuse]. *)
Definition complete_post (request : nat) (p : process) : option process :=
  let h := cam p in
  match requests_ h !! request with
  | None => None
  | Some req =>
      let p := emit EvSemPost
                 (set_queue_counter (sem_post (queue_counter p)) p) in
      Some (emit (EvReuse (cookie req))
              (set_cam (set_requests (<[request := reuse req]> (requests_ h)) h)
                 p))
  end.

(** A trigger: SIGUSR1 is delivered and [capture_signal_handler] runs.
    [vendor_ret] is the vendor library's answer to the submission.  The
    runs considered are those in which the camera keeps up: a trigger
    that comes before the request submitted last has completed ends the
    run with [Overrun]. *)
Definition trigger (vendor_ret : Z) (st : pipeline) : outcome :=
  let p := proc (node st) in
  match camera_at st with
  | Idle =>
      match capture_signal_handler SIGUSR1 vendor_ret p with
      | Ok p1 =>
          Running (mk_pipeline {| proc := p1; sys := sys (node st) |}
                     (main_at st)
                     (if running p =? 0 then Idle
                      else Capturing (Z.to_nat (next_req_idx_ (cam p)))))
      | Throw e p1 =>
          Thrown e (mk_pipeline {| proc := p1; sys := sys (node st) |}
                      (main_at st) Idle)
      | Undefined => Crashed
      end
  | _ => Overrun st
  end.

(** The vendor library's thread enters [request_complete] for the
    request the camera has filled. *)
Definition enqueue_step (st : pipeline) : outcome :=
  match camera_at st with
  | Capturing request =>
      match complete_enqueue request (proc (node st)) with
      | None => Crashed
      | Some (posting, p) =>
          Running (mk_pipeline {| proc := p; sys := sys (node st) |}
                     (main_at st)
                     (if posting then Posting request else Idle))
      end
  | _ => Running st
  end.

(** The vendor library's thread finishes [request_complete]. *)
Definition post_step (st : pipeline) : outcome :=
  match camera_at st with
  | Posting request =>
      match complete_post request (proc (node st)) with
      | None => Crashed
      | Some p =>
          Running (mk_pipeline {| proc := p; sys := sys (node st) |}
                     (main_at st) Idle)
      end
  | _ => Running st
  end.

Inductive op :=
| Trigger (vendor_ret : Z)
| Enqueue
| Post
| Main (interrupted : bool).

Definition step (o : op) (st : pipeline) : outcome :=
  match o with
  | Trigger vendor_ret => trigger vendor_ret st
  | Enqueue => enqueue_step st
  | Post => post_step st
  | Main interrupted => main_step interrupted st
  end.

(** Steps of the three parties in any order, one at a time, until one
    of them does not complete. *)
Fixpoint run (ops : list op) (st : pipeline) : outcome :=
  match ops with
  | [] => Running st
  | o :: ops' =>
      match step o st with
      | Running st' => run ops' st'
      | r => r
      end
  end.

(** The node as [main] enters its loop, with [n] buffers: the tables
    are as [init_dma_buffers] leaves them, the mapped regions are
    distinct, the allocator made as many buffers as were configured, and
    nothing has been captured yet. *)
Definition started (n : Z) (st : pipeline) : Prop :=
  let p := proc (node st) in
  let h := cam p in
  running p = 1 /\ frame_queue p = [] /\ sem_value (queue_counter p) = 0
  /\ main_at st = AtLoop /\ camera_at st = Idle
  /\ requests_ h = map (fun i => mk_Request i RequestPending) (seqZ 0 n)
  /\ Z.of_nat (length (mmap_buffers_ h)) = n /\ NoDup (mmap_buffers_ h)
  /\ next_req_idx_ h = 0 /\ dma_frame_buffers_ h = n.

(** The frame the encoder works on. *)
Definition in_encoder (st : pipeline) : option ptr :=
  match main_at st with
  | Encoding frame => Some frame
  | _ => None
  end.

(** The buffers the encoder and the frame queue hold. *)
Definition held_buffers (st : pipeline) : list ptr :=
  match in_encoder st with
  | Some frame => [frame]
  | None => []
  end ++ frame_queue (proc (node st)).

(** The buffer the camera is filling: the one [request_complete] will
    enqueue for the request that is with the camera. *)
Definition in_camera (st : pipeline) : option ptr :=
  let h := cam (proc (node st)) in
  match camera_at st with
  | Capturing request =>
      match requests_ h !! request with
      | Some req => vec_at (mmap_buffers_ h) (cookie req)
      | None => None
      end
  | _ => None
  end.

(** 1 while the main thread is between [sem_wait] and [dequeue]. *)
Definition woken (st : pipeline) : Z :=
  match main_at st with
  | AtDequeue => 1
  | _ => 0
  end.

(** 1 while [request_complete] is between [enqueue] and [sem_post]. *)
Definition posting (st : pipeline) : Z :=
  match camera_at st with
  | Posting _ => 1
  | _ => 0
  end.

(** The buffer of the [k]-th trigger. *)
Definition buffer_of (datas : list ptr) (k : Z) : ptr :=
  default 0 (datas !! Z.to_nat (k mod Z.of_nat (length datas))).

(** After [s] submissions and [c] frames taken by the main loop: the
    queue holds the buffers of the submissions from [c] on that have
    been enqueued, the encoder that of submission [c - 1] or none, and
    the camera that of submission [s - 1] or none.  The semaphore, with
    the unit the main thread may have taken, has counted every posted
    frame not yet dequeued. *)
Definition flowing (datas : list ptr) (s c : Z) (st : pipeline) : Prop :=
  let n := Z.of_nat (length datas) in
  let p := proc (node st) in
  let h := cam p in
  let enqueued := match camera_at st with Capturing _ => s - 1 | _ => s end in
  let posted := match camera_at st with Idle => s | _ => s - 1 end in
  let encoding := match main_at st with Encoding _ => 1 | _ => 0 end in
  0 <= c <= enqueued /\ s - c + encoding <= n
  /\ running p = 1
  /\ requests_ h = map (fun i => mk_Request i RequestPending) (seqZ 0 n)
  /\ mmap_buffers_ h = datas
  /\ next_req_idx_ h = s mod n /\ dma_frame_buffers_ h = n
  /\ 0 <= sem_value (queue_counter p)
  /\ posted - c <= sem_value (queue_counter p) + woken st
  /\ sem_value (queue_counter p) + (s - posted) <= n - 1
  /\ frame_queue p = map (buffer_of datas) (seqZ c (enqueued - c))
  /\ match main_at st with
     | Encoding frame => 0 < c /\ frame = buffer_of datas (c - 1)
     | Left => False
     | _ => True
     end
  /\ match camera_at st with
     | Capturing request | Posting request =>
         0 < s /\ request = Z.to_nat ((s - 1) mod n)
     | Idle => True
     end.

Definition sample_pipeline : pipeline :=
  {| node := {| proc := {| running := 1; sockfd := 5; errno := 0;
                           queue_counter := mk_sem 0 false; frame_queue := [];
                           cam := {| requests_ := [mk_Request 0 RequestPending;
                                                   mk_Request 1 RequestPending;
                                                   mk_Request 2 RequestPending];
                                     mmap_buffers_ := [4096; 8192; 12288];
                                     next_req_idx_ := 0; frame_bytes_ := 6;
                                     dma_frame_buffers_ := 3 |};
                           trace := [] |};
                sys := [] |};
     main_at := AtLoop; camera_at := Idle |}.

End Pipeline.

(** ** Dataset creation: the signal handler of [frame_capture.cpp] *)

Module FrameCapture.

Import CameraNode.

(** Calls that leave the handler, in call order. *)
Inductive fc_event :=
| FcQueueRequest                   (* p_ctx.cam->queue_request() *)
| FcLog (msg : string).

Section Handler.

(** The camera handler of this program is not among the sources: its
    [queue_request] is taken as an abstract operation that returns or
    throws ([None]). *)
Variable cam_t : Type.
Variable queue_request : cam_t -> option cam_t.

(** The part of [p_ctx_t] the handler uses. *)
Record p_ctx_t := mk_p_ctx {
  fc_running : bool;               (* std::atomic<bool> *)
  fc_cam : cam_t;
  fc_trace : list fc_event
}.

Inductive fc_result :=
| FcOk (p : p_ctx_t)
| FcThrow (p : p_ctx_t).           (* the exception leaves the handler *)

Definition sig_handler (signo : Z) (p : p_ctx_t) : fc_result :=
  if (signo =? SIGUSR1) && fc_running p then
    let tr := fc_trace p ++ [FcQueueRequest] in
    match queue_request (fc_cam p) with
    | None => FcThrow (mk_p_ctx (fc_running p) (fc_cam p) tr)
    | Some c =>
        FcOk (mk_p_ctx (fc_running p) c
                (tr ++ [FcLog "Capture request queued"]))
    end
  else if (signo =? SIGINT) || (signo =? SIGTERM) then
    FcOk (mk_p_ctx false (fc_cam p) (fc_trace p))
  else FcOk p.

(** Signals handled one after the other, until an exception leaves the
    handler. *)
Fixpoint handle_all (sigs : list Z) (p : p_ctx_t) : fc_result :=
  match sigs with
  | [] => FcOk p
  | signo :: sigs' =>
      match sig_handler signo p with
      | FcOk p' => handle_all sigs' p'
      | r => r
      end
  end.

End Handler.

Arguments mk_p_ctx {cam_t}.
Arguments fc_running {cam_t}.
Arguments fc_cam {cam_t}.
Arguments fc_trace {cam_t}.
Arguments FcOk {cam_t}.
Arguments FcThrow {cam_t}.

(** Number of [queue_request] calls. *)
Fixpoint fc_captures (tr : list fc_event) : nat :=
  match tr with
  | [] => 0%nat
  | FcQueueRequest :: tr' => S (fc_captures tr')
  | _ :: tr' => fc_captures tr'
  end.

Definition fc_shutdown (signo : Z) : bool :=
  (signo =? SIGINT) || (signo =? SIGTERM).

(** The triggers among [sigs] that come before the first shutdown
    signal. *)
Fixpoint triggers_before_shutdown (sigs : list Z) : nat :=
  match sigs with
  | [] => 0%nat
  | signo :: sigs' =>
      if fc_shutdown signo then 0%nat
      else if signo =? SIGUSR1 then S (triggers_before_shutdown sigs')
      else triggers_before_shutdown sigs'
  end.

End FrameCapture.

(** * Properties of the camera node *)

Module CameraNodeProofs.

Import CameraNode.

Lemma to_int_range z : INT_MIN <= z <= INT_MAX -> to_int z = z.
Proof.
  unfold INT_MIN, INT_MAX, to_int. intros H.
  rewrite Z.mod_small; lia.
Qed.

Lemma to_uint_range z : 0 <= z <= UINT_MAX -> to_uint z = z.
Proof.
  unfold UINT_MAX, to_uint. intros H. apply Z.mod_small. lia.
Qed.

Lemma to_size_t_range z : 0 <= z < 2 ^ 64 -> to_size_t z = z.
Proof. unfold to_size_t. intros H. apply Z.mod_small. lia. Qed.

(** ** Frame sizing *)

(** C9, as stated, fails: for a 2x1 frame the handler stores 2 bytes,
    while W*H*3/2 is 3. *)
Lemma frame_bytes_not_three_halves :
  let cfg := mk_config 4 2 1 16667 16667 in
  frame_bytes_ (init_frame_config cfg sample_handler) = 2
  /\ frame_width cfg * frame_height cfg * 3 / 2 = 3
  /\ frame_bytes_ (init_frame_config cfg sample_handler)
     <> frame_width cfg * frame_height cfg * 3 / 2.
Proof. vm_compute. repeat split; congruence. Qed.

(** C9 (amended): when the sizes fit their C types, the stored frame
    size is W*H + 2*floor(W*H/4); it equals W*H*3/2 exactly when W*H
    leaves remainder 0 or 1 modulo 4, so in particular whenever W*H is a
    multiple of 4. *)
Theorem frame_bytes_yuv420 (cfg : config) (h : camera_handler_t) :
  let y := frame_width cfg * frame_height cfg in
  0 <= y ->
  y + 2 * (y / 4) <= INT_MAX ->
  frame_bytes_ (init_frame_config cfg h) = y + 2 * (y / 4)
  /\ (frame_bytes_ (init_frame_config cfg h) = y * 3 / 2 <-> y mod 4 <= 1)
  /\ (y mod 4 = 0 -> frame_bytes_ (init_frame_config cfg h) = y * 3 / 2).
Proof.
  intros y Hy Hfit. unfold init_frame_config. cbn [frame_bytes_].
  fold y.
  assert (Hq : 0 <= y / 4) by (apply Z.div_pos; lia).
  assert (Hmax : INT_MAX = 2147483647) by reflexivity.
  assert (Humax : UINT_MAX = 4294967295) by reflexivity.
  assert (Hmin : INT_MIN = -2147483648) by reflexivity.
  rewrite (to_uint_range y) by lia.
  rewrite (to_uint_range (y + y / 4)) by lia.
  rewrite (to_uint_range (y + y / 4 + y / 4)) by lia.
  rewrite to_int_range by lia.
  pose proof (Z.div_mod y 4 ltac:(lia)) as Hdm.
  pose proof (Z.mod_pos_bound y 4 ltac:(lia)) as Hr.
  assert (Hhalf : y * 3 / 2 = 6 * (y / 4) + (y mod 4) * 3 / 2).
  { rewrite Hdm at 1.
    replace ((4 * (y / 4) + y mod 4) * 3) with ((y mod 4) * 3 + (6 * (y / 4)) * 2) by lia.
    rewrite Z.div_add by lia. lia. }
  assert (Hcases : y mod 4 = 0 \/ y mod 4 = 1 \/ y mod 4 = 2 \/ y mod 4 = 3) by lia.
  split; [lia|]. split.
  - rewrite Hhalf.
    destruct Hcases as [E|[E|[E|E]]]; rewrite E;
      [change (0 * 3 / 2) with 0 | change (1 * 3 / 2) with 1
      | change (2 * 3 / 2) with 3 | change (3 * 3 / 2) with 4]; lia.
  - intros E. rewrite Hhalf, E. change (0 * 3 / 2) with 0. lia.
Qed.

Lemma frame_bytes_yuv420_witness :
  frame_bytes_ (init_frame_config (mk_config 4 1280 720 16667 16667) sample_handler)
  = 1280 * 720 * 3 / 2.
Proof.
  apply (frame_bytes_yuv420 (mk_config 4 1280 720 16667 16667) sample_handler);
    vm_compute; congruence.
Defined.

(** ** The request ring *)

Lemma submissions_app tr1 tr2 :
  submissions (tr1 ++ tr2) = submissions tr1 ++ submissions tr2.
Proof.
  induction tr1 as [|e tr1 IH]; [reflexivity|].
  destruct e; cbn; rewrite IH; reflexivity.
Qed.

Lemma sem_posts_app tr1 tr2 :
  sem_posts (tr1 ++ tr2) = sem_posts tr1 + sem_posts tr2.
Proof.
  induction tr1 as [|e tr1 IH]; [reflexivity|].
  destruct e; cbn [app sem_posts]; rewrite IH; lia.
Qed.

(** The three ways [queue_request] can go, each with the state it
    leaves; [Undefined] only when the cursor is outside the ring. *)
Lemma queue_request_cases (vendor_ret : Z) (p : process) :
  let h := cam p in
  (sem_getvalue (queue_counter p) > to_int (dma_frame_buffers_ h - 2)
   /\ queue_request vendor_ret p
      = Throw BufferNotReady (log ERROR (what BufferNotReady) p))
  \/ (sem_getvalue (queue_counter p) <= to_int (dma_frame_buffers_ h - 2)
      /\ vec_at (requests_ h) (next_req_idx_ h) = None
      /\ queue_request vendor_ret p = Undefined)
  \/ (exists req,
        sem_getvalue (queue_counter p) <= to_int (dma_frame_buffers_ h - 2)
        /\ vec_at (requests_ h) (next_req_idx_ h) = Some req
        /\ vendor_ret < 0
        /\ queue_request vendor_ret p
           = Throw QueueFailed
               (log ERROR (what QueueFailed)
                  (emit (EvQueueRequest (cookie req) vendor_ret) p)))
  \/ (exists req,
        sem_getvalue (queue_counter p) <= to_int (dma_frame_buffers_ h - 2)
        /\ vec_at (requests_ h) (next_req_idx_ h) = Some req
        /\ 0 <= vendor_ret
        /\ queue_request vendor_ret p
           = Ok (set_cam
                   (set_next_req_idx
                      (to_int (to_size_t (to_int (next_req_idx_ h + 1))
                               mod Z.of_nat (length (requests_ h)))) h)
                   (emit (EvQueueRequest (cookie req) vendor_ret) p))).
Proof.
  intros h. unfold queue_request. fold h.
  destruct (Z.gtb_spec (sem_getvalue (queue_counter p))
              (to_int (dma_frame_buffers_ h - 2))) as [Hgt|Hle].
  - left. split; [lia | reflexivity].
  - right. destruct (vec_at (requests_ h) (next_req_idx_ h)) as [req|] eqn:Hreq.
    + right. destruct (Z.ltb_spec vendor_ret 0) as [Hneg|Hpos].
      * left. exists req. repeat split; auto.
      * right. exists req. repeat split; auto.
    + left. repeat split; auto.
Qed.

Lemma vec_at_in_range {A : Type} (v : list A) (i : Z) :
  0 <= i < Z.of_nat (length v) -> exists x, vec_at v i = Some x.
Proof.
  intros Hi. unfold vec_at.
  destruct (Z.ltb_spec i 0) as [?|_]; [lia|].
  destruct (lookup_lt_is_Some_2 v (Z.to_nat i)) as [x Hx]; [lia|].
  exists x. exact Hx.
Qed.

(** C1: [queue_request] throws [BufferNotReady] exactly when the value
    read from the semaphore exceeds [dma_frame_buffers_ - 2].  With a
    count of N - 1 it throws before anything is submitted; with N - 2 the
    check passes and the request under the cursor is handed to the
    vendor library. *)
Theorem queue_request_backpressure (vendor_ret : Z) (p : process) :
  let N := dma_frame_buffers_ (cam p) in
  let count := sem_getvalue (queue_counter p) in
  INT_MIN + 2 <= N <= INT_MAX ->
  ((exists p', queue_request vendor_ret p = Throw BufferNotReady p')
     <-> count > N - 2)
  /\ (count = N - 1 ->
      exists p', queue_request vendor_ret p = Throw BufferNotReady p'
                 /\ submissions (trace p') = submissions (trace p))
  /\ (count = N - 2 ->
      forall req, vec_at (requests_ (cam p)) (next_req_idx_ (cam p)) = Some req ->
      exists p', (queue_request vendor_ret p = Ok p'
                  \/ queue_request vendor_ret p = Throw QueueFailed p')
                 /\ submissions (trace p') = submissions (trace p) ++ [cookie req]).
Proof.
  intros N count HN.
  assert (Hw : to_int (N - 2) = N - 2).
  { apply to_int_range. unfold INT_MIN, INT_MAX in *. lia. }
  pose proof (queue_request_cases vendor_ret p) as Hc. cbv zeta in Hc.
  fold N count in Hc. rewrite Hw in Hc.
  split; [|split].
  - split.
    + intros [p' Hp'].
      destruct Hc as [[Hgt _]|[(_ & _ & E)|[(req & _ & _ & _ & E)|(req & _ & _ & _ & E)]]];
        [exact Hgt | congruence ..].
    + intros Hgt.
      destruct Hc as [[_ E]|[(Hle & _)|[(req & Hle & _)|(req & Hle & _)]]];
        [eauto | lia ..].
  - intros Hcount.
    destruct Hc as [[_ E]|[(Hle & _)|[(req & Hle & _)|(req & Hle & _)]]];
      [| lia ..].
    eexists. split; [exact E|].
    unfold log, emit. cbn [trace]. rewrite submissions_app. cbn.
    apply app_nil_r.
  - intros Hcount req Hreq.
    destruct Hc as [[Hgt _]|[(_ & Hnone & _)|[(req' & _ & Hreq' & _ & E)|(req' & _ & Hreq' & _ & E)]]];
      [lia | congruence | |].
    + assert (req' = req) by congruence. subst req'.
      eexists. split; [right; exact E|].
      unfold log, emit. cbn [trace]. rewrite !submissions_app. cbn.
      rewrite app_nil_r. reflexivity.
    + assert (req' = req) by congruence. subst req'.
      eexists. split; [left; exact E|].
      unfold set_cam, emit. cbn [trace]. rewrite submissions_app. reflexivity.
Qed.

Lemma queue_request_backpressure_witness :
  (exists p', queue_request 0 (sample_process 3 5) = Throw BufferNotReady p'
              /\ submissions (trace p') = [])
  /\ (exists p', (queue_request 0 (sample_process 2 5) = Ok p'
                  \/ queue_request 0 (sample_process 2 5) = Throw QueueFailed p')
                 /\ submissions (trace p') = [3]).
Proof.
  split.
  - apply (queue_request_backpressure 0 (sample_process 3 5));
      [vm_compute; split; congruence | reflexivity].
  - apply (queue_request_backpressure 0 (sample_process 2 5))
      with (req := mk_Request 3 RequestPending);
      [vm_compute; split; congruence | reflexivity | reflexivity].
Defined.

Lemma ring_advance (idx len : Z) :
  0 <= idx < len -> len <= INT_MAX ->
  to_int (to_size_t (to_int (idx + 1)) mod len) = (idx + 1) mod len.
Proof.
  intros Hidx Hlen. unfold INT_MAX in Hlen.
  rewrite (to_int_range (idx + 1)) by (unfold INT_MIN, INT_MAX; lia).
  rewrite to_size_t_range by lia.
  pose proof (Z.mod_pos_bound (idx + 1) len ltac:(lia)).
  apply to_int_range. unfold INT_MIN, INT_MAX. lia.
Qed.

(** C4: a successful call submits the request under the cursor and moves
    the cursor one place round the ring; a call that throws, for either
    reason, leaves the cursor (and the ring) as they were, so the same
    request is the next one issued. *)
Theorem queue_request_cursor (vendor_ret : Z) (p : process) :
  let h := cam p in
  ring_ok h ->
  (forall e p', queue_request vendor_ret p = Throw e p' ->
     next_req_idx_ (cam p') = next_req_idx_ h
     /\ requests_ (cam p') = requests_ h
     /\ ((e = BufferNotReady
          /\ sem_getvalue (queue_counter p) > to_int (dma_frame_buffers_ h - 2)
          /\ submissions (trace p') = submissions (trace p))
         \/ (e = QueueFailed /\ vendor_ret < 0)))
  /\ (forall p', queue_request vendor_ret p = Ok p' ->
        exists req,
          vec_at (requests_ h) (next_req_idx_ h) = Some req
          /\ 0 <= vendor_ret
          /\ submissions (trace p') = submissions (trace p) ++ [cookie req]
          /\ next_req_idx_ (cam p')
             = (next_req_idx_ h + 1) mod Z.of_nat (length (requests_ h))
          /\ requests_ (cam p') = requests_ h
          /\ ring_ok (cam p'))
  /\ (sem_getvalue (queue_counter p) <= to_int (dma_frame_buffers_ h - 2) ->
      0 <= vendor_ret ->
      exists p', queue_request vendor_ret p = Ok p')
  /\ queue_request vendor_ret p <> Undefined.
Proof.
  intros h [Hidx Hlen].
  destruct (vec_at_in_range (requests_ h) (next_req_idx_ h) Hidx) as [r0 Hr0].
  pose proof (queue_request_cases vendor_ret p) as Hc. cbv zeta in Hc.
  fold h in Hc.
  destruct Hc as [[Hgt E]|[(_ & Hnone & _)|[(req & Hle & Hreq & Hneg & E)|(req & Hle & Hreq & Hpos & E)]]];
    [| congruence | |]; rewrite E.
  - split; [|split; [|split]]; try discriminate.
    + intros e p' Hp'. injection Hp' as <- <-.
      split; [reflexivity|]. split; [reflexivity|]. left.
      split; [reflexivity|]. split; [exact Hgt|].
      unfold log, emit. cbn [trace]. rewrite submissions_app. apply app_nil_r.
    + intros Hle. lia.
  - split; [|split; [|split]]; try discriminate.
    + intros e p' Hp'. injection Hp' as <- <-.
      split; [reflexivity|]. split; [reflexivity|]. right. auto.
    + intros _ Hpos. lia.
  - split; [|split; [|split]]; try discriminate.
    + intros p' Hp'. injection Hp' as <-. exists req.
      split; [exact Hreq|]. split; [exact Hpos|].
      unfold set_cam, set_next_req_idx, emit, ring_ok.
      cbn [trace cam next_req_idx_ requests_].
      rewrite submissions_app, ring_advance by assumption.
      pose proof (Z.mod_pos_bound (next_req_idx_ h + 1)
                    (Z.of_nat (length (requests_ h))) ltac:(lia)).
      repeat split; try reflexivity; lia.
    + intros _ _. eauto.
Qed.

Lemma queue_request_cursor_witness :
  (forall e p', queue_request (-1) (sample_process 0 5) = Throw e p' ->
     next_req_idx_ (cam p') = 3)
  /\ (forall p', queue_request 0 (sample_process 0 5) = Ok p' ->
        next_req_idx_ (cam p') = 0).
Proof.
  assert (Hok : ring_ok (cam (sample_process 0 5))).
  { unfold ring_ok. vm_compute. repeat split; congruence. }
  split.
  - intros e p' H.
    apply (queue_request_cursor (-1) (sample_process 0 5) Hok) in H.
    exact (proj1 H).
  - intros p' H.
    apply (queue_request_cursor 0 (sample_process 0 5) Hok) in H.
    destruct H as (req & _ & _ & _ & Hnext & _). exact Hnext.
Defined.

(** ** The completion callback *)

(** C3: on a cancelled request the callback returns with the process
    exactly as it found it.  Otherwise it reads the buffer pointer at
    index [cookie] of the mapping table, enqueues that pointer, posts
    [queue_counter] and reuses the request, in this order (after its log
    line), and does nothing else. *)
Theorem request_complete_steps (request : nat) (req : Request) (p : process) :
  requests_ (cam p) !! request = Some req ->
  (status req = RequestCancelled -> request_complete request p = Some p)
  /\ (status req <> RequestCancelled ->
      forall data, vec_at (mmap_buffers_ (cam p)) (cookie req) = Some data ->
      exists p',
        request_complete request p = Some p'
        /\ trace p' = trace p ++ [EvLog INFO "Request completed";
                                  EvEnqueue data; EvSemPost;
                                  EvReuse (cookie req)]
        /\ frame_queue p' = frame_queue p ++ [data]
        /\ queue_counter p' = sem_post (queue_counter p)
        /\ requests_ (cam p') = <[request := reuse req]> (requests_ (cam p))
        /\ requests_ (cam p') !! request = Some (reuse req)
        /\ mmap_buffers_ (cam p') = mmap_buffers_ (cam p)
        /\ next_req_idx_ (cam p') = next_req_idx_ (cam p)
        /\ running p' = running p /\ sockfd p' = sockfd p).
Proof.
  destruct p as [run fd err sem fq h tr]. cbn [cam].
  intros Hreq. unfold request_complete. cbn [cam]. rewrite Hreq. split.
  - intros ->. reflexivity.
  - intros Hst data Hdata.
    destruct (req_status_eqb (status req) RequestCancelled) eqn:E.
    { destruct (status req); try discriminate. congruence. }
    rewrite Hdata.
    eexists. split; [reflexivity|].
    cbn [log emit set_frame_queue set_queue_counter set_cam set_requests
           trace frame_queue queue_counter cam requests_ mmap_buffers_
           next_req_idx_ running sockfd].
    rewrite <- !app_assoc. cbn [app].
    repeat split.
    apply list_lookup_insert_eq. eapply lookup_lt_Some, Hreq.
Qed.

Lemma request_complete_steps_witness :
  request_complete 2 (sample_process 0 5) = Some (sample_process 0 5)
  /\ exists p',
       request_complete 1 (sample_process 0 5) = Some p'
       /\ trace p' = [EvLog INFO "Request completed"; EvEnqueue 8192;
                      EvSemPost; EvReuse 1]
       /\ frame_queue p' = [8192]
       /\ sem_value (queue_counter p') = 1.
Proof.
  split.
  - apply (request_complete_steps 2 (mk_Request 2 RequestCancelled)
             (sample_process 0 5)); reflexivity.
  - destruct (request_complete_steps 1 (mk_Request 1 RequestComplete)
                (sample_process 0 5) eq_refl) as [_ H].
    destruct (H ltac:(discriminate) 8192 eq_refl)
      as (p' & E & Htr & Hq & Hs & _).
    exists p'. rewrite Hs. repeat split; assumption.
Defined.

(** ** Signal handlers *)

Lemma socket_disconnect_handler_cases (signo : Z) (p : process) :
  (signo = SIGUSR2 /\ 0 <= sockfd p
   /\ socket_disconnect_handler signo p
      = log INFO "Socket disconnected by timer"
          (set_sockfd (-1) (emit (EvClose (sockfd p)) p)))
  \/ ((signo <> SIGUSR2 \/ sockfd p < 0)
      /\ socket_disconnect_handler signo p = p).
Proof.
  unfold socket_disconnect_handler.
  destruct (Z.eqb_spec signo SIGUSR2) as [Hs|Hs];
    destruct (Z.geb_spec (sockfd p) 0) as [Hfd|Hfd]; cbn [andb].
  - left. repeat split; [assumption | lia].
  - right. split; [right; lia | reflexivity].
  - right. split; [left; assumption | reflexivity].
  - right. split; [left; assumption | reflexivity].
Qed.

(** C10: the watchdog handler closes the socket and stores -1 only when
    [sockfd >= 0] (and the signal is SIGUSR2); run twice in a row it
    leaves the process as one run does, and with [sockfd] already
    negative, -1 in particular, it changes nothing. *)
Theorem socket_disconnect_handler_idempotent (signo : Z) (p : process) :
  socket_disconnect_handler signo (socket_disconnect_handler signo p)
  = socket_disconnect_handler signo p
  /\ (sockfd p < 0 -> socket_disconnect_handler signo p = p)
  /\ (socket_disconnect_handler signo p <> p ->
      signo = SIGUSR2 /\ 0 <= sockfd p
      /\ sockfd (socket_disconnect_handler signo p) = -1
      /\ trace (socket_disconnect_handler signo p)
         = trace p ++ [EvClose (sockfd p);
                       EvLog INFO "Socket disconnected by timer"]).
Proof.
  destruct (socket_disconnect_handler_cases signo p)
    as [(Hs & Hfd & E)|[Hno E]].
  - rewrite E. split; [|split].
    + destruct (socket_disconnect_handler_cases signo
                  (log INFO "Socket disconnected by timer"
                     (set_sockfd (-1) (emit (EvClose (sockfd p)) p))))
        as [(_ & Hfd' & _)|[_ E']].
      * cbn in Hfd'. lia.
      * exact E'.
    + intros Hneg. lia.
    + intros _. split; [assumption|]. split; [assumption|].
      split; [reflexivity|].
      unfold log, emit, set_sockfd. cbn [trace].
      rewrite <- app_assoc. reflexivity.
  - rewrite !E. split; [reflexivity|]. split; [reflexivity|].
    intros Hne. congruence.
Qed.

Lemma socket_disconnect_handler_idempotent_witness :
  socket_disconnect_handler SIGUSR2 (sample_process 0 (-1)) = sample_process 0 (-1)
  /\ sockfd (socket_disconnect_handler SIGUSR2 (sample_process 0 5)) = -1.
Proof.
  split.
  - apply (socket_disconnect_handler_idempotent SIGUSR2 (sample_process 0 (-1))).
    reflexivity.
  - apply (socket_disconnect_handler_idempotent SIGUSR2 (sample_process 0 5)).
    vm_compute. discriminate.
Defined.

(** C8, as stated, fails: on SIGTERM the handler makes no [sem_post]
    call at all and the semaphore's value stays what it was; the
    semaphore is destroyed instead. *)
Lemma shutdown_handler_posts_nothing :
  exists p',
    capture_signal_handler SIGTERM 0 (sample_process 0 5) = Ok p'
    /\ sem_posts (trace p') = 0
    /\ sem_posts (trace p') <> 1
    /\ sem_value (queue_counter p') = sem_value (queue_counter (sample_process 0 5))
    /\ trace p' = [EvClose 5; EvSemDestroy].
Proof.
  eexists. split; [reflexivity|]. vm_compute. repeat split; congruence.
Qed.

(** C8 (amended): on SIGINT or SIGTERM the handler clears [running],
    closes the socket if it is open (storing -1), and then destroys
    [queue_counter]; it never posts it, so its value is unchanged. *)
Theorem shutdown_handler_steps (signo vendor_ret : Z) (p : process) :
  signo = SIGINT \/ signo = SIGTERM ->
  exists p',
    capture_signal_handler signo vendor_ret p = Ok p'
    /\ running p' = 0
    /\ sockfd p' = (if sockfd p >=? 0 then -1 else sockfd p)
    /\ sockfd p' < 0
    /\ queue_counter p' = sem_destroy (queue_counter p)
    /\ sem_value (queue_counter p') = sem_value (queue_counter p)
    /\ trace p' = trace p
                  ++ (if sockfd p >=? 0 then [EvClose (sockfd p)] else [])
                  ++ [EvSemDestroy]
    /\ sem_posts (trace p') = sem_posts (trace p)
    /\ cam p' = cam p /\ frame_queue p' = frame_queue p.
Proof.
  intros Hsig. unfold capture_signal_handler.
  assert (E1 : (signo =? SIGUSR1) = false).
  { apply Z.eqb_neq. unfold SIGINT, SIGTERM, SIGUSR1 in *. lia. }
  assert (E2 : (signo =? SIGINT) || (signo =? SIGTERM) = true).
  { destruct Hsig as [-> | ->]; reflexivity. }
  rewrite E1, E2. cbn [andb].
  eexists. split; [reflexivity|].
  unfold set_running, set_sockfd, set_queue_counter, emit.
  cbn [sockfd]. destruct (Z.geb_spec (sockfd p) 0) as [Hfd|Hfd];
    cbn [running sockfd queue_counter trace cam frame_queue sem_destroy sem_value];
    rewrite ?sem_posts_app; cbn [sem_posts app];
    rewrite <- ?app_assoc; cbn [app];
    repeat split; try lia.
Qed.

Lemma shutdown_handler_steps_witness :
  exists p',
    capture_signal_handler SIGINT 0 (sample_process 2 5) = Ok p'
    /\ running p' = 0.
Proof.
  destruct (shutdown_handler_steps SIGINT 0 (sample_process 2 5))
    as (p' & E & Hr & _); [left; reflexivity|].
  exists p'. split; assumption.
Defined.

(** ** The streamer *)

Lemma bytes_written_app tr1 tr2 :
  bytes_written (tr1 ++ tr2) = bytes_written tr1 + bytes_written tr2.
Proof.
  induction tr1 as [|e tr1 IH]; [reflexivity|].
  destruct e; cbn [app bytes_written]; rewrite IH; lia.
Qed.


Lemma bytes_written_no_write tr : Forall not_write tr -> bytes_written tr = 0.
Proof.
  induction 1 as [|e tr He _ IH]; [reflexivity|].
  destruct e; cbn in *; try assumption. contradiction.
Qed.

Lemma writes_from_no_write off size tr1 tr2 :
  Forall not_write tr1 ->
  writes_from off size (tr1 ++ tr2) <-> writes_from off size tr2.
Proof.
  induction 1 as [|e tr He _ IH]; [reflexivity|].
  destruct e; cbn in *; try assumption. contradiction.
Qed.

Lemma in_no_write tr fd off c r err :
  Forall not_write tr -> ~ In (EvWrite fd off c r err) tr.
Proof.
  intros H Hin. rewrite Forall_forall in H.
  apply list_elem_of_In in Hin. exact (H _ Hin).
Qed.

(** [init_network] makes no [write]; when it does not report a failure
    the descriptor it left in [sockfd] is open. *)
Lemma init_network_trace (e : net_env) (p : process) :
  (socket_ret e < 0 -> 0 < socket_errno e) ->
  (connect_ret e < 0 -> 0 < connect_errno e) ->
  exists new,
    trace (snd (init_network e p)) = trace p ++ new
    /\ Forall not_write new
    /\ ((fst (init_network e p) <? 0) = false ->
        fst (init_network e p) = 0 /\ 0 <= sockfd (snd (init_network e p))).
Proof.
  intros Hs Hc. unfold init_network.
  cbn [sockfd emit set_sockfd].
  destruct (Z.ltb_spec (socket_ret e) 0) as [Hneg|Hpos].
  - eexists. cbn [fst snd log emit set_errno set_sockfd trace errno].
    rewrite <- app_assoc. split; [reflexivity|].
    split; [repeat constructor|].
    intros H. apply Z.ltb_ge in H. specialize (Hs Hneg). lia.
  - destruct (Z.ltb_spec (connect_ret e) 0) as [Hcn|Hcp].
    + eexists. cbn [fst snd log emit set_errno set_sockfd trace errno].
      rewrite <- !app_assoc. split; [reflexivity|].
      split; [repeat constructor|].
      intros H. apply Z.ltb_ge in H. specialize (Hc Hcn). lia.
    + eexists. cbn [fst snd log emit set_errno set_sockfd trace errno sockfd].
      rewrite <- !app_assoc. split; [reflexivity|].
      split; [repeat constructor|]. intros _. split; [reflexivity | lia].
Qed.


Lemma stream_pkt_loop_post (env : list io_env) (size : Z) :
  Forall posix_io env -> size < 2 ^ 64 ->
  forall (total : Z) (p : process),
    0 <= total <= size ->
    exists new,
      trace (snd (stream_pkt_loop env size total p)) = trace p ++ new
      /\ loop_post size total (fst (stream_pkt_loop env size total p)) new.
Proof.
  intros Henv Hsize.
  induction Henv as [|e env He Henv IH]; intros total p Htot.
  - cbn [stream_pkt_loop].
    destruct (Z.ltb_spec total size) as [Hlt|Hge].
    + exists []. rewrite app_nil_r. split; [reflexivity|].
      unfold loop_post. cbn.
      repeat split; try discriminate; try lia; try contradiction.
    + exists [EvLog INFO "Transmitted frame"]. split; [reflexivity|].
      unfold loop_post. cbn.
      repeat split; try lia.
      * intros r' [= <-]. lia.
      * intros fd off c ret err [H|[]]. discriminate.
  - cbn [stream_pkt_loop].
    destruct (Z.ltb_spec total size) as [Hlt|Hge].
    2:{ exists [EvLog INFO "Transmitted frame"]. split; [reflexivity|].
        unfold loop_post. cbn.
        repeat split; try lia.
        * intros r' [= <-]. lia.
        * intros fd off c ret err [H|[]]. discriminate. }
    destruct He as (Hs & Hc & Hw).
    (* the write pass, from any process whose descriptor is open *)
    assert (Hpass : forall q : process, 0 <= sockfd q ->
      let count := size - total in
      let result := sys_write e count in
      let q1 := if result <? 0 then set_errno (write_errno e) q else q in
      let q2 := emit (EvWrite (sockfd q1) total count result (write_errno e)) q1 in
      let out := if result <? 0
                 then if errno q2 =? EINTR
                      then stream_pkt_loop env size total q2
                      else (Some (-1), log ERROR "Error transmitting frame" q2)
                 else stream_pkt_loop env size (to_size_t (total + result)) q2 in
      exists new, trace (snd out) = trace q ++ new
                  /\ loop_post size total (fst out) new).
    { intros q Hq count result q1 q2 out.
      unfold sys_write in result.
      destruct (Z.ltb_spec (write_ret e) 0) as [Hfail|Hok].
      - (* write failed *)
        subst result q1 q2 out. cbn [Z.ltb Z.compare].
        cbn [errno emit set_errno sockfd].
        destruct (Z.eqb_spec (write_errno e) EINTR) as [Heintr|Hother].
        + destruct (IH total
                      (emit (EvWrite (sockfd q) total count (-1) (write_errno e))
                         (set_errno (write_errno e) q)) Htot)
            as (new & Htr & Hwf & Hle & Hz & Hr & Hin).
          cbn [emit set_errno sockfd trace errno] in Htr |- *.
          exists (EvWrite (sockfd q) total count (-1) (write_errno e) :: new).
          split; [rewrite Htr, <- app_assoc; reflexivity|].
          unfold loop_post. cbn [writes_from bytes_written Z.ltb Z.compare].
          rewrite Z.add_0_r, Z.add_0_l.
          repeat split; try assumption; try lia; try apply Hz.
          intros fd off c ret err [Heq|Hin'] Hret Herr.
          * injection Heq as <- <- <- <- <-. contradiction.
          * eapply Hin; eassumption.
        + exists [EvWrite (sockfd q) total count (-1) (write_errno e);
                  EvLog ERROR "Error transmitting frame"].
          cbn [fst snd log emit set_errno trace].
          split; [rewrite <- app_assoc; reflexivity|].
          unfold loop_post. cbn [writes_from bytes_written Z.ltb Z.compare].
          repeat split; try lia; try discriminate.
          * intros r' [= <-]. lia.
      - (* the kernel took some bytes *)
        assert (Hres : 0 <= Z.min (write_ret e) count <= count)
          by (subst count; lia).
        set (n := Z.min (write_ret e) count) in *.
        subst result q1 q2 out.
        destruct (Z.ltb_spec n 0) as [?|_]; [lia|].
        rewrite to_size_t_range by (subst count; lia).
        destruct (IH (total + n)
                    (emit (EvWrite (sockfd q) total count n (write_errno e)) q)
                    ltac:(subst count; lia))
          as (new & Htr & Hwf & Hle & Hz & Hr & Hin).
        cbn [emit trace] in Htr.
        exists (EvWrite (sockfd q) total count n (write_errno e) :: new).
        split; [rewrite Htr, <- app_assoc; reflexivity|].
        unfold loop_post. cbn [writes_from bytes_written].
        destruct (Z.ltb_spec n 0) as [?|_]; [lia|].
        repeat split; try assumption; try lia.
        + intros H. apply Hz in H. lia.
        + intros H. apply Hz. lia.
        + intros fd off c ret err [Heq|Hin'] Hret Herr.
          * injection Heq as <- <- <- <- <-. lia.
          * eapply Hin; eassumption. }
    destruct (Z.ltb_spec (sockfd p) 0) as [Hclosed|Hopen].
    + (* reconnect first *)
      destruct (init_network_trace (net e) p Hs Hc) as (pre & Hpre & Hnw & Hret).
      destruct (init_network (net e) p) as [ret q] eqn:Hinit.
      cbn [fst snd] in Hpre, Hret.
      destruct (Z.ltb_spec ret 0) as [Hneg|Hnn].
      * exists pre. split; [exact Hpre|].
        unfold loop_post. rewrite (bytes_written_no_write _ Hnw).
        repeat split; try lia.
        -- rewrite <- (app_nil_r pre). apply writes_from_no_write; [assumption|exact I].
        -- intros [= ->]. lia.
        -- intros r' [= <-]. lia.
        -- intros fd off c r0 err Hin. exfalso. eapply in_no_write; eassumption.
      * destruct Hret as [_ Hfd]; [reflexivity|].
        destruct (Hpass q Hfd) as (new & Htr & Hwf & Hle & Hz & Hr & Hin).
        exists (pre ++ new).
        split; [rewrite Htr, Hpre, app_assoc; reflexivity|].
        unfold loop_post. rewrite bytes_written_app, (bytes_written_no_write _ Hnw).
        repeat split; try assumption; try lia.
        -- apply writes_from_no_write; assumption.
        -- intros H. apply Hz in H. lia.
        -- intros H. apply Hz. lia.
        -- intros fd off c r0 err Hin' Hret Herr.
           apply in_app_iff in Hin'. destruct Hin' as [Hin'|Hin'].
           ++ exfalso. eapply in_no_write; eassumption.
           ++ eapply Hin; eassumption.
    + exact (Hpass p Hopen).
Qed.

Lemma stream_pkt_reconnects_first (e : io_env) (env : list io_env)
    (size : Z) (p : process) :
  Forall posix_io (e :: env) -> 0 < size < 2 ^ 64 -> sockfd p < 0 ->
  exists rest,
    trace (snd (stream_pkt (e :: env) size p))
    = trace p ++ EvSocket (socket_ret (net e)) :: rest.
Proof.
  intros Henv Hsize Hfd. unfold stream_pkt. cbn [stream_pkt_loop].
  destruct (Z.ltb_spec 0 size) as [_|?]; [|lia].
  destruct (Z.ltb_spec (sockfd p) 0) as [_|?]; [|lia].
  assert (Hinit : exists pre,
             trace (snd (init_network (net e) p))
             = trace p ++ EvSocket (socket_ret (net e)) :: pre).
  { unfold init_network. cbn [sockfd emit set_sockfd].
    destruct (socket_ret (net e) <? 0); [|destruct (connect_ret (net e) <? 0)];
      cbn [snd log emit set_errno trace]; rewrite <- ?app_assoc;
      eexists; reflexivity. }
  destruct Hinit as (pre & Hpre).
  destruct (init_network (net e) p) as [ret q]. cbn [snd] in Hpre.
  destruct (ret <? 0); [exists pre; exact Hpre|].
  inversion Henv as [|? ? _ Henv']; subst.
  destruct (Z.ltb_spec (sys_write e (size - 0)) 0) as [Hres|Hres].
  - destruct (errno _ =? EINTR).
    + destruct (stream_pkt_loop_post env size Henv' ltac:(lia) 0
                  (emit (EvWrite (sockfd (set_errno (write_errno e) q)) 0
                           (size - 0) (sys_write e (size - 0)) (write_errno e))
                     (set_errno (write_errno e) q)) ltac:(lia))
        as (new & Htr & _).
      rewrite Htr. cbn [emit set_errno trace]. rewrite Hpre, <- !app_assoc.
      eexists. reflexivity.
    + cbn [snd log emit set_errno trace]. rewrite Hpre, <- !app_assoc.
      eexists. reflexivity.
  - set (t := to_size_t (0 + sys_write e (size - 0))).
    assert (Ht : 0 <= t <= size).
    { subst t. unfold sys_write in *.
      destruct (Z.ltb_spec (write_ret e) 0); [lia|].
      rewrite to_size_t_range; lia. }
    destruct (stream_pkt_loop_post env size Henv' ltac:(lia) t
                (emit (EvWrite (sockfd q) 0 (size - 0)
                         (sys_write e (size - 0)) (write_errno e)) q) Ht)
      as (new & Htr & _).
    rewrite Htr. cbn [emit trace]. rewrite Hpre, <- !app_assoc.
    eexists. reflexivity.
Qed.

(** With the descriptor open, the loop makes exactly the calls of a
    [write_run]. *)
Lemma stream_pkt_loop_run (env : list io_env) (size : Z) :
  size < 2 ^ 64 ->
  forall (total : Z) (p : process),
    0 <= total -> 0 <= sockfd p ->
    exists new,
      trace (snd (stream_pkt_loop env size total p)) = trace p ++ new
      /\ write_run size (sockfd p) total (length env)
           (fst (stream_pkt_loop env size total p)) new.
Proof.
  intros Hsize.
  assert (Hstep : forall (fd total' : Z) (tr : list event) (ev : event)
                    (out : option Z * process) (q : process) (left : nat),
             sockfd q = fd -> trace q = tr ++ [ev] ->
             (exists new,
                 trace (snd out) = trace q ++ new
                 /\ write_run size (sockfd q) total' left (fst out) new) ->
             exists new,
               trace (snd out) = tr ++ ev :: new
               /\ write_run size fd total' left (fst out) new).
  { intros fd total' tr ev out q left Hq1 Hq2 (new & Ht & Hrun).
    exists new. rewrite Ht, Hq2, <- app_assoc. rewrite Hq1 in Hrun.
    split; [reflexivity|exact Hrun]. }
  induction env as [|e env IH]; intros total p Htot Hfd;
    cbn [stream_pkt_loop length].
  - destruct (Z.ltb_spec total size).
    + exists []. rewrite app_nil_r. split; [reflexivity|].
      apply run_unfinished. assumption.
    + exists [EvLog INFO "Transmitted frame"]. split; [reflexivity|].
      apply run_done. assumption.
  - destruct (Z.ltb_spec total size) as [Hlt|Hge].
    2:{ exists [EvLog INFO "Transmitted frame"]. split; [reflexivity|].
        apply run_done. assumption. }
    destruct (Z.ltb_spec (sockfd p) 0) as [?|_]; [lia|].
    unfold sys_write.
    destruct (Z.ltb_spec (write_ret e) 0) as [Hfail|Hok].
    + cbn [Z.ltb Z.compare]. cbn [errno emit set_errno sockfd].
      destruct (Z.eqb_spec (write_errno e) EINTR) as [Heintr|Hother].
      * match goal with
        | |- context [stream_pkt_loop env size total ?q0] =>
            destruct (Hstep (sockfd p) total (trace p)
                        (EvWrite (sockfd p) total (size - total) (-1)
                           (write_errno e))
                        (stream_pkt_loop env size total q0) q0 (length env)
                        eq_refl eq_refl (IH total q0 Htot Hfd))
              as (new & Ht & Hrun)
        end.
        eexists. split; [exact Ht|].
        rewrite Heintr in Hrun |- *. apply run_retried; assumption.
      * eexists. cbn [snd fst log emit set_errno trace].
        rewrite <- app_assoc. split; [reflexivity|].
        apply run_failed; assumption.
    + assert (Hres : 0 <= Z.min (write_ret e) (size - total) <= size - total)
        by lia.
      set (taken := Z.min (write_ret e) (size - total)) in *.
      destruct (Z.ltb_spec taken 0) as [?|_]; [lia|].
      rewrite to_size_t_range by lia.
      match goal with
      | |- context [stream_pkt_loop env size (total + taken) ?q0] =>
          destruct (Hstep (sockfd p) (total + taken) (trace p)
                      (EvWrite (sockfd p) total (size - total) taken
                         (write_errno e))
                      (stream_pkt_loop env size (total + taken) q0) q0
                      (length env) eq_refl eq_refl
                      (IH (total + taken) q0 ltac:(lia) Hfd))
            as (new & Ht & Hrun)
      end.
      eexists. split; [exact Ht|].
      apply run_continued; assumption.
Qed.

(** A pass that reconnects goes on as a pass that found the descriptor
    open. *)
Lemma stream_pkt_loop_connected (e : io_env) (env : list io_env)
    (size total : Z) (p q : process) :
  total < size -> sockfd p < 0 ->
  init_network (net e) p = (0, q) -> 0 <= sockfd q ->
  stream_pkt_loop (e :: env) size total p
  = stream_pkt_loop (e :: env) size total q.
Proof.
  intros Hlt Hp Hinit Hq. cbn [stream_pkt_loop].
  destruct (Z.ltb_spec total size) as [_|?]; [|lia].
  destruct (Z.ltb_spec (sockfd p) 0) as [_|?]; [|lia].
  destruct (Z.ltb_spec (sockfd q) 0) as [?|_]; [lia|].
  rewrite Hinit. reflexivity.
Qed.

(** The three ways a reconnection goes. *)
Lemma init_network_cases (e : net_env) (p : process) :
  (socket_ret e < 0
   /\ init_network e p
      = (- socket_errno e,
         log ERROR "Failed to create socket"
           (set_errno (socket_errno e)
              (emit (EvSocket (socket_ret e)) (set_sockfd (socket_ret e) p)))))
  \/ (0 <= socket_ret e /\ connect_ret e < 0
      /\ init_network e p
         = (- connect_errno e,
            log ERROR "Failed to connect to server"
              (set_errno (connect_errno e)
                 (emit (EvConnect (socket_ret e) (connect_ret e))
                    (emit (EvSocket (socket_ret e))
                       (set_sockfd (socket_ret e) p))))))
  \/ (0 <= socket_ret e /\ 0 <= connect_ret e
      /\ init_network e p
         = (0, emit (EvConnect (socket_ret e) (connect_ret e))
                 (emit (EvSocket (socket_ret e))
                    (set_sockfd (socket_ret e) p)))).
Proof.
  unfold init_network. cbn [sockfd emit set_sockfd].
  destruct (Z.ltb_spec (socket_ret e) 0) as [Hs|Hs].
  - left. split; [exact Hs|reflexivity].
  - right. destruct (Z.ltb_spec (connect_ret e) 0) as [Hc|Hc].
    + left. split; [exact Hs|]. split; [exact Hc|reflexivity].
    + right. split; [exact Hs|]. split; [exact Hc|reflexivity].
Qed.

(** With [sockfd] negative on entry and something to send, the call
    first makes a [socket] and, if that gave a descriptor, a [connect]
    on it; it writes only if both succeeded, and then to the new
    descriptor. *)
Lemma stream_pkt_reconnects (e : io_env) (env : list io_env) (size : Z)
    (p : process) :
  posix_io e -> 0 < size < 2 ^ 64 -> sockfd p < 0 ->
  let s := socket_ret (net e) in
  let c := connect_ret (net e) in
  let out := stream_pkt (e :: env) size p in
  (s < 0 ->
   trace (snd out)
   = trace p ++ [EvSocket s; EvLog ERROR "Failed to create socket"]
   /\ fst out = Some (- socket_errno (net e)))
  /\ (0 <= s -> c < 0 ->
      trace (snd out)
      = trace p ++ [EvSocket s; EvConnect s c;
                    EvLog ERROR "Failed to connect to server"]
      /\ fst out = Some (- connect_errno (net e)))
  /\ (0 <= s -> 0 <= c ->
      exists writes,
        trace (snd out) = trace p ++ EvSocket s :: EvConnect s c :: writes
        /\ write_run size s 0 (S (length env)) (fst out) writes).
Proof.
  intros (Hps & Hpc & _) Hsize Hfd s c out. subst s c out. unfold stream_pkt.
  destruct (init_network_cases (net e) p)
    as [(Hs & Hinit)|[(Hs & Hc & Hinit)|(Hs & Hc & Hinit)]].
  - split; [|split; intros; lia]. intros _.
    cbn [stream_pkt_loop].
    destruct (Z.ltb_spec 0 size) as [_|?]; [|lia].
    destruct (Z.ltb_spec (sockfd p) 0) as [_|?]; [|lia].
    rewrite Hinit.
    destruct (Z.ltb_spec (- socket_errno (net e)) 0) as [_|?];
      [|specialize (Hps Hs); lia].
    cbn [fst snd log emit set_errno set_sockfd trace].
    rewrite <- !app_assoc. split; reflexivity.
  - split; [intros; lia|]. split; [|intros; lia]. intros _ _.
    cbn [stream_pkt_loop].
    destruct (Z.ltb_spec 0 size) as [_|?]; [|lia].
    destruct (Z.ltb_spec (sockfd p) 0) as [_|?]; [|lia].
    rewrite Hinit.
    destruct (Z.ltb_spec (- connect_errno (net e)) 0) as [_|?];
      [|specialize (Hpc Hc); lia].
    cbn [fst snd log emit set_errno set_sockfd trace].
    rewrite <- !app_assoc. split; reflexivity.
  - split; [intros; lia|]. split; [intros; lia|]. intros _ _.
    match type of Hinit with
    | _ = (0, ?q0) => set (q := q0) in *
    end.
    assert (Hq1 : sockfd q = socket_ret (net e)) by reflexivity.
    assert (Hq2 : trace q
                  = trace p ++ [EvSocket (socket_ret (net e));
                                EvConnect (socket_ret (net e))
                                  (connect_ret (net e))]).
    { unfold q. cbn [emit set_sockfd trace]. rewrite <- app_assoc. reflexivity. }
    clearbody q.
    rewrite (stream_pkt_loop_connected e env size 0 p q ltac:(lia) Hfd Hinit
               ltac:(lia)).
    destruct (stream_pkt_loop_run (e :: env) size ltac:(lia) 0 q ltac:(lia)
                ltac:(lia)) as (writes & Ht & Hrun).
    exists writes. rewrite Ht, Hq2, <- app_assoc. rewrite Hq1 in Hrun.
    split; [reflexivity|exact Hrun].
Qed.

(** C5: [stream_pkt] returns 0 exactly when the [write] calls it made
    have taken [size] bytes in all.  Every [write] goes to an open
    descriptor, starts at the first byte not yet written and asks for
    all the rest.  The calls are those of a [write_run]: after a short
    write the next call is the [write] of what remains, after a [write]
    that failed with EINTR the next call is the same [write] again, and
    the call does not return before [size] bytes are written unless a
    [write] fails with another [errno], which ends it with -1 and fewer
    than [size] bytes written.  With [sockfd] negative on entry it first
    reconnects: a [socket], then a [connect] on the new descriptor, and
    only if both succeed the writes, to that descriptor; otherwise it
    returns the negated [errno] without writing.  It never returns a
    positive value. *)
Theorem stream_pkt_writes_exactly_size (env : list io_env) (size : Z)
    (p : process) :
  Forall posix_io env -> 0 <= size < 2 ^ 64 ->
  exists new,
    trace (snd (stream_pkt env size p)) = trace p ++ new
    /\ writes_from 0 size new
    /\ bytes_written new <= size
    /\ (fst (stream_pkt env size p) = Some 0 <-> bytes_written new = size)
    /\ (forall r, fst (stream_pkt env size p) = Some r ->
          r = 0 \/ (r < 0 /\ bytes_written new < size))
    /\ (forall fd off c ret err,
          In (EvWrite fd off c ret err) new -> ret < 0 -> err <> EINTR ->
          fst (stream_pkt env size p) = Some (-1)
          /\ bytes_written new < size)
    /\ (sockfd p < 0 -> 0 < size ->
        forall e env', env = e :: env' ->
        exists rest, new = EvSocket (socket_ret (net e)) :: rest)
    /\ (0 <= sockfd p \/ size = 0 ->
        write_run size (sockfd p) 0 (length env)
          (fst (stream_pkt env size p)) new)
    /\ (sockfd p < 0 -> 0 < size ->
        forall e env', env = e :: env' ->
        let s := socket_ret (net e) in
        let c := connect_ret (net e) in
        (s < 0 ->
         new = [EvSocket s; EvLog ERROR "Failed to create socket"]
         /\ fst (stream_pkt env size p) = Some (- socket_errno (net e)))
        /\ (0 <= s -> c < 0 ->
            new = [EvSocket s; EvConnect s c;
                   EvLog ERROR "Failed to connect to server"]
            /\ fst (stream_pkt env size p) = Some (- connect_errno (net e)))
        /\ (0 <= s -> 0 <= c ->
            exists writes,
              new = EvSocket s :: EvConnect s c :: writes
              /\ write_run size s 0 (length env)
                   (fst (stream_pkt env size p)) writes)).
Proof.
  intros Henv [Hsz0 Hsz].
  destruct (stream_pkt_loop_post env size Henv Hsz 0 p ltac:(lia))
    as (new & Htr & Hwf & Hle & Hz & Hr & Hin).
  fold (stream_pkt env size p) in Htr, Hz, Hr, Hin.
  exists new. rewrite Z.add_0_l in Hle, Hz.
  split; [exact Htr|]. split; [exact Hwf|]. split; [exact Hle|].
  split; [exact Hz|]. split; [|split; [|split; [|split]]].
  - intros r Hret. specialize (Hr r Hret).
    destruct (Z.eq_dec r 0) as [->|Hne]; [left; reflexivity|].
    right. split; [lia|].
    assert (bytes_written new <> size).
    { intros Heq. apply Hz in Heq. congruence. }
    lia.
  - intros fd off c ret err Hi Hret Herr.
    pose proof (Hin fd off c ret err Hi Hret Herr) as Hm1.
    split; [exact Hm1|].
    assert (bytes_written new <> size).
    { intros Heq. apply Hz in Heq. congruence. }
    lia.
  - intros Hfd Hpos e env' ->.
    destruct (stream_pkt_reconnects_first e env' size p Henv ltac:(lia) Hfd)
      as (rest & Hrest).
    exists rest. rewrite Htr in Hrest.
    apply app_inv_head in Hrest. exact Hrest.
  - intros [Hfd| ->].
    + destruct (stream_pkt_loop_run env size Hsz 0 p ltac:(lia) Hfd)
        as (new' & Htr' & Hrun).
      fold (stream_pkt env size p) in Htr', Hrun.
      rewrite Htr in Htr'. apply app_inv_head in Htr'. subst new'.
      exact Hrun.
    + assert (E : stream_pkt env 0 p
                  = (Some 0, log INFO "Transmitted frame" p))
        by (destruct env; reflexivity).
      rewrite E in Htr |- *. cbn [fst snd log emit trace] in Htr |- *.
      apply app_inv_head in Htr. subst new.
      apply run_done. lia.
  - intros Hfd Hpos e env' ->.
    inversion Henv as [|? ? He _]; subst.
    destruct (stream_pkt_reconnects e env' size p He ltac:(lia) Hfd)
      as (H1 & H2 & H3).
    cbv zeta in *. split; [|split].
    + intros Hs. destruct (H1 Hs) as (Ht & Hres).
      rewrite Htr in Ht. apply app_inv_head in Ht. split; assumption.
    + intros Hs Hc. destruct (H2 Hs Hc) as (Ht & Hres).
      rewrite Htr in Ht. apply app_inv_head in Ht. split; assumption.
    + intros Hs Hc. destruct (H3 Hs Hc) as (writes & Ht & Hrun).
      rewrite Htr in Ht. apply app_inv_head in Ht.
      exists writes. split; assumption.
Qed.

Lemma stream_pkt_writes_exactly_size_witness :
  let env := [sample_io 3 0; sample_io (-1) EINTR; sample_io 100 0] in
  fst (stream_pkt env 10 (sample_process 0 (-1))) = Some 0
  /\ exists new,
       trace (snd (stream_pkt env 10 (sample_process 0 (-1)))) = new
       /\ bytes_written new = 10
       /\ exists writes,
            new = EvSocket 5 :: EvConnect 5 0 :: writes
            /\ write_run 10 5 0 3 (Some 0) writes.
Proof.
  intros env.
  destruct (stream_pkt_writes_exactly_size env 10 (sample_process 0 (-1)))
    as (new & Htr & _ & _ & Hz & _ & _ & _ & _ & Hre).
  - repeat constructor; cbn; lia.
  - lia.
  - split; [reflexivity|].
    exists new. split; [exact Htr|]. split; [apply Hz; reflexivity|].
    destruct (Hre ltac:(cbn; lia) ltac:(lia) _ _ eq_refl) as (_ & _ & Hok).
    apply Hok; cbn; lia.
Defined.

(** Progress: when every pass finds the socket open (or reconnects) and
    every [write] takes at least one byte, [size] passes are enough for
    the call to return 0. *)
Lemma stream_pkt_loop_completes (env : list io_env) (size : Z) :
  size < 2 ^ 64 ->
  Forall (fun e => 0 <= socket_ret (net e) /\ 0 <= connect_ret (net e)
                   /\ 1 <= write_ret e) env ->
  forall (total : Z) (p : process),
    0 <= total -> size - total <= Z.of_nat (length env) ->
    fst (stream_pkt_loop env size total p) = Some 0.
Proof.
  intros Hsize Henv.
  induction Henv as [|e env (Hs & Hc & Hw) _ IH]; intros total p Htot Hlen;
    cbn [stream_pkt_loop].
  - cbn in Hlen. destruct (Z.ltb_spec total size); [lia | reflexivity].
  - destruct (Z.ltb_spec total size) as [Hlt|]; [|reflexivity].
    assert (Hres : 1 <= sys_write e (size - total) <= size - total).
    { unfold sys_write. destruct (Z.ltb_spec (write_ret e) 0); lia. }
    cbn [length] in Hlen.
    destruct (Z.ltb_spec (sockfd p) 0);
      [ unfold init_network; cbn [sockfd emit set_sockfd];
        destruct (Z.ltb_spec (socket_ret (net e)) 0); [lia|];
        destruct (Z.ltb_spec (connect_ret (net e)) 0); [lia|];
        cbn [Z.ltb Z.compare] | ];
      (destruct (Z.ltb_spec (sys_write e (size - total)) 0); [lia|];
       rewrite to_size_t_range by lia; apply IH; lia).
Qed.

End CameraNodeProofs.

(** * Properties of the stream server worker *)

Module StreamServerProofs.

Import StreamServer.

(** ** Counting over traces *)

Ltac count_app_tac tr1 IH :=
  induction tr1 as [|e tr1 IH]; [reflexivity|];
  destruct e; cbn -[Z.add]; rewrite ?IH; lia.

Lemma timestamps_enqueued_app tr1 tr2 :
  timestamps_enqueued (tr1 ++ tr2)
  = timestamps_enqueued tr1 + timestamps_enqueued tr2.
Proof. count_app_tac tr1 IH. Qed.

Lemma timestamps_dequeued_app tr1 tr2 :
  timestamps_dequeued (tr1 ++ tr2)
  = timestamps_dequeued tr1 + timestamps_dequeued tr2.
Proof. count_app_tac tr1 IH. Qed.

Lemma frames_emitted_app tr1 tr2 :
  frames_emitted (tr1 ++ tr2) = frames_emitted tr1 + frames_emitted tr2.
Proof. count_app_tac tr1 IH. Qed.

Lemma packets_received_app tr1 tr2 :
  packets_received (tr1 ++ tr2) = packets_received tr1 + packets_received tr2.
Proof. count_app_tac tr1 IH. Qed.

Lemma socket_reads_app tr1 tr2 :
  socket_reads (tr1 ++ tr2) = socket_reads tr1 + socket_reads tr2.
Proof. count_app_tac tr1 IH. Qed.

Lemma frame_polls_app tr1 tr2 :
  frame_polls (tr1 ++ tr2) = frame_polls tr1 + frame_polls tr2.
Proof. count_app_tac tr1 IH. Qed.

Lemma timestamps_enqueued_nonneg tr : 0 <= timestamps_enqueued tr.
Proof.
  induction tr as [|e tr IH]; [reflexivity|].
  destruct e as [| | ? r | | | | | | | |]; cbn -[Z.add]; try assumption.
  destruct (r =? 0); lia.
Qed.

Lemma timestamps_dequeued_nonneg tr : 0 <= timestamps_dequeued tr.
Proof.
  induction tr as [|e tr IH]; [reflexivity|].
  destruct e; cbn -[Z.add]; lia.
Qed.


Lemma balanced_nil : balanced [].
Proof. intros n. rewrite take_nil. reflexivity. Qed.

Lemma balanced_app tr new :
  balanced tr ->
  (forall n : nat,
     timestamps_dequeued tr + timestamps_dequeued (take n new)
     <= timestamps_enqueued tr + timestamps_enqueued (take n new)) ->
  balanced (tr ++ new).
Proof.
  intros Hb Hnew n. rewrite take_app.
  rewrite timestamps_dequeued_app, timestamps_enqueued_app.
  destruct (Nat.le_gt_cases (length tr) n) as [Hge|Hlt].
  - rewrite (take_ge tr n) by lia. apply Hnew.
  - replace (n - length tr)%nat with 0%nat by lia.
    rewrite take_0. cbn. specialize (Hb n). lia.
Qed.

Lemma balanced_total tr :
  balanced tr -> timestamps_dequeued tr <= timestamps_enqueued tr.
Proof.
  intros Hb. specialize (Hb (length tr)). rewrite firstn_all in Hb. exact Hb.
Qed.

(** The events of one pass, once the setters are unfolded. *)
Ltac unfold_worker :=
  cbn [log emit set_in set_viddec set_queue set_incoming set_ret
         trace viddec timestamp_queue incoming_stream clientfd_in ret
         sockfd clientfd fst snd];
  rewrite <- ?app_assoc; cbn [app].

(** The same for a worker given by its fields: the setters are computed
    away altogether. *)
Ltac eval_worker :=
  cbv [log emit set_in set_viddec set_queue set_incoming set_ret
         trace viddec timestamp_queue incoming_stream clientfd_in ret
         sockfd clientfd];
  rewrite <- ?app_assoc; cbn [app].

Ltac count_simpl :=
  rewrite ?timestamps_enqueued_app, ?timestamps_dequeued_app,
    ?frames_emitted_app, ?packets_received_app, ?socket_reads_app,
    ?frame_polls_app;
  cbn [timestamps_enqueued timestamps_dequeued frames_emitted
         packets_received socket_reads frame_polls Z.eqb];
  change (EAGAIN =? 0) with false; change (ENODATA =? 0) with false;
  cbv iota.

(** A trace that does not end with the end-of-stream report. *)
Ltac not_drained :=
  let tr0 := fresh "tr0" in
  let H := fresh "H" in
  unfold drained; unfold_worker;
  intros [tr0 H]; exfalso;
  apply (f_equal (@rev event)) in H;
  rewrite !rev_app_distr in H; cbn [rev app] in H;
  discriminate H.

(** Checks a bound at every cut of a short, explicit list of events. *)
Ltac prefix_bound :=
  cbn -[Z.add];
  repeat match goal with
         | |- context [if ?b then _ else _] => destruct b
         end;
  lia.

Ltac each_prefix n :=
  do 8 (try (destruct n as [|n]; [prefix_bound|]));
  prefix_bound.

(** ** The timestamp queue stays aligned with the decoder *)

Section Balance.

Variable ENCODED_FRAME_BUF_SIZE : Z.
Variable decoder : Type.
Variable decode_packet : decoder -> list byte -> Z * decoder.
Variable recv_frame : decoder -> Z * decoder.
Variable flush_decoder : decoder -> Z * decoder.
Variable queue : Type.
Variable enqueue : queue -> Z -> Z * queue.
Variable dequeue : queue -> Z * queue.

(** The codec's contract: [held d] is the number of frames the decoder
    has taken in and not yet given out.  A packet it accepts adds one
    frame, a frame it emits removes one, and it reports the end of the
    stream only when it holds none. *)
Variable held : decoder -> nat.
Hypothesis decode_holds : forall d frame d',
  decode_packet d frame = (0, d') -> held d' = S (held d).
Hypothesis frame_releases : forall d d',
  recv_frame d = (0, d') -> held d = S (held d').
Hypothesis again_keeps : forall d d',
  recv_frame d = (EAGAIN, d') -> held d' = held d.
Hypothesis eof_empty : forall d d',
  recv_frame d = (ENODATA, d') -> held d = 0%nat.
Hypothesis flush_keeps : forall d r d',
  flush_decoder d = (r, d') -> held d' = held d.

Abbreviation worker := (worker decoder queue).
Abbreviation iter :=
  (stream_mgr_iter ENCODED_FRAME_BUF_SIZE decode_packet recv_frame
     flush_decoder enqueue dequeue).


Lemma frame_stage_post (w : worker) :
  aligned held w -> pass_post held (frame_stage recv_frame dequeue w).
Proof.
  destruct w as [cin d0 q0 inc r0 sfd cfd tr].
  unfold aligned at 1. cbn [trace viddec].
  intros (Hheld & Hpk & Hfr & Hbal). unfold frame_stage. unfold_worker.
  destruct (recv_frame d0) as [r d] eqn:Hrf.
  destruct (Z.eqb_spec r EAGAIN) as [->|Hna].
  { unfold pass_post, aligned. unfold_worker. count_simpl.
    rewrite (again_keeps _ _ Hrf).
    repeat split; try lia.
    apply balanced_app; [assumption|]. intros n. each_prefix n. }
  destruct (Z.eqb_spec r ENODATA) as [->|Hnd].
  { unfold pass_post, settled. unfold_worker. count_simpl.
    pose proof (eof_empty _ _ Hrf) as Hz.
    repeat split; try lia.
    apply balanced_app; [assumption|]. intros n. each_prefix n. }
  destruct (Z.eqb_spec r 0) as [->|Hnz]; cbn [negb].
  2:{ unfold pass_post, settled. unfold_worker. count_simpl.
      destruct (Z.eqb_spec r 0) as [?|_]; [contradiction|].
      pose proof (timestamps_enqueued_nonneg tr).
      pose proof (balanced_total _ Hbal).
      repeat split; try lia.
      - apply balanced_app; [assumption|]. intros n. each_prefix n.
      - not_drained. }
  unfold_worker.
  destruct (dequeue q0) as [ts q] eqn:Hdq.
  unfold pass_post, aligned. unfold_worker. count_simpl.
  pose proof (frame_releases _ _ Hrf) as Hrel.
  repeat split; try lia.
  apply balanced_app; [assumption|]. intros n. each_prefix n.
Qed.

Lemma stream_mgr_iter_post (w : worker) :
  aligned held w -> pass_post held (iter w).
Proof.
  intros Hw. unfold stream_mgr_iter.
  destruct (incoming_stream w) eqn:Hinc; [|apply frame_stage_post; exact Hw].
  clear Hinc. destruct w as [cin d0 q0 inc r0 sfd cfd tr].
  unfold aligned in Hw. cbn [trace viddec] in Hw.
  destruct Hw as (Hheld & Hpk & Hfr & Hbal).
  pose proof (timestamps_enqueued_nonneg tr) as Hnn.
  pose proof (balanced_total _ Hbal) as Htot.
  unfold do_recv. unfold_worker.
  destruct (recv_from_stream cin 8) as [[n1 timestamp] in1].
  destruct (Z.eqb_spec n1 8) as [->|Hn1]; cbn [negb].
  2:{ unfold pass_post, settled. unfold_worker. count_simpl.
      repeat split; try lia.
      - apply balanced_app; [assumption|]. intros n. each_prefix n.
      - not_drained. }
  destruct (List.list_eq_dec byte_eq_dec timestamp EOSTREAM) as [Heos|Hts].
  { unfold_worker.
    destruct (flush_decoder d0) as [r d] eqn:Hfl.
    unfold pass_post, aligned. unfold_worker. count_simpl.
    rewrite (flush_keeps _ _ _ Hfl).
    repeat split; try lia.
    apply balanced_app; [assumption|]. intros n. each_prefix n. }
  unfold_worker.
  destruct (enqueue q0 (le_decode timestamp)) as [r1 q1].
  destruct (Z.eqb_spec r1 0) as [->|Hr1]; cbn [negb].
  2:{ unfold pass_post, settled. unfold_worker. count_simpl.
      destruct (Z.eqb_spec r1 0) as [?|_]; [contradiction|].
      repeat split; try lia.
      - apply balanced_app; [assumption|]. intros n. each_prefix n.
      - not_drained. }
  destruct (recv_from_stream in1 4) as [[n2 size_buf] in2].
  destruct (Z.eqb_spec n2 4) as [->|Hn2]; cbn [negb].
  2:{ unfold pass_post, settled. unfold_worker. count_simpl.
      repeat split; try lia.
      - apply balanced_app; [assumption|]. intros n. each_prefix n.
      - not_drained. }
  destruct (le_decode size_buf >? ENCODED_FRAME_BUF_SIZE).
  { unfold pass_post, settled. unfold_worker. count_simpl.
    repeat split; try lia.
    - apply balanced_app; [assumption|]. intros n. each_prefix n.
    - not_drained. }
  unfold_worker.
  destruct (recv_from_stream in2 (le_decode size_buf)) as [[n3 payload] in3].
  destruct (Z.eqb_spec n3 (le_decode size_buf)) as [->|Hn3]; cbn [negb].
  2:{ unfold pass_post, settled. unfold_worker. count_simpl.
      repeat split; try lia.
      - apply balanced_app; [assumption|]. intros n. each_prefix n.
      - not_drained. }
  unfold_worker.
  destruct (decode_packet d0 payload) as [r2 d2] eqn:Hdec.
  destruct (Z.eqb_spec r2 0) as [->|Hr2]; cbn [negb].
  2:{ unfold pass_post, settled. unfold_worker. count_simpl.
      repeat split; try lia.
      - apply balanced_app; [assumption|]. intros n. each_prefix n.
      - not_drained. }
  apply frame_stage_post.
  unfold aligned. unfold_worker. count_simpl.
  rewrite (decode_holds _ _ _ Hdec).
  repeat split; try lia.
  apply balanced_app; [assumption|]. intros n. each_prefix n.
Qed.

(** Every reachable state is [aligned] while the loop runs and
    [settled] once it has been left. *)
Lemma reachable_post (w0 : worker) (c : loop_ctrl) (w : worker) :
  aligned held w0 -> reachable iter w0 c w -> pass_post held (c, w).
Proof.
  intros H0 Hreach. induction Hreach as [|c w w' _ IH Hstep].
  - exact H0.
  - rewrite <- Hstep. apply stream_mgr_iter_post. exact IH.
Qed.

Lemma entry_aligned input (d : decoder) (q : queue) sfd cfd :
  held d = 0%nat -> aligned held (entry input d q sfd cfd).
Proof.
  intros Hd. unfold aligned, entry. cbn [trace viddec]. rewrite Hd.
  repeat split. apply balanced_nil.
Qed.

(** The loop function only visits reachable states. *)
Lemma stream_mgr_loop_reachable (fuel : nat) (w0 w w' : worker) :
  reachable iter w0 Continue w ->
  stream_mgr_loop ENCODED_FRAME_BUF_SIZE decode_packet recv_frame
    flush_decoder enqueue dequeue fuel w = Some w' ->
  reachable iter w0 Break w'.
Proof.
  revert w. induction fuel as [|fuel IH]; intros w Hw; cbn [stream_mgr_loop];
    [discriminate|].
  destruct (iter w) as [[|] w1] eqn:Hstep.
  - intros Hrun. apply (IH w1); [|exact Hrun].
    eapply reach_pass; eassumption.
  - intros [= <-]. eapply reach_pass; eassumption.
Qed.


End Balance.

(** ** Framing: the sentinel and the size check *)

Section Framing.

Variable ENCODED_FRAME_BUF_SIZE : Z.
Variable decoder : Type.
Variable decode_packet : decoder -> list byte -> Z * decoder.
Variable recv_frame : decoder -> Z * decoder.
Variable flush_decoder : decoder -> Z * decoder.
Variable queue : Type.
Variable enqueue : queue -> Z -> Z * queue.
Variable dequeue : queue -> Z * queue.

Abbreviation worker := (worker decoder queue).
Abbreviation iter :=
  (stream_mgr_iter ENCODED_FRAME_BUF_SIZE decode_packet recv_frame
     flush_decoder enqueue dequeue).
Abbreviation loop :=
  (stream_mgr_loop ENCODED_FRAME_BUF_SIZE decode_packet recv_frame
     flush_decoder enqueue dequeue).
Abbreviation run :=
  (stream_mgr ENCODED_FRAME_BUF_SIZE decode_packet recv_frame
     flush_decoder enqueue dequeue).


Lemma drain_run (k : nat) (w : worker) :
  incoming_stream w = false ->
  drains recv_frame (viddec w) k ->
  forall extra : nat,
  exists w2, loop (S k + extra) w = Some w2 /\ drain_post k w w2.
Proof.
  intros Hinc Hdr.
  remember (viddec w) as d eqn:Hd. revert w Hd Hinc.
  induction Hdr as [d d' Hrf | d r d' k Hrf Hr Hdr IH];
    intros w Hd Hinc extra; subst d;
    destruct w as [cin d0 q0 inc r0 sfd cfd tr];
    cbn [incoming_stream viddec] in *; subst inc;
    change (S ?n + extra)%nat with (S (n + extra));
    remember (_ + extra)%nat as fuel eqn:Hfuel;
    cbn [stream_mgr_loop]; unfold stream_mgr_iter;
    cbn [incoming_stream]; unfold frame_stage; unfold_worker; rewrite Hrf.
  - change (ENODATA =? EAGAIN) with false.
    change (ENODATA =? ENODATA) with true. cbv iota.
    eexists. split; [reflexivity|].
    unfold drain_post, drained. unfold_worker. count_simpl.
    split; [exists (tr); reflexivity|].
    repeat split; lia.
  - destruct Hr as [-> | ->].
    + change (0 =? EAGAIN) with false. change (0 =? ENODATA) with false.
      cbn [Z.eqb negb]. cbv iota.
      destruct (dequeue q0) as [ts q1].
      subst fuel.
      match goal with
      | |- exists w2, loop _ ?w1 = _ /\ _ =>
          destruct (IH w1 eq_refl eq_refl extra) as (w2 & Hrun & Hpost)
      end.
      exists w2. split; [exact Hrun|].
      unfold drain_post in *. revert Hpost. unfold_worker. count_simpl.
      intros (Hdone & Hin & Hsr & Henq & Hpk & Hfp & Hdq).
      repeat split; try assumption; lia.
    + change (EAGAIN =? EAGAIN) with true. cbv iota.
      subst fuel.
      match goal with
      | |- exists w2, loop _ ?w1 = _ /\ _ =>
          destruct (IH w1 eq_refl eq_refl extra) as (w2 & Hrun & Hpost)
      end.
      exists w2. split; [exact Hrun|].
      unfold drain_post in *. revert Hpost. unfold_worker. count_simpl.
      intros (Hdone & Hin & Hsr & Henq & Hpk & Hfp & Hdq).
      repeat split; try assumption; lia.
Qed.

Lemma cleanup_trace (w : worker) :
  trace (cleanup w)
  = trace w ++ [EvFree; EvCleanupDecoder; EvCleanupQueue]
      ++ (if sockfd w >=? 0 then [EvClose (sockfd w)] else [])
      ++ (if clientfd w >=? 0 then [EvClose (clientfd w)] else []).
Proof.
  destruct w as [cin d0 q0 inc r0 sfd cfd tr]. unfold cleanup.
  cbn [emit sockfd clientfd trace].
  destruct (sfd >=? 0); cbn [emit sockfd clientfd trace];
    destruct (cfd >=? 0); cbn [emit sockfd clientfd trace];
    rewrite <- ?app_assoc; reflexivity.
Qed.

(** C6: when the eight bytes read in the timestamp slot are [EOSTREAM],
    the pass calls [flush_decoder], enqueues nothing and clears
    [incoming_stream].  From then on the worker never reads the socket
    again: it polls [recv_frame] once per pass, goes on while the answer
    is a frame or EAGAIN, and on ENODATA leaves the loop and runs the
    cleanup. *)
Theorem eostream_flushes_and_drains (w : worker) (rest : list recv_result) :
  incoming_stream w = true ->
  clientfd_in w = Recvd EOSTREAM :: rest ->
  exists w1,
    iter w = (Continue, w1)
    /\ trace w1 = trace w ++ [EvRecv 8 8;
                              EvLog INFO "Received end of stream signal";
                              EvFlush (fst (flush_decoder (viddec w)))]
    /\ viddec w1 = snd (flush_decoder (viddec w))
    /\ incoming_stream w1 = false
    /\ timestamp_queue w1 = timestamp_queue w
    /\ clientfd_in w1 = rest
    /\ forall k : nat, drains recv_frame (viddec w1) k ->
       forall extra : nat,
       exists w2,
         loop (S (S k) + extra) w = Some w2
         /\ run (S (S k) + extra) w = Some (cleanup w2)
         /\ drained w2
         /\ clientfd_in w2 = rest
         /\ socket_reads (trace w2) = socket_reads (trace w) + 1
         /\ timestamps_enqueued (trace w2) = timestamps_enqueued (trace w)
         /\ packets_received (trace w2) = packets_received (trace w)
         /\ frame_polls (trace w2) = frame_polls (trace w) + Z.of_nat (S k)
         /\ timestamps_dequeued (trace w2) - timestamps_dequeued (trace w)
            = frames_emitted (trace w2) - frames_emitted (trace w).
Proof.
  destruct w as [cin d0 q0 inc r0 sfd cfd tr].
  cbn [incoming_stream clientfd_in viddec trace timestamp_queue].
  intros -> ->.
  assert (Hiter : exists w1,
             iter (mk_worker (Recvd EOSTREAM :: rest) d0 q0 true r0 sfd cfd tr)
             = (Continue, w1)
             /\ w1 = mk_worker rest (snd (flush_decoder d0)) q0 false
                       (fst (flush_decoder d0)) sfd cfd
                       (tr ++ [EvRecv 8 8;
                               EvLog INFO "Received end of stream signal";
                               EvFlush (fst (flush_decoder d0))])).
  { unfold stream_mgr_iter, do_recv.
    cbn [incoming_stream clientfd_in recv_from_stream].
    change (take (Z.to_nat 8) EOSTREAM) with EOSTREAM.
    change (Z.of_nat (length EOSTREAM)) with 8.
    unfold_worker. cbn [Z.eqb Pos.eqb negb].
    destruct (List.list_eq_dec byte_eq_dec EOSTREAM EOSTREAM) as [_|Hne];
      [|contradiction].
    unfold_worker. destruct (flush_decoder d0) as [r d].
    eexists. split; [reflexivity|]. cbn [fst snd]. eval_worker. reflexivity. }
  destruct Hiter as (w1 & Hstep & Hw1).
  exists w1. split; [exact Hstep|].
  rewrite Hw1. cbn [trace viddec incoming_stream timestamp_queue clientfd_in].
  repeat (split; [reflexivity|]).
  intros k Hdr extra.
  destruct (drain_run k w1) with (extra := extra) as (w2 & Hrun & Hpost).
  { rewrite Hw1. reflexivity. }
  { rewrite Hw1. exact Hdr. }
  assert (Hloop : loop (S (S k) + extra)
                    (mk_worker (Recvd EOSTREAM :: rest) d0 q0 true r0 sfd cfd tr)
                  = Some w2).
  { change (S (S k) + extra)%nat with (S (S k + extra)).
    remember (S k + extra)%nat as fuel.
    cbn [stream_mgr_loop]. rewrite Hstep. exact Hrun. }
  exists w2. split; [exact Hloop|].
  split; [unfold stream_mgr; rewrite Hloop; reflexivity|].
  unfold drain_post in Hpost. rewrite Hw1 in Hpost.
  cbn [trace clientfd_in] in Hpost. revert Hpost. count_simpl.
  intros (Hdone & Hin & Hsr & Henq & Hpk & Hfp & Hdq).
  repeat split; try assumption; lia.
Qed.

(** C7: when the size field of a packet decodes to more than
    [ENCODED_FRAME_BUF_SIZE], the pass leaves the loop right after the
    size has been read: the payload is still unread on the socket, the
    decoder has been given nothing, and the worker runs the cleanup. *)
Theorem oversized_frame_terminates (w : worker) (ts sz : list byte)
    (rest : list recv_result) (q' : queue) :
  incoming_stream w = true ->
  clientfd_in w = Recvd ts :: Recvd sz :: rest ->
  length ts = 8%nat -> ts <> EOSTREAM -> length sz = 4%nat ->
  enqueue (timestamp_queue w) (le_decode ts) = (0, q') ->
  le_decode sz > ENCODED_FRAME_BUF_SIZE ->
  exists w',
    iter w = (Break, w')
    /\ trace w' = trace w
                  ++ [EvRecv 8 8; EvEnqueue (le_decode ts) 0; EvRecv 4 4;
                      EvLog ERROR "Received frame size that is larger than the allocated buffer"]
    /\ clientfd_in w' = rest
    /\ viddec w' = viddec w
    /\ packets_received (trace w') = packets_received (trace w)
    /\ (forall fuel : nat, run (S fuel) w = Some (cleanup w'))
    /\ trace (cleanup w')
       = trace w' ++ [EvFree; EvCleanupDecoder; EvCleanupQueue]
           ++ (if sockfd w >=? 0 then [EvClose (sockfd w)] else [])
           ++ (if clientfd w >=? 0 then [EvClose (clientfd w)] else []).
Proof.
  destruct w as [cin d0 q0 inc r0 sfd cfd tr].
  cbn [incoming_stream clientfd_in viddec trace timestamp_queue sockfd clientfd].
  intros -> -> Hlen8 Hts Hlen4 Henq Hbig.
  assert (Hiter : iter (mk_worker (Recvd ts :: Recvd sz :: rest) d0 q0 true
                          r0 sfd cfd tr)
                  = (Break,
                     mk_worker rest d0 q' true 0 sfd cfd
                       (tr ++ [EvRecv 8 8; EvEnqueue (le_decode ts) 0; EvRecv 4 4;
                               EvLog ERROR "Received frame size that is larger than the allocated buffer"]))).
  { unfold stream_mgr_iter, do_recv.
    cbn [incoming_stream clientfd_in recv_from_stream].
    rewrite (take_ge ts) by (rewrite Hlen8; reflexivity).
    rewrite Hlen8. change (Z.of_nat 8) with 8.
    unfold_worker. cbn [Z.eqb Pos.eqb negb].
    destruct (List.list_eq_dec byte_eq_dec ts EOSTREAM) as [?|_];
      [contradiction|].
    rewrite Henq. unfold_worker. cbn [Z.eqb negb recv_from_stream].
    rewrite (take_ge sz) by (rewrite Hlen4; reflexivity).
    rewrite Hlen4. change (Z.of_nat 4) with 4.
    cbn [Z.eqb Pos.eqb negb].
    destruct (Z.gtb_spec (le_decode sz) ENCODED_FRAME_BUF_SIZE) as [_|?];
      [|lia].
    eval_worker. reflexivity. }
  eexists. split; [exact Hiter|].
  cbn [trace clientfd_in viddec]. count_simpl.
  split; [reflexivity|]. split; [reflexivity|]. split; [reflexivity|].
  split; [lia|]. split.
  - intros fuel. unfold stream_mgr. cbn [stream_mgr_loop].
    rewrite Hiter. reflexivity.
  - rewrite cleanup_trace. reflexivity.
Qed.

End Framing.

(** The sample decoder honours the codec contract, with the first
    component of its state as the number of frames held. *)
Lemma lag_decode_holds d frame d' :
  lag_decode_packet d frame = (0, d') -> fst d' = S (fst d).
Proof. intros [= <-]. reflexivity. Qed.

Lemma lag_frame_releases d d' :
  lag_recv_frame d = (0, d') -> fst d = S (fst d').
Proof.
  destruct d as [[|[|n]] [|]]; cbn; intros [= <-]; reflexivity.
Qed.

Lemma lag_again_keeps d d' :
  lag_recv_frame d = (EAGAIN, d') -> fst d' = fst d.
Proof.
  destruct d as [[|[|n]] [|]]; cbn; intros [= <-]; reflexivity.
Qed.

Lemma lag_eof_empty d d' :
  lag_recv_frame d = (ENODATA, d') -> fst d = 0%nat.
Proof.
  destruct d as [[|[|n]] [|]]; cbn; intros [= <-]; reflexivity.
Qed.

Lemma lag_flush_keeps d r d' :
  lag_flush_decoder d = (r, d') -> fst d' = fst d.
Proof. intros [= _ <-]. reflexivity. Qed.




Lemma eostream_flushes_and_drains_witness :
  let w := entry [Recvd EOSTREAM; Recvd ts_bytes] (2%nat, false) [7; 9] 3 4 in
  exists w2,
    sample_loop 1024 4 w = Some w2
    /\ drained w2
    /\ clientfd_in w2 = [Recvd ts_bytes]
    /\ frame_polls (trace w2) = 3.
Proof.
  intros w.
  destruct (eostream_flushes_and_drains 1024 lag_decoder lag_decode_packet
              lag_recv_frame lag_flush_decoder (list Z) fifo_enqueue
              fifo_dequeue w [Recvd ts_bytes] eq_refl eq_refl)
    as (w1 & _ & _ & Hd & _ & _ & _ & Hrun).
  destruct (Hrun 2%nat) with (extra := 0%nat)
    as (w2 & Hloop & _ & Hdone & Hin & _ & _ & _ & Hpolls & _).
  { rewrite Hd. cbn.
    eapply drains_more; [reflexivity | left; reflexivity |].
    eapply drains_more; [reflexivity | left; reflexivity |].
    eapply drains_eof. reflexivity. }
  exists w2. repeat split; assumption.
Defined.

Lemma oversized_frame_terminates_witness :
  let w := sample_entry [Recvd ts_bytes; Recvd (size_bytes x05);
                         Recvd [x61; x62; x63; x64; x65]] in
  exists w',
    sample_iter 4 w = (Break, w')
    /\ clientfd_in w' = [Recvd [x61; x62; x63; x64; x65]]
    /\ packets_received (trace w') = 0.
Proof.
  intros w.
  destruct (oversized_frame_terminates 4 lag_decoder lag_decode_packet
              lag_recv_frame lag_flush_decoder (list Z) fifo_enqueue
              fifo_dequeue w ts_bytes (size_bytes x05)
              [Recvd [x61; x62; x63; x64; x65]]
              [le_decode ts_bytes])
    as (w' & Hstep & _ & Hin & _ & Hpk & _).
  - reflexivity.
  - reflexivity.
  - reflexivity.
  - vm_compute. discriminate.
  - reflexivity.
  - reflexivity.
  - vm_compute. reflexivity.
  - exists w'. repeat split; assumption.
Defined.

End StreamServerProofs.

(** * Properties of set-up, teardown and repeated triggers *)

Module CameraInitProofs.

Import CameraNode CameraInit.

Lemma mapped_app tr1 tr2 : mapped (tr1 ++ tr2) = mapped tr1 ++ mapped tr2.
Proof.
  induction tr1 as [|e tr1 IH]; [reflexivity|].
  destruct e as [| | | | | | | |? ? ? [?|]| | | | | | | | | | | | |]; cbn; rewrite IH;
    reflexivity.
Qed.

Lemma unmapped_app tr1 tr2 :
  unmapped (tr1 ++ tr2) = unmapped tr1 ++ unmapped tr2.
Proof.
  induction tr1 as [|e tr1 IH]; [reflexivity|].
  destruct e; cbn; rewrite IH; reflexivity.
Qed.

Lemma requests_created_app tr1 tr2 :
  requests_created (tr1 ++ tr2)
  = (requests_created tr1 + requests_created tr2)%nat.
Proof.
  induction tr1 as [|e tr1 IH]; [reflexivity|].
  destruct e; cbn; rewrite IH; reflexivity.
Qed.

Lemma unmapped_munmaps (datas : list ptr) (len : Z) :
  unmapped (map (fun data => IvMunmap data len) datas)
  = map (fun data => (data, len)) datas.
Proof.
  induction datas as [|d datas IH]; [reflexivity|]. cbn. rewrite IH. reflexivity.
Qed.

Lemma after_buffers_refl c h tr : after_buffers c 0 [] h tr h tr.
Proof.
  unfold after_buffers. cbn. rewrite !app_nil_r, Nat.add_0_r.
  repeat split; auto.
Qed.

(** Setting up one good buffer. *)
Lemma dma_buffer_loop_step (b : buffer_env) (bufs : list buffer_env) (data : ptr)
    (c : Z) (h : camera_handler_t) (tr : list init_event) :
  0 <= c < 2 ^ 64 - 1 ->
  buffer_good (frame_bytes_ h) b data ->
  exists h1 tr1,
    dma_buffer_loop (b :: bufs) c h tr = dma_buffer_loop bufs (c + 1) h1 tr1
    /\ after_buffers c 1 [data] h tr h1 tr1.
Proof.
  intros Hc (Hcr & Hadd & (yp & up & vp & rest & Hpl & Hy & Hu & Hv) & Hmm).
  cbn [dma_buffer_loop]. rewrite Hcr. cbn [negb].
  destruct (Z.ltb_spec (add_buffer_ret b) 0) as [?|_]; [lia|].
  rewrite Hpl. cbn [push_request frame_bytes_].
  unfold expected_u_plane_bytes in Hu, Hv.
  rewrite Hy, Hu, Hv, !Z.eqb_refl. cbn [negb orb]. rewrite Hmm.
  rewrite CameraNodeProofs.to_size_t_range by lia.
  eexists. eexists. split; [reflexivity|].
  unfold after_buffers, callback_connected.
  cbn [push_mapping push_request requests_ mmap_buffers_ next_req_idx_
         frame_bytes_ dma_frame_buffers_ length].
  rewrite !mapped_app, !unmapped_app, !requests_created_app.
  cbn [mapped unmapped requests_created map app].
  rewrite !app_nil_r, !Nat.add_0_r.
  change (Z.of_nat 1) with 1. rewrite seqZ_cons by lia. cbn [Z.pred Z.sub Z.add Z.opp Z.pos_sub].
  change (seqZ (Z.succ c) 0) with (@nil Z).
  repeat split; try reflexivity.
  intros Hin. rewrite !in_app_iff in Hin. cbn in Hin.
  destruct Hin as [[[Hin|[?|[]]]|[?|[]]]|[?|[]]]; try discriminate. exact Hin.
Qed.

Lemma after_buffers_trans c n1 datas1 h tr h1 tr1 n2 datas2 h2 tr2 :
  after_buffers c n1 datas1 h tr h1 tr1 ->
  after_buffers (c + Z.of_nat n1) n2 datas2 h1 tr1 h2 tr2 ->
  after_buffers c (n1 + n2) (datas1 ++ datas2) h tr h2 tr2.
Proof.
  intros (Hl & Hr & Hm & Hn & Hf & Hd & Hmp & Hun & Hrc & Hcb)
         (Hl' & Hr' & Hm' & Hn' & Hf' & Hd' & Hmp' & Hun' & Hrc' & Hcb').
  unfold after_buffers.
  rewrite Hr', Hr, Hm', Hm, Hn', Hn, Hf', Hf, Hd', Hd, Hmp', Hmp, Hun', Hun,
    Hrc', Hrc, Hf.
  rewrite length_app, Hl, Hl'.
  rewrite <- !app_assoc, map_app.
  rewrite Nat2Z.inj_add, seqZ_app by lia. rewrite map_app.
  repeat split; try reflexivity; try lia.
  intros H. apply Hcb, Hcb', H.
Qed.

(** Setting up a run of good buffers. *)
Lemma dma_buffer_loop_good (fb : Z) (goods : list buffer_env) (datas : list ptr) :
  Forall2 (buffer_good fb) goods datas ->
  forall (rest : list buffer_env) (c : Z) (h : camera_handler_t)
         (tr : list init_event),
    frame_bytes_ h = fb ->
    0 <= c -> c + Z.of_nat (length goods) < 2 ^ 64 ->
    exists h1 tr1,
      dma_buffer_loop (goods ++ rest) c h tr
      = dma_buffer_loop rest (c + Z.of_nat (length goods)) h1 tr1
      /\ after_buffers c (length goods) datas h tr h1 tr1.
Proof.
  induction 1 as [|b data goods datas Hb Hgood IH];
    intros rest c h tr Hfb Hc Hlen.
  - exists h, tr. cbn [app length]. rewrite Z.add_0_r.
    split; [reflexivity | apply after_buffers_refl].
  - cbn [length] in Hlen. subst fb.
    destruct (dma_buffer_loop_step b (goods ++ rest) data c h tr
                ltac:(lia) Hb) as (h1 & tr1 & Hstep & Hafter).
    destruct (IH rest (c + 1) h1 tr1 ltac:(apply Hafter)
                ltac:(lia) ltac:(lia)) as (h2 & tr2 & Hrun & Hafter2).
    exists h2, tr2. split.
    + cbn [app]. rewrite Hstep, Hrun. f_equal. cbn [length]. lia.
    + exact (after_buffers_trans c 1 [data] h tr h1 tr1
               (length goods) datas h2 tr2 Hafter Hafter2).
Qed.

(** A buffer whose set-up fails ends the loop with that error. *)
Lemma dma_buffer_loop_bad (b : buffer_env) (rest : list buffer_env)
    (e : init_error) (c : Z) (h : camera_handler_t) (tr : list init_event) :
  buffer_error (frame_bytes_ h) b = Some e ->
  exists h2 tr2,
    dma_buffer_loop (b :: rest) c h tr = IThrow e h2 (tr2 ++ [IvLog (init_what e)])
    /\ requests_created tr2 = S (requests_created tr)
    /\ mapped tr2 = mapped tr
    /\ unmapped tr2 = unmapped tr
    /\ mmap_buffers_ h2 = mmap_buffers_ h
    /\ (callback_connected (tr2 ++ [IvLog (init_what e)]) -> callback_connected tr).
Proof.
  unfold buffer_error, expected_u_plane_bytes. cbn [dma_buffer_loop].
  unfold throw, callback_connected.
  assert (Hfin : forall (evs tr1 : list init_event) (h2 : camera_handler_t) e0,
             tr1 = tr ++ evs ->
             requests_created evs = 1%nat -> mapped evs = [] -> unmapped evs = [] ->
             ~ In IvConnectCallback evs ->
             mmap_buffers_ h2 = mmap_buffers_ h ->
             exists h3 tr2,
               IThrow e0 h2 (tr1 ++ [IvLog (init_what e0)])
               = IThrow e0 h3 (tr2 ++ [IvLog (init_what e0)])
               /\ requests_created tr2 = S (requests_created tr)
               /\ mapped tr2 = mapped tr
               /\ unmapped tr2 = unmapped tr
               /\ mmap_buffers_ h3 = mmap_buffers_ h
               /\ (In IvConnectCallback (tr2 ++ [IvLog (init_what e0)]) ->
                   In IvConnectCallback tr)).
  { intros evs tr1 h2 e0 -> Hrc Hmp Hun Hcb Hmm. exists h2, (tr ++ evs).
    rewrite requests_created_app, mapped_app, unmapped_app, Hrc, Hmp, Hun.
    rewrite !app_nil_r, Nat.add_1_r. repeat split; try assumption.
    rewrite !in_app_iff. cbn. intros [[?|?]|[?|[]]];
      [assumption | contradiction | discriminate]. }
  destruct (create_ok b); cbn [negb].
  2:{ intros [= <-]. apply (Hfin [IvCreateRequest c false]); try reflexivity.
      cbn. intros [?|[]]. discriminate. }
  destruct (add_buffer_ret b <? 0).
  { intros [= <-].
    apply (Hfin [IvCreateRequest c true; IvAddBuffer c (add_buffer_ret b)]);
      try reflexivity; [rewrite <- app_assoc; reflexivity|].
    cbn. intros [?|[?|[]]]; discriminate. }
  destruct (planes b) as [|yp [|up [|vp ps]]]; try discriminate.
  cbn [push_request frame_bytes_].
  destruct (negb (plane_length yp =? expected_y_plane_bytes (frame_bytes_ h))
            || negb (plane_length up =? expected_y_plane_bytes (frame_bytes_ h) / 4)
            || negb (plane_length vp =? expected_y_plane_bytes (frame_bytes_ h) / 4)).
  { intros [= <-].
    apply (Hfin [IvCreateRequest c true; IvAddBuffer c (add_buffer_ret b)]);
      try reflexivity; [rewrite <- app_assoc; reflexivity|].
    cbn. intros [?|[?|[]]]; discriminate. }
  destruct (mmap_ret b) as [data|]; [discriminate|].
  intros [= <-].
  apply (Hfin [IvCreateRequest c true; IvAddBuffer c (add_buffer_ret b);
               IvMmap (to_size_t (frame_bytes_ h)) (plane_fd yp)
                 (plane_offset yp) None]);
    try reflexivity; [rewrite <- !app_assoc; reflexivity|].
  cbn. intros [?|[?|[?|[]]]]; discriminate.
Qed.

(** A loop that completes has found every buffer good. *)
Lemma dma_buffer_loop_ok_good (bufs : list buffer_env) :
  forall (c : Z) (h : camera_handler_t) (tr : list init_event)
         (h' : camera_handler_t) (tr' : list init_event),
    dma_buffer_loop bufs c h tr = IOk h' tr' ->
    exists datas, Forall2 (buffer_good (frame_bytes_ h)) bufs datas.
Proof.
  induction bufs as [|b bufs IH]; intros c h tr h' tr'.
  - intros _. exists []. constructor.
  - cbn [dma_buffer_loop]. unfold throw.
    destruct (create_ok b) eqn:Hcr; cbn [negb]; [|discriminate].
    destruct (Z.ltb_spec (add_buffer_ret b) 0) as [?|Hadd]; [discriminate|].
    destruct (planes b) as [|yp [|up [|vp ps]]] eqn:Hpl; try discriminate.
    cbn [push_request frame_bytes_].
    destruct (Z.eqb_spec (plane_length yp) (expected_y_plane_bytes (frame_bytes_ h)))
      as [Hy|?]; cbn [negb orb]; [|discriminate].
    destruct (Z.eqb_spec (plane_length up) (expected_y_plane_bytes (frame_bytes_ h) / 4))
      as [Hu|?]; cbn [negb orb]; [|discriminate].
    destruct (Z.eqb_spec (plane_length vp) (expected_y_plane_bytes (frame_bytes_ h) / 4))
      as [Hv|?]; cbn [negb orb]; [|discriminate].
    destruct (mmap_ret b) as [data|] eqn:Hmm; [|discriminate].
    intros Hrun. apply IH in Hrun. destruct Hrun as (datas & Hdatas).
    exists (data :: datas). constructor; [|exact Hdatas].
    unfold buffer_good, expected_u_plane_bytes.
    split; [exact Hcr|]. split; [lia|]. split; [|exact Hmm].
    exists yp, up, vp, ps. repeat split; assumption.
Qed.

Lemma lookup_request_seq (n : nat) (i : nat) (req : Request) :
  map (fun i => mk_Request i RequestPending) (seqZ 0 (Z.of_nat n)) !! i = Some req ->
  (i < n)%nat /\ req = mk_Request (Z.of_nat i) RequestPending.
Proof.
  intros H. change (map ?f ?l) with (f <$> l) in H.
  rewrite list_lookup_fmap in H.
  destruct (seqZ 0 (Z.of_nat n) !! i) as [z|] eqn:Hz; [|discriminate].
  apply lookup_seqZ in Hz. injection H as <-.
  destruct Hz as [-> Hi]. split; [lia|]. f_equal.
Qed.

(** X1: when [init_dma_buffers] completes on a freshly constructed
    handler, every buffer was found good, the request and mapping tables
    have one entry per buffer, request [i] carries cookie [i] and that
    cookie indexes the address [mmap] returned for buffer [i], and the
    completion callback is connected. *)
Theorem init_dma_buffers_tables (allocate_ret : Z) (bufs : list buffer_env)
    (h h' : camera_handler_t) (tr tr' : list init_event) :
  fresh h ->
  Z.of_nat (length bufs) < 2 ^ 64 ->
  init_dma_buffers allocate_ret bufs h tr = IOk h' tr' ->
  exists datas,
    Forall2 (buffer_good (frame_bytes_ h)) bufs datas
    /\ 0 <= allocate_ret
    /\ length (requests_ h') = length bufs
    /\ mmap_buffers_ h' = datas
    /\ (forall (i : nat) (req : Request),
          requests_ h' !! i = Some req ->
          cookie req = Z.of_nat i
          /\ status req = RequestPending
          /\ exists b data,
               bufs !! i = Some b /\ mmap_ret b = Some data
               /\ vec_at (mmap_buffers_ h') (cookie req) = Some data)
    /\ next_req_idx_ h' = 0
    /\ frame_bytes_ h' = frame_bytes_ h
    /\ dma_frame_buffers_ h' = dma_frame_buffers_ h
    /\ callback_connected tr'.
Proof.
  intros (Hreq & Hmap & Hidx) Hlen. unfold init_dma_buffers, throw.
  destruct (Z.ltb_spec allocate_ret 0) as [?|Halloc]; [discriminate|].
  destruct (dma_buffer_loop bufs 0 h (tr ++ [IvAllocate allocate_ret]))
    as [h1 tr1| |] eqn:Hloop; try discriminate.
  intros [= <- <-].
  destruct (dma_buffer_loop_ok_good _ _ _ _ _ _ Hloop) as (datas & Hgood).
  destruct (dma_buffer_loop_good _ _ _ Hgood [] 0 h
              (tr ++ [IvAllocate allocate_ret]) eq_refl ltac:(lia) ltac:(lia))
    as (h2 & tr2 & Hrun & Hafter).
  rewrite app_nil_r, Hloop in Hrun. cbn [dma_buffer_loop] in Hrun.
  injection Hrun as <- <-.
  destruct Hafter as (Hl & Hr & Hm & Hn & Hf & Hd & _).
  rewrite Hreq in Hr. rewrite Hmap in Hm. cbn [app] in Hr, Hm.
  exists datas. split; [exact Hgood|]. split; [exact Halloc|].
  split; [rewrite Hr, length_map, length_seqZ; lia|].
  split; [exact Hm|]. split.
  - intros i req Hi. rewrite Hr in Hi.
    apply lookup_request_seq in Hi. destruct Hi as [Hi ->].
    cbn [cookie status]. split; [reflexivity|]. split; [reflexivity|].
    destruct (lookup_lt_is_Some_2 bufs i Hi) as [b Hb].
    destruct (Forall2_lookup_l _ _ _ _ _ Hgood Hb) as (data & Hdata & Hbg).
    exists b, data. split; [exact Hb|]. split; [apply Hbg|].
    unfold vec_at. destruct (Z.ltb_spec (Z.of_nat i) 0) as [?|_]; [lia|].
    rewrite Nat2Z.id, Hm. exact Hdata.
  - split; [rewrite Hn; exact Hidx|]. split; [exact Hf|]. split; [exact Hd|].
    unfold callback_connected. apply in_app_iff. right. left. reflexivity.
Qed.

Lemma init_dma_buffers_tables_witness :
  exists h' tr',
    init_dma_buffers 2 [sample_buffer 1382400 4096; sample_buffer 1382400 8192]
      (fresh_handler 1382400 4) [] = IOk h' tr'
    /\ mmap_buffers_ h' = [4096; 8192]
    /\ length (requests_ h') = 2%nat.
Proof.
  eexists. eexists. split; [vm_compute; reflexivity|].
  match goal with
  | |- mmap_buffers_ ?h' = _ /\ _ =>
      destruct (init_dma_buffers_tables 2
                  [sample_buffer 1382400 4096; sample_buffer 1382400 8192]
                  (fresh_handler 1382400 4) h' []
                  _ ltac:(repeat split) ltac:(cbn; lia) eq_refl)
        as (datas & Hgood & _ & Hlen & Hm & _)
  end.
  split; [reflexivity | exact Hlen].
Defined.

(** X2: [init_dma_buffers] stops at the first buffer whose set-up fails,
    with that step's error: the buffers before it stay mapped (nothing is
    unmapped), no request is created for the buffers after it, and the
    completion callback is not connected.  A failed [allocate] throws
    before any request is created. *)
Theorem init_dma_buffers_fails_fast (allocate_ret : Z)
    (goods : list buffer_env) (datas : list ptr) (bad : buffer_env)
    (rest : list buffer_env) (e : init_error)
    (h : camera_handler_t) (tr : list init_event) :
  Z.of_nat (length goods) < 2 ^ 64 ->
  Forall2 (buffer_good (frame_bytes_ h)) goods datas ->
  buffer_error (frame_bytes_ h) bad = Some e ->
  (allocate_ret < 0 ->
   init_dma_buffers allocate_ret (goods ++ bad :: rest) h tr
   = IThrow AllocateFailed h
       (tr ++ [IvAllocate allocate_ret; IvLog (init_what AllocateFailed)]))
  /\ (0 <= allocate_ret ->
      exists h' tr',
        init_dma_buffers allocate_ret (goods ++ bad :: rest) h tr
        = IThrow e h' (tr' ++ [IvLog (init_what e)])
        /\ requests_created tr' = (requests_created tr + length goods + 1)%nat
        /\ mapped tr'
           = mapped tr ++ map (fun d => (d, to_size_t (frame_bytes_ h))) datas
        /\ unmapped tr' = unmapped tr
        /\ mmap_buffers_ h' = mmap_buffers_ h ++ datas
        /\ (callback_connected (tr' ++ [IvLog (init_what e)]) ->
            callback_connected tr)).
Proof.
  intros Hlen Hgood Hbad. unfold init_dma_buffers, throw. split.
  - intros Hneg. destruct (Z.ltb_spec allocate_ret 0) as [_|?]; [|lia].
    rewrite <- app_assoc. reflexivity.
  - intros Hpos. destruct (Z.ltb_spec allocate_ret 0) as [?|_]; [lia|].
    destruct (dma_buffer_loop_good _ _ _ Hgood (bad :: rest) 0 h
                (tr ++ [IvAllocate allocate_ret]) eq_refl ltac:(lia) ltac:(lia))
      as (h1 & tr1 & Hrun & Hafter).
    destruct Hafter as (Hl & Hr & Hm & Hn & Hf & Hd & Hmp & Hun & Hrc & Hcb).
    rewrite <- Hf in Hbad.
    destruct (dma_buffer_loop_bad bad rest e (0 + Z.of_nat (length goods)) h1 tr1 Hbad)
      as (h2 & tr2 & Hthrow & Hrc2 & Hmp2 & Hun2 & Hm2 & Hcb2).
    rewrite Hrun, Hthrow. exists h2, tr2. split; [reflexivity|].
    rewrite Hrc2, Hrc, Hmp2, Hmp, Hun2, Hun, Hm2, Hm.
    rewrite requests_created_app, mapped_app, unmapped_app. cbn.
    rewrite !app_nil_r.
    repeat split; try lia.
    intros Hc. apply Hcb2, Hcb in Hc. unfold callback_connected in *.
    apply in_app_iff in Hc. destruct Hc as [Hc|[Hc|[]]]; [exact Hc | discriminate].
Qed.

Lemma init_dma_buffers_fails_fast_witness :
  exists h' tr',
    init_dma_buffers 2
      ([sample_buffer 1382400 4096]
       ++ mk_buffer_env [] false 0 None 0 :: [sample_buffer 1382400 8192])
      (fresh_handler 1382400 4) []
    = IThrow CreateRequestFailed h' (tr' ++ [IvLog (init_what CreateRequestFailed)])
    /\ mapped tr' = [(4096, 1382400)]
    /\ unmapped tr' = [].
Proof.
  destruct (init_dma_buffers_fails_fast 2 [sample_buffer 1382400 4096] [4096]
              (mk_buffer_env [] false 0 None 0) [sample_buffer 1382400 8192]
              CreateRequestFailed (fresh_handler 1382400 4) [])
    as [_ H].
  - cbn. lia.
  - constructor; [|constructor].
    split; [reflexivity|]. split; [cbn; lia|]. split; [|reflexivity].
    eexists. eexists. eexists. eexists. repeat split; reflexivity.
  - reflexivity.
  - destruct (H ltac:(lia)) as (h' & tr' & E & _ & Hmp & Hun & _).
    exists h', tr'. repeat split; assumption.
Defined.

(** X3: every region [init_dma_buffers] mapped is unmapped by the
    destructor, once, in the same order and with the length it was mapped
    with. *)
Theorem destroy_unmaps_what_was_mapped (allocate_ret : Z)
    (bufs : list buffer_env) (h h' : camera_handler_t) (tr' : list init_event) :
  fresh h ->
  Z.of_nat (length bufs) < 2 ^ 64 ->
  init_dma_buffers allocate_ret bufs h [] = IOk h' tr' ->
  unmapped (destroy h') = mapped tr'
  /\ length (unmapped (destroy h')) = length bufs
  /\ unmapped tr' = [].
Proof.
  intros (Hreq & Hmap & Hidx) Hlen. unfold init_dma_buffers, throw.
  destruct (Z.ltb_spec allocate_ret 0) as [?|Halloc]; [discriminate|].
  destruct (dma_buffer_loop bufs 0 h ([] ++ [IvAllocate allocate_ret]))
    as [h1 tr1| |] eqn:Hloop; try discriminate.
  intros [= <- <-].
  destruct (dma_buffer_loop_ok_good _ _ _ _ _ _ Hloop) as (datas & Hgood).
  destruct (dma_buffer_loop_good _ _ _ Hgood [] 0 h
              ([] ++ [IvAllocate allocate_ret]) eq_refl ltac:(lia) ltac:(lia))
    as (h2 & tr2 & Hrun & Hafter).
  rewrite app_nil_r, Hloop in Hrun. cbn [dma_buffer_loop] in Hrun.
  injection Hrun as <- <-.
  destruct Hafter as (Hl & Hr & Hm & Hn & Hf & Hd & Hmp & Hun & _).
  unfold destroy. rewrite !unmapped_app, unmapped_munmaps, mapped_app, Hmp, Hun.
  rewrite Hm, Hmap, Hf. cbn. rewrite !app_nil_r.
  split; [reflexivity|]. split; [|reflexivity].
  rewrite length_map. rewrite <- (Forall2_length _ _ _ Hgood). reflexivity.
Qed.

Lemma destroy_unmaps_what_was_mapped_witness :
  exists h' tr',
    init_dma_buffers 2 [sample_buffer 1382400 4096; sample_buffer 1382400 8192]
      (fresh_handler 1382400 4) [] = IOk h' tr'
    /\ unmapped (destroy h') = mapped tr'.
Proof.
  eexists. eexists. split; [vm_compute; reflexivity|].
  eapply (destroy_unmaps_what_was_mapped 2
            [sample_buffer 1382400 4096; sample_buffer 1382400 8192]
            (fresh_handler 1382400 4)).
  - repeat split.
  - cbn. lia.
  - vm_compute. reflexivity.
Defined.

(** X4: after a completed [init_dma_buffers], the completion callback is
    defined for every request of the ring, whatever status the vendor
    library has given it since: a cancelled request leaves the process
    untouched, any other one appends to the frame queue the address
    [mmap] returned for that request's own buffer. *)
Theorem request_complete_after_init (allocate_ret : Z)
    (bufs : list buffer_env) (h h' : camera_handler_t)
    (tr tr' : list init_event) (p : process) (r : nat) :
  fresh h ->
  Z.of_nat (length bufs) < 2 ^ 64 ->
  init_dma_buffers allocate_ret bufs h tr = IOk h' tr' ->
  map cookie (requests_ (cam p)) = map cookie (requests_ h') ->
  mmap_buffers_ (cam p) = mmap_buffers_ h' ->
  (r < length bufs)%nat ->
  exists req b data,
    requests_ (cam p) !! r = Some req
    /\ cookie req = Z.of_nat r
    /\ bufs !! r = Some b /\ mmap_ret b = Some data
    /\ (status req = RequestCancelled -> request_complete r p = Some p)
    /\ (status req <> RequestCancelled ->
        exists p', request_complete r p = Some p'
                   /\ frame_queue p' = frame_queue p ++ [data]
                   /\ trace p' = trace p ++ [EvLog INFO "Request completed";
                                             EvEnqueue data; EvSemPost;
                                             EvReuse (Z.of_nat r)]).
Proof.
  intros Hfresh Hlen Hinit Hcookies Hmaps Hr.
  pose proof Hinit as Hinit'.
  unfold init_dma_buffers, throw in Hinit'.
  destruct (Z.ltb_spec allocate_ret 0) as [?|Halloc]; [discriminate|].
  destruct (dma_buffer_loop bufs 0 h (tr ++ [IvAllocate allocate_ret]))
    as [h1 tr1| |] eqn:Hloop; try discriminate.
  injection Hinit' as <- <-.
  destruct (dma_buffer_loop_ok_good _ _ _ _ _ _ Hloop) as (datas & Hgood).
  destruct (dma_buffer_loop_good _ _ _ Hgood [] 0 h
              (tr ++ [IvAllocate allocate_ret]) eq_refl ltac:(lia) ltac:(lia))
    as (h2 & tr2 & Hrun & Hafter).
  rewrite app_nil_r, Hloop in Hrun. cbn [dma_buffer_loop] in Hrun.
  injection Hrun as <- <-.
  destruct Hafter as (Hl & Hreqs & Hm & _).
  destruct Hfresh as (Hreq0 & Hmap0 & _).
  rewrite Hreq0 in Hreqs. rewrite Hmap0 in Hm. cbn [app] in Hreqs, Hm.
  assert (Hlenp : length (requests_ (cam p)) = length bufs).
  { rewrite <- (length_map cookie), Hcookies, Hreqs, !length_map, length_seqZ. lia. }
  destruct (lookup_lt_is_Some_2 (requests_ (cam p)) r ltac:(lia)) as [req Hreq].
  assert (Hck : cookie req = Z.of_nat r).
  { assert (Hmc : map cookie (requests_ (cam p)) !! r = Some (cookie req)).
    { change (map ?f ?l) with (f <$> l). rewrite list_lookup_fmap, Hreq. reflexivity. }
    rewrite Hcookies, Hreqs in Hmc.
    change (map ?f ?l) with (f <$> l) in Hmc.
    rewrite <- list_fmap_compose, list_lookup_fmap in Hmc.
    destruct (seqZ 0 (Z.of_nat (length bufs)) !! r) as [z|] eqn:Hz; [|discriminate].
    apply lookup_seqZ in Hz. destruct Hz as [-> _]. cbn in Hmc.
    injection Hmc as <-. reflexivity. }
  destruct (lookup_lt_is_Some_2 bufs r Hr) as [b Hb].
  destruct (Forall2_lookup_l _ _ _ _ _ Hgood Hb) as (data & Hdata & Hbg).
  exists req, b, data. split; [exact Hreq|]. split; [exact Hck|].
  split; [exact Hb|]. split; [apply Hbg|].
  assert (Hvec : vec_at (mmap_buffers_ (cam p)) (cookie req) = Some data).
  { unfold vec_at. rewrite Hck.
    destruct (Z.ltb_spec (Z.of_nat r) 0) as [?|_]; [lia|].
    rewrite Nat2Z.id, Hmaps, Hm. exact Hdata. }
  destruct p as [run fd err sem fq hp trp]. cbn [cam] in *.
  unfold request_complete. cbn [cam]. rewrite Hreq. split.
  - intros ->. reflexivity.
  - intros Hst.
    destruct (req_status_eqb (status req) RequestCancelled) eqn:E.
    { destruct (status req); try discriminate. congruence. }
    rewrite Hvec. eexists. split; [reflexivity|].
    cbn [log emit set_frame_queue set_queue_counter set_cam set_requests
           trace frame_queue].
    rewrite <- !app_assoc, Hck. split; reflexivity.
Qed.

Lemma request_complete_after_init_witness :
  exists p',
    request_complete 1
      {| running := 1; sockfd := 5; errno := 0;
         queue_counter := mk_sem 0 false; frame_queue := [];
         cam := mk_camera_handler
                  [mk_Request 0 RequestComplete; mk_Request 1 RequestComplete]
                  [4096; 8192] 0 1382400 4;
         trace := [] |} = Some p'
    /\ frame_queue p' = [8192].
Proof.
  destruct (request_complete_after_init 2
              [sample_buffer 1382400 4096; sample_buffer 1382400 8192]
              (fresh_handler 1382400 4)
              (mk_camera_handler
                 [mk_Request 0 RequestPending; mk_Request 1 RequestPending]
                 [4096; 8192] 0 1382400 4)
              []
              [IvAllocate 2;
               IvCreateRequest 0 true; IvAddBuffer 0 0;
               IvMmap 1382400 7 0 (Some 4096);
               IvCreateRequest 1 true; IvAddBuffer 1 0;
               IvMmap 1382400 7 0 (Some 8192);
               IvConnectCallback]
              {| running := 1; sockfd := 5; errno := 0;
                 queue_counter := mk_sem 0 false; frame_queue := [];
                 cam := mk_camera_handler
                          [mk_Request 0 RequestComplete; mk_Request 1 RequestComplete]
                          [4096; 8192] 0 1382400 4;
                 trace := [] |} 1%nat)
    as (req & b & data & Hreq & _ & Hb & Hdata & _ & Hrun).
  - repeat split.
  - cbn. lia.
  - vm_compute. reflexivity.
  - reflexivity.
  - reflexivity.
  - cbn. lia.
  - cbn in Hreq, Hb. injection Hreq as <-. injection Hb as <-.
    cbn in Hdata. injection Hdata as <-.
    destruct (Hrun ltac:(discriminate)) as (p' & E & Hq & _).
    exists p'. split; assumption.
Defined.

(** ** Plane sizes *)

Lemma frame_bytes_value (cfg : config) (h : camera_handler_t) :
  let y := frame_width cfg * frame_height cfg in
  0 <= y -> y + 2 * (y / 4) <= INT_MAX ->
  frame_bytes_ (init_frame_config cfg h) = y + 2 * (y / 4).
Proof.
  intros y Hy Hfit. unfold init_frame_config. cbn [frame_bytes_]. fold y.
  assert (Hq : 0 <= y / 4) by (apply Z.div_pos; lia).
  assert (Hmax : INT_MAX = 2147483647) by reflexivity.
  assert (Humax : UINT_MAX = 4294967295) by reflexivity.
  assert (Hmin : INT_MIN = -2147483648) by reflexivity.
  rewrite (CameraNodeProofs.to_uint_range y) by lia.
  rewrite (CameraNodeProofs.to_uint_range (y + y / 4)) by lia.
  rewrite (CameraNodeProofs.to_uint_range (y + y / 4 + y / 4)) by lia.
  rewrite CameraNodeProofs.to_int_range by lia. lia.
Qed.

Lemma expected_y_value (y : Z) :
  0 <= y -> 2 * (y + 2 * (y / 4)) <= INT_MAX ->
  expected_y_plane_bytes (y + 2 * (y / 4)) = 4 * (y / 4) + 2 * (y mod 4) / 3.
Proof.
  intros Hy Hfit. unfold expected_y_plane_bytes.
  assert (Hq : 0 <= y / 4) by (apply Z.div_pos; lia).
  assert (Hmax : INT_MAX = 2147483647) by reflexivity.
  assert (Humax : UINT_MAX = 4294967295) by reflexivity.
  assert (Hmin : INT_MIN = -2147483648) by reflexivity.
  pose proof (Z.div_mod y 4 ltac:(lia)) as Hdm.
  pose proof (Z.mod_pos_bound y 4 ltac:(lia)) as Hr.
  rewrite CameraNodeProofs.to_int_range by lia.
  rewrite Z.quot_div_nonneg by lia.
  replace ((y + 2 * (y / 4)) * 2) with (2 * (y mod 4) + (4 * (y / 4)) * 3) by lia.
  rewrite Z.div_add by lia.
  assert (0 <= 2 * (y mod 4) / 3 <= 2).
  { split; [apply Z.div_pos; lia|].
    apply Z.div_le_upper_bound; lia. }
  rewrite CameraNodeProofs.to_uint_range by lia. lia.
Qed.

(** X5: the plane sizes [init_dma_buffers] expects are derived back from
    the frame size [init_frame_config] stored.  The expected chroma plane
    size is always floor(W*H/4); the expected luma plane size is W*H
    exactly when W*H is a multiple of 4, and smaller otherwise, in which
    case a buffer whose luma plane has W*H bytes is refused with the
    plane-size error. *)
Theorem plane_sizes_from_frame_config (cfg : config) (h : camera_handler_t) :
  let y := frame_width cfg * frame_height cfg in
  let fb := frame_bytes_ (init_frame_config cfg h) in
  0 <= y ->
  2 * (y + 2 * (y / 4)) <= INT_MAX ->
  expected_u_plane_bytes fb = y / 4
  /\ expected_y_plane_bytes fb <= y
  /\ (expected_y_plane_bytes fb = y <-> y mod 4 = 0)
  /\ (y mod 4 <> 0 ->
      forall (b : buffer_env) (y_plane u_plane v_plane : plane) (rest : list plane),
        create_ok b = true -> 0 <= add_buffer_ret b ->
        planes b = y_plane :: u_plane :: v_plane :: rest ->
        plane_length y_plane = y ->
        buffer_error fb b = Some PlaneSizeMismatch).
Proof.
  intros y fb Hy Hfit.
  assert (Hfb : fb = y + 2 * (y / 4)).
  { subst fb. apply frame_bytes_value; [exact Hy|].
    assert (0 <= y / 4) by (apply Z.div_pos; lia). fold y. lia. }
  pose proof (expected_y_value y Hy Hfit) as Hey. rewrite <- Hfb in Hey.
  pose proof (Z.div_mod y 4 ltac:(lia)) as Hdm.
  pose proof (Z.mod_pos_bound y 4 ltac:(lia)) as Hr.
  assert (Hcases : y mod 4 = 0 \/ y mod 4 = 1 \/ y mod 4 = 2 \/ y mod 4 = 3) by lia.
  assert (Hthird : (y mod 4 = 0 /\ 2 * (y mod 4) / 3 = 0)
                   \/ (y mod 4 <> 0 /\ 0 <= 2 * (y mod 4) / 3 < y mod 4)).
  { destruct Hcases as [E|[E|[E|E]]]; rewrite E;
      [left | right | right | right]; split; try lia;
      [change (2 * 0 / 3) with 0 | change (2 * 1 / 3) with 0
      | change (2 * 2 / 3) with 1 | change (2 * 3 / 3) with 2]; lia. }
  split; [|split; [|split]].
  - unfold expected_u_plane_bytes. rewrite Hey.
    replace (4 * (y / 4) + 2 * (y mod 4) / 3)
      with (2 * (y mod 4) / 3 + (y / 4) * 4) by lia.
    rewrite Z.div_add by lia.
    rewrite (Z.div_small (2 * (y mod 4) / 3) 4) by lia. lia.
  - lia.
  - lia.
  - intros Hne b yp up vp rest Hcr Hadd Hpl Hlen.
    unfold buffer_error. rewrite Hcr. cbn [negb].
    destruct (Z.ltb_spec (add_buffer_ret b) 0) as [?|_]; [lia|].
    rewrite Hpl.
    destruct (Z.eqb_spec (plane_length yp) (expected_y_plane_bytes fb)) as [E|_];
      [lia | reflexivity].
Qed.

Lemma plane_sizes_from_frame_config_witness :
  let cfg := mk_config 4 1280 720 16667 16667 in
  expected_u_plane_bytes (frame_bytes_ (init_frame_config cfg sample_handler))
  = 1280 * 720 / 4.
Proof.
  intros cfg.
  apply (plane_sizes_from_frame_config cfg sample_handler); vm_compute; congruence.
Defined.

(** ** Repeated triggers *)

Lemma reuses_app tr1 tr2 : reuses (tr1 ++ tr2) = reuses tr1 + reuses tr2.
Proof.
  induction tr1 as [|e tr1 IH]; [reflexivity|].
  destruct e; cbn [app reuses]; rewrite IH; lia.
Qed.

Lemma cookie_at_requests (h h' : camera_handler_t) (i : Z) :
  requests_ h' = requests_ h -> cookie_at h' i = cookie_at h i.
Proof. unfold cookie_at. intros ->. reflexivity. Qed.

(** What a run of accepted calls leaves behind. *)
Lemma queue_requests_ring (rets : list Z) :
  forall p : process,
    ring_ok (cam p) ->
    sem_getvalue (queue_counter p) <= to_int (dma_frame_buffers_ (cam p) - 2) ->
    Forall (fun r => 0 <= r) rets ->
    let n := Z.of_nat (length (requests_ (cam p))) in
    exists p',
      queue_requests rets p = Ok p'
      /\ requests_ (cam p') = requests_ (cam p)
      /\ dma_frame_buffers_ (cam p') = dma_frame_buffers_ (cam p)
      /\ queue_counter p' = queue_counter p
      /\ frame_queue p' = frame_queue p
      /\ next_req_idx_ (cam p')
         = (next_req_idx_ (cam p) + Z.of_nat (length rets)) mod n
      /\ submissions (trace p')
         = submissions (trace p)
           ++ map (fun i => cookie_at (cam p) ((next_req_idx_ (cam p) + i) mod n))
                (seqZ 0 (Z.of_nat (length rets)))
      /\ reuses (trace p') = reuses (trace p).
Proof.
  induction rets as [|r rets IH]; intros p Hring Hsem Hrets n.
  - exists p. cbn [queue_requests length]. destruct Hring as [Hidx _].
    rewrite Z.add_0_r, Z.mod_small by (fold n in Hidx; lia).
    cbn. rewrite app_nil_r. repeat split.
  - inversion Hrets as [|? ? Hr Hrets']; subst.
    pose proof Hring as [Hidx Hlen]. fold n in Hidx, Hlen.
    pose proof (CameraNodeProofs.queue_request_cases r p) as Hc. cbv zeta in Hc.
    destruct (CameraNodeProofs.vec_at_in_range (requests_ (cam p))
                (next_req_idx_ (cam p)) Hidx) as [r0 Hr0].
    destruct Hc as [[Hgt _]|[(_ & Hnone & _)|[(req & _ & _ & Hneg & _)|(req & _ & Hreq & _ & E)]]];
      [lia | congruence | lia |].
    cbn [queue_requests]. rewrite E.
    rewrite CameraNodeProofs.ring_advance in * by assumption.
    set (p1 := set_cam _ _) in *.
    assert (Hreqs1 : requests_ (cam p1) = requests_ (cam p)) by reflexivity.
    assert (Hring1 : ring_ok (cam p1)).
    { unfold ring_ok. rewrite Hreqs1. subst p1.
      cbn [cam set_cam set_next_req_idx next_req_idx_].
      pose proof (Z.mod_pos_bound (next_req_idx_ (cam p) + 1) n ltac:(lia)).
      fold n. lia. }
    destruct (IH p1 Hring1 Hsem Hrets')
      as (p' & Hrun & Hreqs & Hdma & Hqc & Hfq & Hnext & Hsub & Hreu).
    exists p'. split; [exact Hrun|].
    rewrite Hreqs, Hdma, Hqc, Hfq, Hnext, Hsub, Hreu, Hreqs1.
    subst p1. cbn [cam set_cam set_next_req_idx next_req_idx_ trace emit
                     queue_counter frame_queue dma_frame_buffers_ requests_].
    fold n. rewrite CameraNodeProofs.submissions_app, reuses_app.
    cbn [submissions reuses length].
    repeat split.
    + rewrite Zplus_mod_idemp_l. f_equal. lia.
    + rewrite <- app_assoc. f_equal.
      replace (Z.of_nat (S (length rets))) with (1 + Z.of_nat (length rets)) by lia.
      rewrite seqZ_app by lia. rewrite map_app.
      change (seqZ 0 1) with [0]. cbn [map app].
      rewrite (Z.add_0_r (next_req_idx_ (cam p))).
      rewrite (Z.mod_small (next_req_idx_ (cam p)) n) by lia.
      unfold cookie_at at 2. rewrite Hreq. f_equal.
      change (0 + 1) with (1 + 0).
      rewrite <- (fmap_add_seqZ 1 0). change (map ?f ?l) with (f <$> l).
      rewrite <- list_fmap_compose. apply list_fmap_ext.
      intros i z _. cbn [compose].
      rewrite Zplus_mod_idemp_l.
      unfold cookie_at. cbn [set_next_req_idx requests_].
      replace (next_req_idx_ (cam p) + 1 + z) with (next_req_idx_ (cam p) + (1 + z)) by lia.
      reflexivity.
    + lia.
Qed.

(** X6: the backpressure check reads only the semaphore, which
    [queue_request] does not change: with the count at most N - 2 and the
    vendor library accepting, any number of consecutive calls succeed.
    They walk round the ring from the cursor, so after as many calls as
    the ring has requests the cursor is back where it started, and one
    call more submits again the request the first call submitted, without
    any [reuse] in between. *)
Theorem queue_request_round_robin (rets : list Z) (p : process) :
  let n := Z.of_nat (length (requests_ (cam p))) in
  let idx := next_req_idx_ (cam p) in
  ring_ok (cam p) ->
  sem_getvalue (queue_counter p) <= to_int (dma_frame_buffers_ (cam p) - 2) ->
  Forall (fun r => 0 <= r) rets ->
  exists p',
    queue_requests rets p = Ok p'
    /\ next_req_idx_ (cam p') = (idx + Z.of_nat (length rets)) mod n
    /\ submissions (trace p')
       = submissions (trace p)
         ++ map (fun i => cookie_at (cam p) ((idx + i) mod n))
              (seqZ 0 (Z.of_nat (length rets)))
    /\ queue_counter p' = queue_counter p
    /\ reuses (trace p') = reuses (trace p)
    /\ (Z.of_nat (length rets) = n -> next_req_idx_ (cam p') = idx)
    /\ (Z.of_nat (length rets) = n + 1 ->
        exists mid,
          submissions (trace p')
          = submissions (trace p)
            ++ [cookie_at (cam p) idx] ++ mid ++ [cookie_at (cam p) idx]).
Proof.
  intros n idx Hring Hsem Hrets.
  destruct (queue_requests_ring rets p Hring Hsem Hrets)
    as (p' & Hrun & _ & _ & Hqc & _ & Hnext & Hsub & Hreu).
  fold n idx in Hnext, Hsub.
  destruct Hring as [Hidx Hlen]. fold n idx in Hidx.
  assert (Hwrap : (idx + n) mod n = idx).
  { replace (idx + n) with (idx + 1 * n) by lia.
    rewrite Z_mod_plus_full. apply Z.mod_small. lia. }
  exists p'. split; [exact Hrun|]. split; [exact Hnext|].
  split; [exact Hsub|]. split; [exact Hqc|]. split; [exact Hreu|]. split.
  - intros Hk. rewrite Hnext, Hk. exact Hwrap.
  - intros Hk. rewrite Hsub, Hk.
    rewrite seqZ_app by lia. rewrite (seqZ_cons 0 n) by lia.
    rewrite map_app. cbn [map app].
    exists (map (fun i => cookie_at (cam p) ((idx + i) mod n))
              (seqZ (Z.succ 0) (Z.pred n))).
    rewrite Z.add_0_r, Z.add_0_l, (Z.mod_small idx n) by lia.
    rewrite (seqZ_cons n 1) by lia. cbn [map Z.pred Z.add Z.pos_sub seqZ].
    change (seqZ (Z.succ n) 0) with (@nil Z). cbn [map].
    rewrite Hwrap. reflexivity.
Qed.

Lemma queue_request_round_robin_witness :
  exists p',
    queue_requests [0; 0; 0; 0; 0] (sample_process 0 5) = Ok p'
    /\ next_req_idx_ (cam p') = 0
    /\ submissions (trace p') = [3; 0; 1; 2; 3].
Proof.
  destruct (queue_request_round_robin [0; 0; 0; 0; 0] (sample_process 0 5))
    as (p' & Hrun & Hnext & Hsub & _).
  - unfold ring_ok. vm_compute. repeat split; congruence.
  - vm_compute. congruence.
  - repeat constructor; lia.
  - exists p'. split; [exact Hrun|]. split; [exact Hnext | exact Hsub].
Defined.

(** ** Stream configuration *)

(** X7: [init_camera_config] calls [validate] a second time whenever the
    first answer is not [Invalid], and it is the second answer that is
    compared with [Adjusted].  The configuration is applied exactly when
    one was generated, the first answer is not [Invalid], the second is
    not [Adjusted], and [configure] does not fail; so a configuration
    reported [Adjusted] by the first call and [Valid] by the second is
    applied. *)
Theorem init_camera_config_accepts (cfg : config) (e : config_env)
    (h : camera_handler_t) (tr : list init_event) :
  ((exists h' tr', init_camera_config cfg e h tr = IOk h' tr')
   <-> generate_ok e = true /\ validate_1 e <> Invalid
       /\ validate_2 e <> Adjusted /\ 0 <= configure_ret e)
  /\ (generate_ok e = true -> validate_1 e = Adjusted -> validate_2 e = Valid ->
      0 <= configure_ret e ->
      init_camera_config cfg e h tr
      = IOk h (tr ++ [IvGenerateConfiguration true;
                      IvStreamConfig (to_uint (frame_width cfg))
                        (to_uint (frame_height cfg))
                        (to_uint (dma_frame_buffers_ h));
                      IvValidate Adjusted; IvValidate Valid;
                      IvConfigure (configure_ret e)]))
  /\ (generate_ok e = true -> validate_1 e = Invalid ->
      init_camera_config cfg e h tr
      = IThrow ConfigInvalid h
          (tr ++ [IvGenerateConfiguration true;
                  IvStreamConfig (to_uint (frame_width cfg))
                    (to_uint (frame_height cfg))
                    (to_uint (dma_frame_buffers_ h));
                  IvValidate Invalid; IvLog (init_what ConfigInvalid)])).
Proof.
  unfold init_camera_config, throw. split; [|split].
  - destruct (generate_ok e); cbn [negb].
    2:{ split; [intros (? & ? & ?); discriminate | intros (? & _); discriminate]. }
    destruct (validate_1 e); cbn [cfg_status_eqb];
      destruct (validate_2 e); cbn [cfg_status_eqb];
      destruct (Z.ltb_spec (configure_ret e) 0);
      (split;
       [ intros (h' & tr' & Heq); try discriminate Heq;
         repeat split; try discriminate; lia
       | intros (_ & Hv1 & Hv2 & Hcf); try congruence; try lia; eauto ]).
  - intros -> -> -> Hc. cbn [negb cfg_status_eqb].
    destruct (Z.ltb_spec (configure_ret e) 0); [lia|].
    rewrite <- !app_assoc. reflexivity.
  - intros -> ->. cbn [negb cfg_status_eqb].
    rewrite <- !app_assoc. reflexivity.
Qed.

Lemma init_camera_config_accepts_witness :
  exists tr',
    init_camera_config (mk_config 4 1280 720 16667 16667)
      (mk_config_env true Adjusted Valid 0) (fresh_handler 1382400 4) []
    = IOk (fresh_handler 1382400 4) tr'.
Proof.
  eexists.
  apply (init_camera_config_accepts (mk_config 4 1280 720 16667 16667)
           (mk_config_env true Adjusted Valid 0) (fresh_handler 1382400 4) []);
    [reflexivity | reflexivity | reflexivity | cbn; lia].
Defined.

(** ** From construction to the first triggers *)

Lemma init_dma_buffers_ring (allocate_ret : Z) (bufs : list buffer_env)
    (h h' : camera_handler_t) (tr tr' : list init_event) :
  fresh h ->
  Z.of_nat (length bufs) < 2 ^ 64 ->
  init_dma_buffers allocate_ret bufs h tr = IOk h' tr' ->
  requests_ h'
  = map (fun i => mk_Request i RequestPending) (seqZ 0 (Z.of_nat (length bufs)))
  /\ next_req_idx_ h' = 0
  /\ dma_frame_buffers_ h' = dma_frame_buffers_ h.
Proof.
  intros (Hreq & Hmap & Hidx) Hlen. unfold init_dma_buffers, throw.
  destruct (Z.ltb_spec allocate_ret 0) as [?|Halloc]; [discriminate|].
  destruct (dma_buffer_loop bufs 0 h (tr ++ [IvAllocate allocate_ret]))
    as [h1 tr1| |] eqn:Hloop; try discriminate.
  intros [= <- <-].
  destruct (dma_buffer_loop_ok_good _ _ _ _ _ _ Hloop) as (datas & Hgood).
  destruct (dma_buffer_loop_good _ _ _ Hgood [] 0 h
              (tr ++ [IvAllocate allocate_ret]) eq_refl ltac:(lia) ltac:(lia))
    as (h2 & tr2 & Hrun & Hafter).
  rewrite app_nil_r, Hloop in Hrun. cbn [dma_buffer_loop] in Hrun.
  injection Hrun as <- <-.
  destruct Hafter as (Hl & Hr & Hm & Hn & Hf & Hd & _).
  rewrite Hreq in Hr. cbn [app] in Hr.
  split; [exact Hr|]. split; [rewrite Hn; exact Hidx|exact Hd].
Qed.

Lemma cookie_at_seq (h : camera_handler_t) (n : nat) (j : Z) :
  requests_ h
  = map (fun i => mk_Request i RequestPending) (seqZ 0 (Z.of_nat n)) ->
  0 <= j < Z.of_nat n -> cookie_at h j = j.
Proof.
  intros Hr Hj. unfold cookie_at, vec_at. rewrite Hr.
  destruct (Z.ltb_spec j 0) as [?|_]; [lia|].
  change (map (fun i => mk_Request i RequestPending) (seqZ 0 (Z.of_nat n)))
    with ((fun i => mk_Request i RequestPending) <$> seqZ 0 (Z.of_nat n)).
  rewrite list_lookup_fmap, lookup_seqZ_lt by lia.
  cbn. lia.
Qed.

(** X13: the j-th accepted trigger after construction captures into
    buffer [j mod n].  After a completed [init_dma_buffers] that set up
    [n >= 1] buffers, consecutive [queue_request] calls that pass the
    backpressure check and are accepted by the vendor library submit the
    cookies 0, 1, .., n-1, 0, 1, .. in this order.  When the allocator
    made no buffer at all, [init_dma_buffers] still completes, and the
    first trigger that passes the backpressure check indexes the empty
    request table. *)
Theorem triggers_after_init (allocate_ret : Z) (bufs : list buffer_env)
    (h h' : camera_handler_t) (tr tr' : list init_event) (rets : list Z)
    (p : process) :
  let n := Z.of_nat (length bufs) in
  fresh h ->
  n <= INT_MAX ->
  init_dma_buffers allocate_ret bufs h tr = IOk h' tr' ->
  cam p = h' ->
  sem_getvalue (queue_counter p) <= to_int (dma_frame_buffers_ h - 2) ->
  Forall (fun r => 0 <= r) rets ->
  (bufs <> [] ->
   exists p',
     queue_requests rets p = Ok p'
     /\ submissions (trace p')
        = submissions (trace p)
          ++ map (fun j => j mod n) (seqZ 0 (Z.of_nat (length rets)))
     /\ next_req_idx_ (cam p') = Z.of_nat (length rets) mod n)
  /\ (bufs = [] -> forall vendor_ret, queue_request vendor_ret p = Undefined).
Proof.
  intros n Hfresh Hn Hinit Hcam Hsem Hrets.
  assert (En : n = Z.of_nat (length bufs)) by reflexivity. clearbody n.
  assert (Hmax : INT_MAX = 2147483647) by reflexivity.
  assert (Hn64 : Z.of_nat (length bufs) < 2 ^ 64) by lia.
  destruct (init_dma_buffers_ring _ _ _ _ _ _ Hfresh Hn64 Hinit)
    as (Hr & Hidx & Hd).
  rewrite <- Hcam in Hr, Hidx, Hd.
  assert (Hlen : Z.of_nat (length (requests_ (cam p))) = n).
  { rewrite Hr, length_map, length_seqZ. lia. }
  rewrite <- En in Hr.
  split.
  - intros Hne.
    assert (Hpos : 0 < n) by (destruct bufs; [congruence|cbn [length] in En; lia]).
    destruct (queue_requests_ring rets p) as (p' & E & _ & _ & _ & _ & Hcur & Hsub & _).
    + unfold ring_ok. rewrite Hlen, Hidx. lia.
    + rewrite Hd. exact Hsem.
    + exact Hrets.
    + exists p'. split; [exact E|]. rewrite Hlen, Hidx in *.
      split; [|rewrite Hcur; f_equal; lia].
      rewrite Hsub. f_equal. apply map_ext_in. intros j _.
      cbn [Z.add].
      apply (cookie_at_seq _ (length bufs)); [rewrite <- En; exact Hr|].
      rewrite <- En. apply Z.mod_pos_bound. lia.
  - intros -> vendor_ret. unfold queue_request.
    rewrite Hd.
    destruct (Z.gtb_spec (sem_getvalue (queue_counter p))
                (to_int (dma_frame_buffers_ h - 2))) as [?|_]; [lia|].
    cbn [length] in En. subst n. rewrite Hr, Hidx. reflexivity.
Qed.

Lemma triggers_after_init_witness :
  exists h' tr' p',
    init_dma_buffers 2 [sample_buffer 1382400 4096; sample_buffer 1382400 8192]
      (fresh_handler 1382400 4) [] = IOk h' tr'
    /\ queue_requests [0; 0; 0] (set_cam h' (sample_process 0 5)) = Ok p'
    /\ submissions (trace p') = [0; 1; 0].
Proof.
  eexists. eexists.
  match goal with
  | |- exists p', ?I = IOk ?h' ?tr' /\ _ =>
      assert (Hinit : I = IOk h' tr') by (vm_compute; reflexivity);
        destruct (triggers_after_init 2
                    [sample_buffer 1382400 4096; sample_buffer 1382400 8192]
                    (fresh_handler 1382400 4) h' [] tr' [0; 0; 0]
                    (set_cam h' (sample_process 0 5)))
          as [Hgo _];
        [repeat split|vm_compute; discriminate|exact Hinit|reflexivity
        |vm_compute; discriminate|repeat constructor; lia|]
  end.
  destruct Hgo as (p' & E & Hsub & _); [discriminate|].
  exists p'. split; [exact Hinit|]. split; [exact E|exact Hsub].
Defined.

(** ** The constructor as a whole *)

Lemma camera_starts_app tr1 tr2 :
  camera_starts (tr1 ++ tr2) = camera_starts tr1 ++ camera_starts tr2.
Proof.
  induction tr1 as [|e tr1 IH]; [reflexivity|].
  destruct e; cbn; rewrite ?IH; reflexivity.
Qed.

Lemma quiet_nil : quiet [].
Proof. split; [reflexivity|]. split; [constructor|intros []]. Qed.

Lemma quiet_app (a b : list init_event) : quiet a -> quiet b -> quiet (a ++ b).
Proof.
  intros (Ha1 & Ha2 & Ha3) (Hb1 & Hb2 & Hb3). unfold quiet, callback_connected.
  rewrite camera_starts_app, Ha1, Hb1, Forall_app, in_app_iff.
  split; [reflexivity|]. split; [split; assumption|tauto].
Qed.

Ltac quiet_events :=
  split; [reflexivity|];
  split; [repeat (apply List.Forall_cons; [intros []|]); apply List.Forall_nil|];
  unfold callback_connected; cbn [In];
  intuition discriminate.

Ltac stage_leaf :=
  unfold throw; rewrite <- ?app_assoc; cbn [app];
  repeat match goal with
         | |- _ /\ _ => split
         | |- exists _, _ => eexists
         | |- _ = _ => reflexivity
         | |- _ <> _ => discriminate
         | |- quiet _ => quiet_events
         end.

Lemma init_camera_manager_post (e : manager_env) (h : camera_handler_t)
    (tr : list init_event) :
  match init_camera_manager e h tr with
  | IOk h' tr' =>
      h' = h /\ manager_ok e
      /\ exists new, tr' = tr ++ new /\ quiet new /\ mapped new = []
  | IThrow err h' tr' =>
      err <> StartFailed /\ exists new, tr' = tr ++ new /\ quiet new
  | IUndefined => False
  end.
Proof.
  unfold init_camera_manager, manager_ok.
  destruct (Z.ltb_spec (cm_start_ret e) 0); [stage_leaf|].
  destruct (camera_ids e) as [|id ids]; [stage_leaf|].
  destruct (get_ok e); cbn [negb]; [|stage_leaf].
  destruct (Z.ltb_spec (acquire_ret e) 0); stage_leaf; try lia.
Qed.

Lemma init_camera_config_post (cfg : config) (e : config_env)
    (h : camera_handler_t) (tr : list init_event) :
  match init_camera_config cfg e h tr with
  | IOk h' tr' =>
      h' = h /\ configuration_ok e
      /\ exists new, tr' = tr ++ new /\ quiet new /\ mapped new = []
  | IThrow err h' tr' =>
      err <> StartFailed /\ exists new, tr' = tr ++ new /\ quiet new
  | IUndefined => False
  end.
Proof.
  unfold init_camera_config, configuration_ok.
  destruct (generate_ok e); cbn [negb]; [|stage_leaf].
  destruct (validate_1 e); cbn [cfg_status_eqb]; try solve [stage_leaf];
    (destruct (validate_2 e); cbn [cfg_status_eqb]; try solve [stage_leaf];
     destruct (Z.ltb_spec (configure_ret e) 0); stage_leaf; try lia).
Qed.

Lemma dma_buffer_loop_quiet (bufs : list buffer_env) :
  forall (c : Z) (h : camera_handler_t) (tr : list init_event),
    match dma_buffer_loop bufs c h tr with
    | IOk _ tr' => exists new, tr' = tr ++ new /\ quiet new
    | IThrow err _ tr' =>
        err <> StartFailed /\ exists new, tr' = tr ++ new /\ quiet new
    | IUndefined => True
    end.
Proof.
  induction bufs as [|b bufs IH]; intros c h tr; cbn [dma_buffer_loop].
  - exists []. rewrite app_nil_r. split; [reflexivity|apply quiet_nil].
  - destruct (create_ok b); cbn [negb]; [|stage_leaf].
    destruct (Z.ltb_spec (add_buffer_ret b) 0); [stage_leaf|].
    destruct (planes b) as [|y_plane [|u_plane [|v_plane rest]]]; try exact I.
    match goal with
    | |- context [if ?cond then _ else _] => destruct cond
    end; [stage_leaf|].
    destruct (mmap_ret b) as [data|]; [|stage_leaf].
    match goal with
    | |- context [dma_buffer_loop bufs ?c' ?h' ?tr'] =>
        specialize (IH c' h' tr');
          destruct (dma_buffer_loop bufs c' h' tr') as [h2 tr2|err h2 tr2|]
    end; [| |exact I].
    + destruct IH as (new & -> & Hq).
      eexists. rewrite <- !app_assoc. split; [reflexivity|].
      cbn [app]. apply (quiet_app [_; _; _]); [quiet_events|exact Hq].
    + destruct IH as (Herr & new & -> & Hq). split; [exact Herr|].
      eexists. rewrite <- !app_assoc. split; [reflexivity|].
      cbn [app]. apply (quiet_app [_; _; _]); [quiet_events|exact Hq].
Qed.

Lemma init_dma_buffers_post (allocate_ret : Z) (bufs : list buffer_env)
    (h : camera_handler_t) (tr : list init_event) :
  fresh h ->
  Z.of_nat (length bufs) < 2 ^ 64 ->
  match init_dma_buffers allocate_ret bufs h tr with
  | IOk h' tr' =>
      0 <= allocate_ret
      /\ (exists new,
            tr' = tr ++ new ++ [IvConnectCallback] /\ quiet new
            /\ mapped new
               = map (fun d => (d, to_size_t (frame_bytes_ h))) (mmap_buffers_ h'))
      /\ length (mmap_buffers_ h') = length bufs
      /\ frame_bytes_ h' = frame_bytes_ h
      /\ next_req_idx_ h' = 0
      /\ dma_frame_buffers_ h' = dma_frame_buffers_ h
  | IThrow err h' tr' =>
      err <> StartFailed /\ exists new, tr' = tr ++ new /\ quiet new
  | IUndefined => True
  end.
Proof.
  intros (Hreq & Hmap & Hidx) Hlen. unfold init_dma_buffers.
  destruct (Z.ltb_spec allocate_ret 0) as [?|Halloc]; [stage_leaf|].
  pose proof (dma_buffer_loop_quiet bufs 0 h (tr ++ [IvAllocate allocate_ret]))
    as Hquiet.
  destruct (dma_buffer_loop bufs 0 h (tr ++ [IvAllocate allocate_ret]))
    as [h1 tr1|err h1 tr1|] eqn:Hloop; [| |exact I].
  - destruct Hquiet as (new & -> & Hq).
    destruct (dma_buffer_loop_ok_good _ _ _ _ _ _ Hloop) as (datas & Hgood).
    destruct (dma_buffer_loop_good _ _ _ Hgood [] 0 h
                (tr ++ [IvAllocate allocate_ret]) eq_refl ltac:(lia) ltac:(lia))
      as (h2 & tr2 & Hrun & Hafter).
    rewrite app_nil_r, Hloop in Hrun. cbn [dma_buffer_loop] in Hrun.
    injection Hrun as <- <-.
    destruct Hafter as (Hl & Hr & Hm & Hn & Hf & Hd & Hmp & _).
    rewrite mapped_app in Hmp. apply app_inv_head in Hmp.
    rewrite Hmap in Hm. cbn [app] in Hm.
    split; [exact Halloc|]. split.
    + exists ([IvAllocate allocate_ret] ++ new).
      rewrite <- !app_assoc. split; [reflexivity|].
      split; [apply quiet_app; [quiet_events|exact Hq]|].
      rewrite mapped_app, Hmp, Hm. reflexivity.
    + rewrite Hm, Hl, Hn. repeat split; assumption.
  - destruct Hquiet as (Herr & new & -> & Hq). split; [exact Herr|].
    exists ([IvAllocate allocate_ret] ++ new).
    rewrite <- !app_assoc. split; [reflexivity|].
    apply quiet_app; [quiet_events|exact Hq].
Qed.

Lemma quiet_callback (pre : list init_event) :
  quiet (pre ++ [IvConnectCallback]) -> False.
Proof.
  intros (_ & _ & Hc). apply Hc. unfold callback_connected.
  apply in_app_iff. right. left. reflexivity.
Qed.

Lemma destroyed_app tr1 tr2 :
  destroyed (tr1 ++ tr2) = destroyed tr1 ++ destroyed tr2.
Proof.
  induction tr1 as [|e tr1 IH]; [reflexivity|].
  destruct e; cbn; rewrite ?IH; reflexivity.
Qed.

Lemma destroyed_map (os : list object) : destroyed (map IvDestroyed os) = os.
Proof.
  induction os as [|o os IH]; [reflexivity|]. cbn. rewrite IH. reflexivity.
Qed.

Ltac destroyed_leaf :=
  unfold throw; rewrite ?destroyed_app; cbn [destroyed app];
  rewrite ?app_nil_r; try reflexivity.

(** No set-up step destroys an object, and the first call of the first
    step starts the manager. *)
Lemma init_camera_manager_destroyed (e : manager_env) (h : camera_handler_t)
    (tr : list init_event) :
  match init_camera_manager e h tr with
  | IOk _ tr' | IThrow _ _ tr' =>
      destroyed tr' = destroyed tr
      /\ exists rest, tr' = tr ++ IvCmStart (cm_start_ret e) :: rest
  | IUndefined => True
  end.
Proof.
  unfold init_camera_manager, throw.
  destruct (cm_start_ret e <? 0);
    [split; [destroyed_leaf|rewrite <- !app_assoc; eexists; reflexivity]|].
  destruct (camera_ids e) as [|id ids];
    [split; [destroyed_leaf|rewrite <- !app_assoc; eexists; reflexivity]|].
  destruct (get_ok e); cbn [negb];
    [|split; [destroyed_leaf|rewrite <- !app_assoc; eexists; reflexivity]].
  destruct (acquire_ret e <? 0);
    (split; [destroyed_leaf|rewrite <- !app_assoc; eexists; reflexivity]).
Qed.

Lemma init_camera_config_destroyed (cfg : config) (e : config_env)
    (h : camera_handler_t) (tr : list init_event) :
  match init_camera_config cfg e h tr with
  | IOk _ tr' | IThrow _ _ tr' => destroyed tr' = destroyed tr
  | IUndefined => True
  end.
Proof.
  unfold init_camera_config.
  destruct (generate_ok e); cbn [negb]; [|destroyed_leaf].
  destruct (cfg_status_eqb (validate_1 e) Invalid); [destroyed_leaf|].
  destruct (cfg_status_eqb (validate_2 e) Adjusted); [destroyed_leaf|].
  destruct (configure_ret e <? 0); destroyed_leaf.
Qed.

Lemma dma_buffer_loop_destroyed (bufs : list buffer_env) :
  forall (c : Z) (h : camera_handler_t) (tr : list init_event),
    match dma_buffer_loop bufs c h tr with
    | IOk _ tr' | IThrow _ _ tr' => destroyed tr' = destroyed tr
    | IUndefined => True
    end.
Proof.
  induction bufs as [|b bufs IH]; intros c h tr; cbn [dma_buffer_loop].
  - reflexivity.
  - destruct (create_ok b); cbn [negb]; [|destroyed_leaf].
    destruct (add_buffer_ret b <? 0); [destroyed_leaf|].
    destruct (planes b) as [|y_plane [|u_plane [|v_plane rest]]]; try exact I.
    match goal with
    | |- context [if ?cond then _ else _] => destruct cond
    end; [destroyed_leaf|].
    destruct (mmap_ret b) as [data|]; [|destroyed_leaf].
    match goal with
    | |- context [dma_buffer_loop bufs ?c' ?h' ?tr'] =>
        specialize (IH c' h' tr');
          destruct (dma_buffer_loop bufs c' h' tr') as [h2 tr2|err h2 tr2|]
    end; [| |exact I]; rewrite IH; destroyed_leaf.
Qed.

Lemma init_dma_buffers_destroyed (allocate_ret : Z) (bufs : list buffer_env)
    (h : camera_handler_t) (tr : list init_event) :
  match init_dma_buffers allocate_ret bufs h tr with
  | IOk _ tr' | IThrow _ _ tr' => destroyed tr' = destroyed tr
  | IUndefined => True
  end.
Proof.
  unfold init_dma_buffers.
  destruct (allocate_ret <? 0); [destroyed_leaf|].
  pose proof (dma_buffer_loop_destroyed bufs 0 h (tr ++ [IvAllocate allocate_ret]))
    as Hloop.
  destruct (dma_buffer_loop bufs 0 h (tr ++ [IvAllocate allocate_ret]));
    [| |exact I]; rewrite ?destroyed_app, Hloop; destroyed_leaf.
Qed.

(** The body of the constructor: what holds when it returns, and what
    its calls were when one of them throws. *)
Lemma constructor_body_post (cfg : config) (e : vendor_env) :
  Z.of_nat (length (buffers e)) < 2 ^ 64 ->
  match constructor_body cfg e with
  | IOk h tr =>
      manager_ok (manager e) /\ configuration_ok (configuration e)
      /\ 0 <= allocate_ret e /\ 0 <= start_ret e
      /\ (exists pre,
            tr = pre ++ [IvConnectCallback;
                         IvControls (to_uint (frame_duration_min cfg))
                           (to_uint (frame_duration_max cfg));
                         IvCameraStart (start_ret e)]
            /\ quiet pre
            /\ length (mapped pre) = length (buffers e))
      /\ length (mmap_buffers_ h) = length (buffers e)
      /\ unmapped (destroy h) = mapped tr
      /\ destroyed tr = []
  | IThrow err h tr =>
      Forall (fun ev => ~ releasing ev) tr
      /\ (forall ret, In ret (camera_starts tr) -> ret < 0 /\ err = StartFailed)
      /\ (callback_connected tr -> err = StartFailed)
      /\ destroyed tr = []
      /\ exists rest, tr = IvCmStart (cm_start_ret (manager e)) :: rest
  | IUndefined => True
  end.
Proof.
  intros Hlen. unfold constructor_body, and_then.
  set (h0 := init_frame_config cfg member_init).
  assert (Hfresh : fresh h0) by (repeat split).
  pose proof (init_camera_manager_post (manager e) h0 []) as H1.
  pose proof (init_camera_manager_destroyed (manager e) h0 []) as D1.
  destruct (init_camera_manager (manager e) h0 []) as [h1 tr1|err h1 tr1|];
    [| |contradiction].
  2:{ destruct H1 as (Herr & new & -> & (Hs & Hr & Hc)). cbn [app] in *.
      destruct D1 as (Hd & rest & Hrest).
      split; [exact Hr|]. split; [rewrite Hs; intros ? []|].
      split; [intros Hin; contradiction|].
      split; [exact Hd|]. exists rest. exact Hrest. }
  destruct H1 as (-> & Hm & new1 & -> & Hq1 & Hmp1). cbn [app] in *.
  destruct D1 as (Hd1 & rest1 & Hrest1). cbn [destroyed] in Hd1.
  pose proof (init_camera_config_post cfg (configuration e) h0 new1) as H2.
  pose proof (init_camera_config_destroyed cfg (configuration e) h0 new1) as D2.
  destruct (init_camera_config cfg (configuration e) h0 new1)
    as [h2 tr2|err h2 tr2|]; [| |contradiction].
  2:{ destruct H2 as (Herr & new & -> & Hq).
      destruct (quiet_app _ _ Hq1 Hq) as (Hs & Hr & Hc).
      split; [exact Hr|]. split; [rewrite Hs; intros ? []|].
      split; [intros Hin; contradiction|].
      split; [rewrite D2; exact Hd1|].
      rewrite Hrest1. eexists. reflexivity. }
  destruct H2 as (-> & Hcf & new2 & -> & Hq2 & Hmp2).
  rewrite Hd1 in D2.
  pose proof (quiet_app _ _ Hq1 Hq2) as Hq12.
  pose proof (init_dma_buffers_post (allocate_ret e) (buffers e) h0
                (new1 ++ new2) Hfresh Hlen) as H3.
  pose proof (init_dma_buffers_destroyed (allocate_ret e) (buffers e) h0
                (new1 ++ new2)) as D3.
  destruct (init_dma_buffers (allocate_ret e) (buffers e) h0 (new1 ++ new2))
    as [h3 tr3|err h3 tr3|]; [| |exact I].
  2:{ destruct H3 as (Herr & new & -> & Hq).
      destruct (quiet_app _ _ Hq12 Hq) as (Hs & Hr & Hc).
      split; [exact Hr|]. split; [rewrite Hs; intros ? []|].
      split; [intros Hin; contradiction|].
      split; [rewrite D3; exact D2|].
      rewrite Hrest1. eexists. reflexivity. }
  destruct H3 as (Ha & (new3 & -> & Hq3 & Hmp3) & Hlm & Hfb & _).
  rewrite D2 in D3.
  pose proof (quiet_app _ _ Hq12 Hq3) as Hq123.
  destruct Hq123 as (Hs & Hr & Hc).
  unfold init_camera_controls, throw.
  destruct (Z.ltb_spec (start_ret e) 0) as [Hneg|Hpos].
  - rewrite <- !app_assoc. cbn [app]. rewrite !app_assoc.
    split.
    + rewrite <- !app_assoc. rewrite !app_assoc.
      rewrite Forall_app. split; [exact Hr|].
      repeat (apply List.Forall_cons; [intros []|]). apply List.Forall_nil.
    + split; [|split; [intros _; reflexivity|split]].
      * rewrite camera_starts_app, Hs. cbn.
        intros ret [<-|[]]. split; [exact Hneg|reflexivity].
      * rewrite ?destroyed_app in D3. rewrite ?destroyed_app.
        cbn [destroyed app] in D3 |- *.
        rewrite ?app_nil_r in D3. rewrite ?app_nil_r.
        rewrite <- ?app_assoc in D3. rewrite <- ?app_assoc. exact D3.
      * rewrite Hrest1. rewrite <- !app_assoc. eexists. reflexivity.
  - split; [exact Hm|]. split; [exact Hcf|]. split; [exact Ha|].
    split; [exact Hpos|]. split.
    + exists ((new1 ++ new2) ++ new3).
      rewrite <- !app_assoc. cbn [app].
      split; [reflexivity|].
      split; [rewrite !app_assoc; repeat split; assumption|].
      rewrite !mapped_app, Hmp1, Hmp2, Hmp3. cbn [app].
      rewrite length_map. exact Hlm.
    + split; [exact Hlm|]. split.
      * unfold destroy.
        rewrite !unmapped_app, unmapped_munmaps, !mapped_app, Hmp1, Hmp2, Hmp3,
          Hfb.
        cbn. rewrite !app_nil_r. reflexivity.
      * rewrite ?destroyed_app in D3. rewrite ?destroyed_app.
        cbn [destroyed app] in D3 |- *.
        rewrite ?app_nil_r in D3. rewrite ?app_nil_r.
        rewrite <- ?app_assoc in D3. rewrite <- ?app_assoc. exact D3.
Qed.

Lemma destructions_quiet (os : list object) :
  Forall (fun ev => ~ releasing ev) (map IvDestroyed os)
  /\ camera_starts (map IvDestroyed os) = []
  /\ ~ callback_connected (map IvDestroyed os).
Proof.
  unfold callback_connected.
  induction os as [|o os (IH1 & IH2 & IH3)]; cbn [map camera_starts In].
  - split; [constructor|]. split; [reflexivity|]. intros [].
  - split; [constructor; [intros []|exact IH1]|].
    split; [exact IH2|]. intros [Heq|Hin]; [discriminate|contradiction].
Qed.

Lemma unmapped_not_releasing (tr : list init_event) :
  Forall (fun ev => ~ releasing ev) tr -> unmapped tr = [].
Proof.
  induction 1 as [|ev tr Hev _ IH]; [reflexivity|].
  destruct ev; cbn [unmapped]; try exact IH.
  exfalso. apply Hev. exact I.
Qed.

(** What unwinding destroys: objects only, in the order of unwinding,
    the manager last. *)
Lemma unwinding_shape (h : camera_handler_t) (tr rest : list init_event)
    (ret : Z) :
  tr = IvCmStart ret :: rest ->
  unwinding h tr = map IvDestroyed (destroyed (unwinding h tr))
  /\ StronglySorted lt (map unwind_rank (destroyed (unwinding h tr)))
  /\ exists before, destroyed (unwinding h tr) = before ++ [ObjManager].
Proof.
  intros ->. unfold unwinding.
  change (existsb is_cm_start (IvCmStart ret :: rest)) with true.
  destruct (local_request (IvCmStart ret :: rest)) as [c|];
    destruct (requests_ h) as [|r rs];
    destruct (existsb is_controls (IvCmStart ret :: rest));
    destruct (existsb is_allocate (IvCmStart ret :: rest));
    destruct (existsb is_generated (IvCmStart ret :: rest));
    destruct (existsb is_got (IvCmStart ret :: rest));
    cbn [app map destroyed unwind_rank];
    (split; [reflexivity|]);
    (split; [repeat (apply SSorted_cons;
                     [|repeat (apply List.Forall_cons; [lia|]);
                       apply List.Forall_nil]);
             apply SSorted_nil|]).
  all: match goal with
       | |- exists before, ?l = _ =>
           exists (removelast l); cbn [removelast]; reflexivity
       end.
Qed.



End CameraInitProofs.

(** * Properties of start-up *)

Module StartupProofs.

Import CameraNode Startup.

Ltac boot_simpl :=
  cbn [sys_emit sys_log fail_errno sys_close proc sys set_errno set_running
         set_sockfd emit log errno running sockfd trace fst snd];
  rewrite <- ?app_assoc; cbn [app].

Ltac count_boot :=
  cbn [sigactions registrations timers_created sockets_made closes connects
         logged open_fds app List.filter].

(** X8: [register_with_kernel] closes the descriptor it opened on every
    path, writes the PID at most once and only to a descriptor it
    opened, and returns 0 exactly when both [open] and [dprintf]
    succeeded.  When [dprintf] fails the descriptor is closed before
    [errno] is read, so a failing [close] replaces the error number that
    is returned. *)
Theorem register_with_kernel_closes (e : kernel_env) (b : boot) :
  posix_ret (open_ret e) -> posix_ret (dprintf_ret e) -> posix_ret (close_ret e) ->
  exists new,
    sys (snd (register_with_kernel e b)) = sys b ++ new
    /\ open_fds new [] = []
    /\ (fst (register_with_kernel e b) = 0 <-> kernel_ok e)
    /\ fst (register_with_kernel e b) <= 0
    /\ (sret (open_ret e) < 0 -> registrations new = 0%nat)
    /\ (0 <= sret (open_ret e) -> registrations new = 1%nat)
    /\ (0 <= sret (open_ret e) -> sret (dprintf_ret e) < 0 ->
        fst (register_with_kernel e b)
        = - (if sret (close_ret e) <? 0 then serrno (close_ret e)
             else serrno (dprintf_ret e)))
    /\ trace (proc (snd (register_with_kernel e b))) = trace (proc b)
    /\ running (proc (snd (register_with_kernel e b))) = running (proc b).
Proof.
  unfold posix_ret. intros Hpo Hpd Hpc.
  destruct b as [[run fd err sem fq h tr] sy].
  unfold register_with_kernel, kernel_ok, sys_close. boot_simpl.
  destruct (Z.ltb_spec (sret (open_ret e)) 0) as [Hopen|Hopen]; boot_simpl.
  - eexists. split; [reflexivity|]. count_boot.
    destruct (Z.ltb_spec (sret (open_ret e)) 0) as [_|?]; [|lia].
    split; [reflexivity|]. split; [split; lia|]. split; [lia|].
    split; [reflexivity|]. split; [lia|]. split; [lia|]. split; reflexivity.
  - destruct (Z.ltb_spec (sret (dprintf_ret e)) 0) as [Hdp|Hdp]; boot_simpl;
      destruct (Z.ltb_spec (sret (close_ret e)) 0) as [Hcl|Hcl]; boot_simpl;
      (eexists; split; [reflexivity|]); count_boot;
      (destruct (Z.ltb_spec (sret (open_ret e)) 0) as [?|_]; [lia|]);
      cbn [List.filter]; rewrite Z.eqb_refl; cbn [negb];
      (split; [reflexivity|]); (split; [split; lia|]); (split; [lia|]);
      (split; [lia|]); (split; [reflexivity|]); (split; [lia|]);
      split; reflexivity.
Qed.

Lemma register_with_kernel_closes_witness :
  fst (register_with_kernel
         (mk_kernel_env (ok_ret 6) 4242 (bad_ret 28) (bad_ret 5)) sample_boot)
  = -5.
Proof.
  destruct (register_with_kernel_closes
              (mk_kernel_env (ok_ret 6) 4242 (bad_ret 28) (bad_ret 5)) sample_boot)
    as (new & _ & _ & _ & _ & _ & _ & H & _);
    [unfold posix_ret; cbn; lia ..|].
  apply H; cbn; lia.
Defined.

(** Closes a leaf of the start-up case analysis. *)
Ltac startup_leaf :=
  boot_simpl;
  repeat match goal with
         | |- context [(- ?x <? 0)] =>
             destruct (Z.ltb_spec (- x) 0); [|lia]
         | |- context [(0 <? 0)] => change (0 <? 0) with false; cbv iota
         end;
  boot_simpl;
  unfold sched_ok, network_ok, timer_ok, signals_ok, kernel_ok;
  repeat match goal with
         | |- exists _, _ => eexists
         | |- _ /\ _ => split
         | |- ?t = ?t ++ _ => symmetry; apply app_nil_r
         | |- _ = _ => reflexivity
         end;
  count_boot; rewrite ?Z.eqb_refl; cbn [negb];
  try reflexivity; try lia; try (intuition lia);
  try solve [unfold port_ok; intuition (try lia; eauto)];
  try solve [split; [intros; lia | intros (_ & _ & ? & Hw); discriminate Hw]].

(** With a PORT that holds a number, the start-up call is the
    [init_network] that [stream_pkt] uses to reconnect. *)
Lemma init_network_port_parsed (value : Z) (e : net_env) (p : process) :
  init_network_port (Parsed value) e p
  = (inl (fst (init_network e p)), snd (init_network e p)).
Proof.
  unfold init_network_port, init_network.
  destruct (sockfd _ <? 0); [reflexivity|].
  destruct (connect_ret e <? 0); reflexivity.
Qed.

(** X9: the start-up section of [main] is all or nothing.  The streaming
    loop is entered, with [running] set, exactly when all five steps
    succeeded and the configured PORT holds a number; the handlers are
    then installed for the four signals, the PID has been written once
    and its descriptor closed.  Otherwise [main] returns with [running]
    untouched, and no step after the failing one has made a call: no
    socket unless scheduling succeeded, no [connect] unless the socket
    was made and PORT read, no timer unless the network did too, no
    signal handler unless the timer did too, no registration unless all
    four handlers were installed.  The code returned is negative when a
    step failed, and 1 exactly when scheduling succeeded, the socket was
    made and [std::stoi] threw on PORT: the exception is caught at the
    end of [main], its text is the one line logged, and the new socket
    is left open and unconnected. *)
Theorem main_startup_all_or_nothing (recording_cpu : Z) (e : startup_env)
    (b : boot) :
  posix_startup e ->
  match main_startup recording_cpu e b with
  | Streaming b' =>
      (sched_ok (sched e) /\ network_ok (network e) /\ port_ok (port e)
       /\ timer_ok (timer e) /\ signals_ok (signals e) /\ kernel_ok (kernel e))
      /\ running (proc b') = 1
      /\ sockfd (proc b') = socket_ret (network e)
      /\ exists new pnew,
           sys b' = sys b ++ new
           /\ trace (proc b') = trace (proc b) ++ pnew
           /\ sigactions new = 4%nat /\ registrations new = 1%nat
           /\ timers_created new = 1%nat /\ open_fds new [] = []
           /\ logged new = []
  | Exited code b' =>
      (code < 0 \/ code = 1)
      /\ (code = 1 <->
          sched_ok (sched e) /\ 0 <= socket_ret (network e)
          /\ exists what, port e = Threw what)
      /\ running (proc b') = running (proc b)
      /\ ~ (sched_ok (sched e) /\ network_ok (network e) /\ port_ok (port e)
            /\ timer_ok (timer e) /\ signals_ok (signals e)
            /\ kernel_ok (kernel e))
      /\ exists new pnew,
           sys b' = sys b ++ new
           /\ trace (proc b') = trace (proc b) ++ pnew
           /\ (sockets_made pnew <> 0%nat -> sched_ok (sched e))
           /\ (connects pnew <> 0%nat ->
               sched_ok (sched e) /\ 0 <= socket_ret (network e)
               /\ port_ok (port e))
           /\ (timers_created new <> 0%nat ->
               sched_ok (sched e) /\ network_ok (network e)
               /\ port_ok (port e))
           /\ (sigactions new <> 0%nat ->
               sched_ok (sched e) /\ network_ok (network e)
               /\ port_ok (port e) /\ timer_ok (timer e))
           /\ (registrations new <> 0%nat ->
               sched_ok (sched e) /\ network_ok (network e)
               /\ port_ok (port e) /\ timer_ok (timer e)
               /\ signals_ok (signals e))
           /\ open_fds new [] = []
           /\ (forall what, code = 1 -> port e = Threw what ->
               logged new = [what]
               /\ pnew = [EvSocket (socket_ret (network e))]
               /\ sockfd (proc b') = socket_ret (network e))
  end.
Proof.
  unfold posix_startup, posix_ret.
  intros (Hp1 & Hp2 & Hp3 & Hp4 & Hp5 & Hp6 & Hp7 & Hp8 & Hp9 & Hp10 & Hp11 & Hp12).
  destruct b as [[run fd err sem fq h tr] sy].
  unfold main_startup, init_realtime_scheduling, init_network_port, init_timer,
    init_signals, try_sigaction, register_with_kernel, sys_close.
  boot_simpl.
  destruct (Z.ltb_spec (sret (setaffinity (sched e))) 0); [solve [startup_leaf]|].
  boot_simpl.
  destruct (Z.ltb_spec (sret (setscheduler (sched e))) 0); [solve [startup_leaf]|].
  boot_simpl. change (0 <? 0) with false. cbv iota. boot_simpl.
  destruct (Z.ltb_spec (socket_ret (network e)) 0); [solve [startup_leaf]|].
  boot_simpl.
  destruct (port e) as [value|what] eqn:Eport.
  2:{ boot_simpl.
      unfold sched_ok, network_ok, timer_ok, signals_ok, kernel_ok, port_ok.
      split; [right; reflexivity|].
      split; [split; [intros _; repeat split; try lia; eexists; reflexivity
                     |reflexivity]|].
      split; [reflexivity|].
      split; [intros (_ & _ & (v & Hv) & _); discriminate Hv|].
      eexists _, _. split; [reflexivity|]. split; [reflexivity|]. count_boot.
      repeat split; try lia;
        try (intros Hn; exfalso; apply Hn; reflexivity).
      all: congruence. }
  destruct (Z.ltb_spec (connect_ret (network e)) 0); [solve [startup_leaf]|].
  boot_simpl. change (0 <? 0) with false. cbv iota. boot_simpl.
  destruct (Z.eqb_spec (sret (timer e)) (-1)); [solve [startup_leaf]|].
  boot_simpl. change (0 <? 0) with false. cbv iota. boot_simpl.
  destruct (Z.ltb_spec (sret (sa_usr1 (signals e))) 0); [solve [startup_leaf]|].
  boot_simpl.
  destruct (Z.ltb_spec (sret (sa_int (signals e))) 0); [solve [startup_leaf]|].
  boot_simpl.
  destruct (Z.ltb_spec (sret (sa_term (signals e))) 0); [solve [startup_leaf]|].
  boot_simpl.
  destruct (Z.ltb_spec (sret (sa_usr2 (signals e))) 0); [solve [startup_leaf]|].
  boot_simpl. change (0 <? 0) with false. cbv iota. boot_simpl.
  destruct (Z.ltb_spec (sret (open_ret (kernel e))) 0) as [?|Hopen];
    [startup_leaf; destruct (Z.ltb_spec (sret (open_ret (kernel e))) 0);
     try reflexivity; lia|].
  boot_simpl.
  destruct (Z.ltb_spec (sret (dprintf_ret (kernel e))) 0);
    boot_simpl;
    destruct (Z.ltb_spec (sret (close_ret (kernel e))) 0);
    startup_leaf;
    destruct (Z.ltb_spec (sret (open_ret (kernel e))) 0); try lia;
    cbn [app List.filter]; rewrite ?Z.eqb_refl; cbn [negb]; try reflexivity;
    try lia; try (intuition lia).
Qed.

Lemma main_startup_all_or_nothing_witness :
  (exists b',
     main_startup 3 (sample_startup 0) sample_boot = Streaming b'
     /\ running (proc b') = 1 /\ sockfd (proc b') = 5)
  /\ (exists b',
        main_startup 3 (sample_startup_port 0 (Threw "stoi")) sample_boot
        = Exited 1 b'
        /\ running (proc b') = 0 /\ sockfd (proc b') = 5
        /\ trace (proc b') = [EvSocket 5]).
Proof.
  split.
  - assert (Hp : posix_startup (sample_startup 0))
      by (vm_compute; repeat split).
    pose proof (main_startup_all_or_nothing 3 (sample_startup 0) sample_boot Hp)
      as P.
    destruct (main_startup 3 (sample_startup 0) sample_boot)
      as [code b'|b'] eqn:E.
    + vm_compute in E. discriminate E.
    + exists b'. split; [reflexivity|].
      destruct P as (_ & Hr & Hs & _). split; assumption.
  - assert (Hp : posix_startup (sample_startup_port 0 (Threw "stoi")))
      by (vm_compute; repeat split).
    pose proof (main_startup_all_or_nothing 3
                  (sample_startup_port 0 (Threw "stoi")) sample_boot Hp) as P.
    destruct (main_startup 3 (sample_startup_port 0 (Threw "stoi")) sample_boot)
      as [code b'|b'] eqn:E.
    + assert (Hc : code = 1) by (vm_compute in E; congruence).
      subst code. exists b'. split; [reflexivity|].
      destruct P as (_ & _ & Hr & _ & new & pnew & _ & Ht & _ & _ & _ & _ & _
                     & _ & Hw).
      destruct (Hw "stoi"%string eq_refl eq_refl) as (_ & Hp' & Hs).
      rewrite Ht, Hp'. repeat split; assumption.
    + vm_compute in E. discriminate E.
Defined.

End StartupProofs.

(** * Properties of the camera node at run time *)

Module CameraRunProofs.

Import CameraNode CameraRun.

Ltac proc_simpl :=
  cbn [emit log set_cam set_queue_counter set_frame_queue set_running
         set_sockfd set_errno running sockfd errno queue_counter frame_queue
         cam trace fst snd sem_destroy sem_value sem_destroyed];
  rewrite <- ?app_assoc; cbn [app].

Lemma sem_destroys_app tr1 tr2 :
  sem_destroys (tr1 ++ tr2) = (sem_destroys tr1 + sem_destroys tr2)%nat.
Proof.
  induction tr1 as [|e tr1 IH]; [reflexivity|].
  destruct e; cbn; rewrite ?IH; reflexivity.
Qed.

Lemma close_calls_app tr1 tr2 :
  close_calls (tr1 ++ tr2) = (close_calls tr1 + close_calls tr2)%nat.
Proof.
  induction tr1 as [|e tr1 IH]; [reflexivity|].
  destruct e; cbn; rewrite ?IH; reflexivity.
Qed.

Lemma connection_calls_app tr1 tr2 :
  connection_calls (tr1 ++ tr2)
  = (connection_calls tr1 + connection_calls tr2)%nat.
Proof.
  induction tr1 as [|e tr1 IH]; [reflexivity|].
  destruct e; cbn; rewrite ?IH; reflexivity.
Qed.

Lemma installed_cases (signo : Z) :
  installed signo = true ->
  signo = SIGUSR1 \/ signo = SIGINT \/ signo = SIGTERM \/ signo = SIGUSR2.
Proof.
  unfold installed. rewrite !orb_true_iff, !Z.eqb_eq. tauto.
Qed.

(** One signal delivered to a process that has been shut down. *)
Lemma deliver_after_shutdown (signo vendor_ret : Z) (p : process) :
  installed signo = true -> running p = 0 -> sockfd p < 0 ->
  exists p',
    deliver signo vendor_ret p = Ok p'
    /\ running p' = 0 /\ sockfd p' = sockfd p
    /\ cam p' = cam p /\ frame_queue p' = frame_queue p
    /\ sem_value (queue_counter p') = sem_value (queue_counter p)
    /\ trace p'
       = trace p ++ (if is_shutdown signo then [EvSemDestroy] else []).
Proof.
  intros Hin Hrun Hfd.
  destruct p as [run fd err sem fq h tr]. cbn [running sockfd] in Hrun, Hfd.
  subst run.
  assert (Hge : (fd >=? 0) = false) by (rewrite Z.geb_leb; apply Z.leb_gt; lia).
  apply installed_cases in Hin.
  destruct Hin as [ -> | [ -> | [ -> | -> ]]];
    unfold deliver, capture_signal_handler, socket_disconnect_handler;
    proc_simpl; rewrite ?Hge;
    cbn [Z.eqb SIGUSR1 SIGUSR2 SIGINT SIGTERM Pos.eqb andb orb negb is_shutdown];
    proc_simpl; rewrite ?Hge;
    eexists; (split; [reflexivity|]); proc_simpl;
    rewrite ?app_nil_r; repeat split; reflexivity.
Qed.

Lemma deliver_all_after_shutdown (sigs : list (Z * Z)) :
  Forall (fun sv => installed (fst sv) = true) sigs ->
  forall p : process,
    running p = 0 -> sockfd p < 0 ->
    exists p' new,
      deliver_all sigs p = Ok p'
      /\ running p' = 0 /\ sockfd p' = sockfd p
      /\ cam p' = cam p /\ frame_queue p' = frame_queue p
      /\ sem_value (queue_counter p') = sem_value (queue_counter p)
      /\ trace p' = trace p ++ new
      /\ submissions new = [] /\ close_calls new = 0%nat
      /\ sem_posts new = 0
      /\ sem_destroys new = shutdowns sigs.
Proof.
  induction 1 as [|[signo v] sigs Hin _ IH]; intros p Hrun Hfd.
  - exists p, []. cbn. rewrite app_nil_r.
    repeat split; try reflexivity; assumption.
  - destruct (deliver_after_shutdown signo v p Hin Hrun Hfd)
      as (p1 & E1 & Hr1 & Hs1 & Hc1 & Hq1 & Hv1 & Ht1).
    destruct (IH p1 Hr1 ltac:(lia))
      as (p2 & new & E2 & Hr2 & Hs2 & Hc2 & Hq2 & Hv2 & Ht2 & Hsub & Hcl & Hpo & Hde).
    exists p2, ((if is_shutdown signo then [EvSemDestroy] else []) ++ new).
    cbn [deliver_all fst]. rewrite E1, E2.
    split; [reflexivity|].
    repeat split; try congruence.
    + rewrite Ht2, Ht1, app_assoc. reflexivity.
    + destruct (is_shutdown signo); cbn; assumption.
    + destruct (is_shutdown signo); cbn; assumption.
    + destruct (is_shutdown signo); cbn -[Z.add]; lia.
    + cbn [shutdowns]. destruct (is_shutdown signo); cbn; congruence.
Qed.

(** ** Reconnection *)

(** With a non-negative descriptor in [sockfd], the write loop never
    touches the connection: every [write] goes to that descriptor. *)
Lemma stream_pkt_loop_open (env : list io_env) (size : Z) :
  forall (total : Z) (p : process),
    0 <= sockfd p ->
    sockfd (snd (stream_pkt_loop env size total p)) = sockfd p
    /\ exists new,
         trace (snd (stream_pkt_loop env size total p)) = trace p ++ new
         /\ connection_calls new = 0%nat /\ close_calls new = 0%nat
         /\ writes_on (sockfd p) new.
Proof.
  assert (Hstep : forall (fd : Z) (tr : list event) (ev : event)
                    (res q : process),
             sockfd q = fd -> trace q = tr ++ [ev] ->
             connection_calls [ev] = 0%nat -> close_calls [ev] = 0%nat ->
             writes_on fd [ev] ->
             (sockfd res = sockfd q
              /\ exists new,
                   trace res = trace q ++ new
                   /\ connection_calls new = 0%nat /\ close_calls new = 0%nat
                   /\ writes_on (sockfd q) new) ->
             sockfd res = fd
             /\ exists new,
                  trace res = tr ++ new
                  /\ connection_calls new = 0%nat /\ close_calls new = 0%nat
                  /\ writes_on fd new).
  { intros fd tr ev res q Hq1 Hq2 Hc1 Hc2 Hw1 (Hs & new & Ht & Hc & Hcl & Hw).
    rewrite Hq1 in Hs, Hw. rewrite Hq2 in Ht.
    split; [exact Hs|]. exists ([ev] ++ new).
    rewrite Ht, <- app_assoc, connection_calls_app, close_calls_app, Hc, Hcl,
      Hc1, Hc2.
    repeat split. apply Forall_app. split; assumption. }
  induction env as [|e env IH]; intros total p Hfd;
    destruct p as [run fd err sem fq h tr]; cbn [sockfd] in Hfd;
    cbn [stream_pkt_loop]; destruct (total <? size); proc_simpl.
  - split; [reflexivity|]. exists []. rewrite app_nil_r.
    repeat split; constructor.
  - split; [reflexivity|]. eexists. split; [reflexivity|].
    repeat split; repeat constructor.
  - assert (Hlt : (fd <? 0) = false) by (apply Z.ltb_ge; lia).
    rewrite Hlt.
    destruct (sys_write e (size - total) <? 0); proc_simpl.
    + destruct (write_errno e =? EINTR).
      * match goal with
        | |- context [stream_pkt_loop env size total ?q] =>
            eapply (Hstep fd tr _ _ q);
              [reflexivity|reflexivity|reflexivity|reflexivity
              |repeat constructor|apply IH; exact Hfd]
        end.
      * proc_simpl. split; [reflexivity|].
        eexists. split; [reflexivity|].
        repeat split; repeat constructor.
    + match goal with
      | |- context [stream_pkt_loop env size ?t ?q] =>
          eapply (Hstep fd tr _ _ q);
            [reflexivity|reflexivity|reflexivity|reflexivity
            |repeat constructor|apply IH; exact Hfd]
      end.
  - split; [reflexivity|]. eexists. split; [reflexivity|].
    repeat split; repeat constructor.
Qed.

(** X11: a reconnection that fails at [connect] is not tried again by
    [stream_pkt].  The call returns the negated [errno] without writing,
    and leaves the new, unconnected descriptor in [sockfd] without
    closing it; since that descriptor is not negative, every later call
    writes to it and makes no [socket], [connect] or [close] call,
    whatever the writes answer.  Once the watchdog has closed the
    descriptor, the next call starts with a new [socket]. *)
Theorem failed_connect_is_not_retried (e : io_env) (env : list io_env)
    (size : Z) (p : process) :
  sockfd p < 0 -> 0 < size ->
  0 <= socket_ret (net e) -> connect_ret (net e) < 0 ->
  0 < connect_errno (net e) ->
  exists p1,
    stream_pkt (e :: env) size p = (Some (- connect_errno (net e)), p1)
    /\ trace p1
       = trace p ++ [EvSocket (socket_ret (net e));
                     EvConnect (socket_ret (net e)) (connect_ret (net e));
                     EvLog ERROR "Failed to connect to server"]
    /\ sockfd p1 = socket_ret (net e)
    /\ (forall (env2 : list io_env) (size2 : Z),
          sockfd (snd (stream_pkt env2 size2 p1)) = socket_ret (net e)
          /\ exists new,
               trace (snd (stream_pkt env2 size2 p1)) = trace p1 ++ new
               /\ connection_calls new = 0%nat /\ close_calls new = 0%nat
               /\ writes_on (socket_ret (net e)) new)
    /\ (forall (e2 : io_env) (env2 : list io_env) (size2 : Z),
          Forall posix_io (e2 :: env2) -> 0 < size2 < 2 ^ 64 ->
          exists rest,
            trace (snd (stream_pkt (e2 :: env2) size2
                          (socket_disconnect_handler SIGUSR2 p1)))
            = trace p1 ++ [EvClose (socket_ret (net e));
                           EvLog INFO "Socket disconnected by timer";
                           EvSocket (socket_ret (net e2))] ++ rest).
Proof.
  intros Hfd Hsize Hsock Hconn Herr.
  destruct p as [run fd err sem fq h tr]. cbn [sockfd] in Hfd.
  unfold stream_pkt at 1. cbn [stream_pkt_loop].
  assert (H0 : (0 <? size) = true) by (apply Z.ltb_lt; lia).
  assert (H1 : (fd <? 0) = true) by (apply Z.ltb_lt; lia).
  assert (H2 : (socket_ret (net e) <? 0) = false) by (apply Z.ltb_ge; lia).
  assert (H3 : (connect_ret (net e) <? 0) = true) by (apply Z.ltb_lt; lia).
  assert (H4 : (- connect_errno (net e) <? 0) = true) by (apply Z.ltb_lt; lia).
  rewrite H0. cbn [sockfd]. rewrite H1.
  unfold init_network. proc_simpl. rewrite H2, H3. proc_simpl. rewrite H4.
  match goal with
  | |- exists p1, (_, ?q0) = (_, p1) /\ _ => exists q0; set (q := q0)
  end.
  assert (Hq1 : sockfd q = socket_ret (net e)) by reflexivity.
  assert (Hq2 : trace q
                = tr ++ [EvSocket (socket_ret (net e));
                         EvConnect (socket_ret (net e)) (connect_ret (net e));
                         EvLog ERROR "Failed to connect to server"]).
  { unfold q. proc_simpl. reflexivity. }
  clearbody q.
  split; [reflexivity|]. cbn [trace]. split; [exact Hq2|].
  split; [exact Hq1|]. split.
  - intros env2 size2. unfold stream_pkt.
    destruct (stream_pkt_loop_open env2 size2 0 q) as (Hs & new & Ht & Hr);
      [rewrite Hq1; exact Hsock|].
    rewrite Hq1 in Hs, Hr.
    split; [exact Hs|]. exists new. split; [exact Ht|exact Hr].
  - intros e2 env2 size2 Hposix Hsize2.
    destruct (CameraNodeProofs.socket_disconnect_handler_cases SIGUSR2 q)
      as [(_ & _ & Eq)|([Hne|Hneg] & _)];
      [|exfalso; apply Hne; reflexivity|lia].
    rewrite Eq.
    match goal with
    | |- context [stream_pkt (e2 :: env2) size2 ?q'] =>
        destruct (CameraNodeProofs.stream_pkt_reconnects_first e2 env2 size2 q'
                    Hposix Hsize2) as (rest & Ht);
          [cbn [log emit set_sockfd sockfd]; lia|]
    end.
    exists rest. rewrite Ht. proc_simpl. rewrite Hq1. reflexivity.
Qed.

Lemma failed_connect_is_not_retried_witness :
  let e := {| net := mk_net_env 5 0 (-1) 111; write_ret := 3; write_errno := 0 |} in
  exists p1,
    stream_pkt [e] 10 (sample_process 0 (-1)) = (Some (-111), p1)
    /\ sockfd p1 = 5
    /\ connection_calls
         (trace (snd (stream_pkt [sample_io (-1) 32] 10 p1))) = 2%nat.
Proof.
  intros e.
  destruct (failed_connect_is_not_retried e [] 10 (sample_process 0 (-1)))
    as (p1 & E1 & Ht & Hs & Hlater & _); try (cbn; lia).
  exists p1. split; [exact E1|]. split; [exact Hs|].
  destruct (Hlater [sample_io (-1) 32] 10) as (_ & new & Hn & Hc & _).
  rewrite Hn, connection_calls_app, Hc, Ht. reflexivity.
Defined.

(** ** Progress of the write loop *)

Lemma taking_passes_nonneg (env : list io_env) : 0 <= taking_passes env.
Proof.
  induction env as [|e env IH]; cbn -[Z.add]; [lia|].
  destruct (1 <=? write_ret e); lia.
Qed.

Lemma stream_pkt_loop_retries (env : list io_env) (size : Z) :
  size < 2 ^ 64 ->
  Forall pass_ok env ->
  forall (total : Z) (p : process),
    0 <= total -> size - total <= taking_passes env ->
    fst (stream_pkt_loop env size total p) = Some 0.
Proof.
  intros Hsize Henv.
  induction Henv as [|e env (Hs & Hc & Hw) _ IH]; intros total p Htot Hlen;
    cbn [stream_pkt_loop].
  - cbn in Hlen. destruct (Z.ltb_spec total size); [lia | reflexivity].
  - destruct (Z.ltb_spec total size) as [Hlt|]; [|reflexivity].
    cbn [taking_passes] in Hlen.
    pose proof (taking_passes_nonneg env) as Hnn.
    destruct (Z.ltb_spec (sockfd p) 0);
      [ unfold init_network; cbn [sockfd emit set_sockfd];
        destruct (Z.ltb_spec (socket_ret (net e)) 0); [lia|];
        destruct (Z.ltb_spec (connect_ret (net e)) 0); [lia|];
        cbn [Z.ltb Z.compare] | ];
      (destruct Hw as [Hw|[Hw He]];
       [ assert (Hres : 1 <= sys_write e (size - total) <= size - total)
           by (unfold sys_write; destruct (Z.ltb_spec (write_ret e) 0); lia);
         destruct (Z.leb_spec 1 (write_ret e)); [|lia];
         destruct (Z.ltb_spec (sys_write e (size - total)) 0); [lia|];
         rewrite CameraNodeProofs.to_size_t_range by lia; apply IH; lia
       | assert (Hres : sys_write e (size - total) = -1)
           by (unfold sys_write; destruct (Z.ltb_spec (write_ret e) 0); lia);
         destruct (Z.leb_spec 1 (write_ret e)); [lia|];
         rewrite Hres; cbn [Z.ltb Z.compare emit set_errno errno];
         rewrite He, Z.eqb_refl; apply IH; lia ]).
Qed.

(** X12: [stream_pkt] does not give up on interrupted writes.  When
    every pass can connect, and its [write] either takes at least one
    byte or fails with EINTR, the call returns 0 as soon as [size] passes
    have taken bytes, however many interruptions lie in between. *)
Theorem stream_pkt_retries_interrupted (env : list io_env) (size : Z)
    (p : process) :
  0 <= size < 2 ^ 64 ->
  Forall pass_ok env ->
  size <= taking_passes env ->
  fst (stream_pkt env size p) = Some 0.
Proof.
  intros Hsize Henv Hlen. unfold stream_pkt.
  apply stream_pkt_loop_retries; [lia|exact Henv|lia|lia].
Qed.

Lemma stream_pkt_retries_interrupted_witness :
  fst (stream_pkt [sample_io (-1) EINTR; sample_io 1 0; sample_io (-1) EINTR;
                   sample_io (-1) EINTR; sample_io 7 0]
         2 (sample_process 0 (-1))) = Some 0.
Proof.
  apply stream_pkt_retries_interrupted.
  - lia.
  - repeat (apply List.Forall_cons;
            [unfold pass_ok, sample_io, EINTR; cbn;
             split; [lia|split; [lia|]];
             first [left; lia | right; split; [lia|reflexivity]]|]).
    apply List.Forall_nil.
  - vm_compute. discriminate.
Defined.

(** ** After a shutdown signal *)

Lemma opened_app tr1 tr2 : opened (tr1 ++ tr2) = (opened tr1 + opened tr2)%nat.
Proof.
  induction tr1 as [|e tr1 IH]; [reflexivity|].
  destruct e; cbn [app opened]; rewrite ?IH; try reflexivity.
  destruct (ret <? 0); lia.
Qed.

(** A run of the write loop is a sequence of the actions of
    [pkt_action]. *)
Lemma stream_pkt_loop_actions (env : list io_env) (size : Z) :
  forall (total : Z) (p : process),
    exists acts,
      snd (stream_pkt_loop env size total p) = perform_all acts p.
Proof.
  induction env as [|e env IH]; intros total p; cbn [stream_pkt_loop].
  - destruct (total <? size).
    + exists []. reflexivity.
    + exists [PktLog INFO "Transmitted frame"]. reflexivity.
  - destruct (total <? size);
      [|exists [PktLog INFO "Transmitted frame"]; reflexivity].
    assert (Hwrite : forall q : process,
               exists acts,
                 snd (let count := size - total in
                      let result := sys_write e count in
                      let q' := if result <? 0
                                then set_errno (write_errno e) q else q in
                      let q' := emit (EvWrite (sockfd q') total count result
                                        (write_errno e)) q' in
                      if result <? 0 then
                        if errno q' =? EINTR then
                          stream_pkt_loop env size total q'
                        else
                          (Some (-1), log ERROR "Error transmitting frame" q')
                      else
                        stream_pkt_loop env size
                          (to_size_t (total + result)) q')
                 = perform_all acts q).
    { intros q. cbv zeta.
      set (result := sys_write e (size - total)).
      set (w := PktWrite total (size - total) result (write_errno e)).
      assert (Hw : perform w q
                   = emit (EvWrite (sockfd (if result <? 0
                                            then set_errno (write_errno e) q
                                            else q))
                             total (size - total) result (write_errno e))
                       (if result <? 0 then set_errno (write_errno e) q else q))
        by reflexivity.
      rewrite <- Hw.
      destruct (result <? 0).
      - destruct (errno (perform w q) =? EINTR).
        + destruct (IH total (perform w q)) as (acts & ->).
          exists (w :: acts). reflexivity.
        + exists [w; PktLog ERROR "Error transmitting frame"]. reflexivity.
      - destruct (IH (to_size_t (total + result)) (perform w q)) as (acts & ->).
        exists (w :: acts). reflexivity. }
    destruct (sockfd p <? 0); [|apply Hwrite].
    unfold init_network.
    set (s := PktSocket (socket_ret (net e)) (socket_errno (net e))).
    set (c := PktConnect (connect_ret (net e)) (connect_errno (net e))).
    change (sockfd (emit (EvSocket (socket_ret (net e)))
                      (set_sockfd (socket_ret (net e)) p)))
      with (socket_ret (net e)).
    destruct (socket_ret (net e) <? 0) eqn:Es.
    + cbn [fst snd errno log emit set_errno].
      destruct (- socket_errno (net e) <? 0).
      * exists [s; PktLog ERROR "Failed to create socket"].
        unfold perform_all, s. cbn [fold_left perform]. rewrite Es. reflexivity.
      * destruct (Hwrite (log ERROR "Failed to create socket"
                            (set_errno (socket_errno (net e))
                               (emit (EvSocket (socket_ret (net e)))
                                  (set_sockfd (socket_ret (net e)) p)))))
          as (acts & Hacts).
        exists ([s; PktLog ERROR "Failed to create socket"] ++ acts).
        unfold perform_all in *. rewrite fold_left_app.
        cbn [fold_left perform]. unfold s. cbn [perform]. rewrite Es.
        exact Hacts.
    + destruct (connect_ret (net e) <? 0) eqn:Ec.
      * cbn [fst snd errno log emit set_errno].
        destruct (- connect_errno (net e) <? 0).
        -- exists [s; c; PktLog ERROR "Failed to connect to server"].
           unfold perform_all, s, c. cbn [fold_left perform]. rewrite Es.
           cbn [sockfd emit set_sockfd]. rewrite Ec. reflexivity.
        -- destruct (Hwrite (log ERROR "Failed to connect to server"
                               (set_errno (connect_errno (net e))
                                  (emit (EvConnect (socket_ret (net e))
                                           (connect_ret (net e)))
                                     (emit (EvSocket (socket_ret (net e)))
                                        (set_sockfd (socket_ret (net e)) p))))))
             as (acts & Hacts).
           exists ([s; c; PktLog ERROR "Failed to connect to server"] ++ acts).
           unfold perform_all in *. rewrite fold_left_app.
           cbn [fold_left perform]. unfold s, c. cbn [perform]. rewrite Es.
           cbn [sockfd emit set_sockfd]. rewrite Ec.
           exact Hacts.
      * change (0 <? 0) with false. cbv iota.
        destruct (Hwrite (emit (EvConnect (socket_ret (net e))
                                  (connect_ret (net e)))
                            (emit (EvSocket (socket_ret (net e)))
                               (set_sockfd (socket_ret (net e)) p))))
          as (acts & Hacts).
        exists ([s; c] ++ acts).
        unfold perform_all in *. rewrite fold_left_app.
        cbn [fold_left perform]. unfold s, c. cbn [perform]. rewrite Es.
        cbn [sockfd emit set_sockfd]. rewrite Ec.
        exact Hacts.
Qed.

(** The trace kept by a process that was shut down, after one more
    activity. *)
Lemma act_after_shutdown (a : activity) (p : process) :
  installed_signal a -> running p = 0 ->
  match act a p with
  | Ok p' =>
      running p' = 0
      /\ next_req_idx_ (cam p') = next_req_idx_ (cam p)
      /\ exists new,
           trace p' = trace p ++ new
           /\ submissions new = []
           /\ sem_destroys new
              = shutdown_signals [a]
           /\ (close_calls new + is_open (sockfd p')
               <= is_open (sockfd p) + opened new)%nat
  | Throw _ _ => False
  | Undefined =>
      exists request, a = Completion request
                      /\ request_complete request p = None
  end.
Proof.
  intros Hin Hrun.
  destruct p as [run fd err sem fq h tr]. cbn [running] in Hrun. subst run.
  destruct a as [signo v|[ret e|ret e|off count ret e|lvl msg]|request|i|];
    cbn [act installed_signal] in *.
  - apply installed_cases in Hin.
    destruct Hin as [ -> | [ -> | [ -> | -> ]]];
      unfold deliver, capture_signal_handler, socket_disconnect_handler,
        is_open;
      proc_simpl;
      cbn [Z.eqb SIGUSR1 SIGUSR2 SIGINT SIGTERM Pos.eqb andb orb negb
             is_shutdown shutdown_signals];
      proc_simpl;
      try (destruct (Z.geb_spec fd 0)); proc_simpl;
      (split; [reflexivity|]); (split; [reflexivity|]);
      eexists; (split; [try reflexivity; symmetry; apply app_nil_r|]);
      cbn; repeat split; try reflexivity; try lia;
      destruct (Z.geb_spec fd 0); lia.
  - unfold perform, is_open. proc_simpl.
    destruct (Z.ltb_spec ret 0); proc_simpl;
      (split; [reflexivity|]); (split; [reflexivity|]);
      eexists; (split; [reflexivity|]); cbn [submissions sem_destroys
        close_calls opened shutdown_signals];
      destruct (Z.ltb_spec ret 0); try lia;
      destruct (Z.geb_spec ret 0); try lia;
      destruct (fd >=? 0); repeat split; lia.
  - unfold perform, is_open. proc_simpl.
    destruct (Z.ltb_spec ret 0); proc_simpl;
      (split; [reflexivity|]); (split; [reflexivity|]);
      eexists; (split; [reflexivity|]); cbn; repeat split; lia.
  - unfold perform, is_open.
    destruct (Z.ltb_spec ret 0); proc_simpl;
      (split; [reflexivity|]); (split; [reflexivity|]);
      eexists; (split; [reflexivity|]); cbn; repeat split; lia.
  - unfold perform, is_open. proc_simpl.
    split; [reflexivity|]. split; [reflexivity|].
    eexists. split; [reflexivity|]. cbn. repeat split; lia.
  - match goal with
    | |- context [request_complete request ?q] =>
        destruct (request_complete request q) as [p'|] eqn:E;
          [|exists request; split; [reflexivity|exact E]]
    end.
    unfold request_complete in E. cbn [cam] in E.
    destruct (requests_ h !! request) as [req|]; [|discriminate E].
    destruct (req_status_eqb (status req) RequestCancelled).
    + injection E as <-. proc_simpl.
      split; [reflexivity|]. split; [reflexivity|].
      exists []. rewrite app_nil_r. cbn. repeat split; lia.
    + destruct (vec_at (mmap_buffers_ h) (cookie req)) as [data|];
        [|discriminate E].
      injection E as <-. proc_simpl.
      split; [reflexivity|]. split; [reflexivity|].
      eexists. split; [reflexivity|]. cbn. repeat split; lia.
  - unfold sem_wait. proc_simpl.
    destruct (0 <? sem_value sem); [|destruct i]; proc_simpl;
      (split; [reflexivity|]); (split; [reflexivity|]);
      exists []; rewrite app_nil_r; cbn; repeat split; lia.
  - proc_simpl. split; [reflexivity|]. split; [reflexivity|].
    exists []. rewrite app_nil_r. cbn. repeat split; lia.
Qed.

Lemma shutdown_signals_cons (a : activity) (acts : list activity) :
  shutdown_signals (a :: acts)
  = (shutdown_signals [a] + shutdown_signals acts)%nat.
Proof.
  destruct a as [signo v| | | |]; cbn [shutdown_signals]; try reflexivity.
  destruct (is_shutdown signo); reflexivity.
Qed.

Lemma act_all_after_shutdown (acts : list activity) :
  Forall installed_signal acts ->
  forall p : process,
    running p = 0 ->
    match act_all acts p with
    | Ok p' =>
        running p' = 0
        /\ next_req_idx_ (cam p') = next_req_idx_ (cam p)
        /\ exists new,
             trace p' = trace p ++ new
             /\ submissions new = []
             /\ sem_destroys new = shutdown_signals acts
             /\ (close_calls new + is_open (sockfd p')
                 <= is_open (sockfd p) + opened new)%nat
    | Throw _ _ => False
    | Undefined => True
    end.
Proof.
  induction 1 as [|a acts Ha _ IH]; intros p Hrun; cbn [act_all].
  - split; [exact Hrun|]. split; [reflexivity|].
    exists []. rewrite app_nil_r. cbn. repeat split; lia.
  - pose proof (act_after_shutdown a p Ha Hrun) as Hstep.
    destruct (act a p) as [p1|? ?|]; [|contradiction|exact I].
    destruct Hstep as (Hr1 & Hi1 & new1 & Ht1 & Hs1 & Hd1 & Hc1).
    specialize (IH p1 Hr1).
    destruct (act_all acts p1) as [p2|? ?|]; [|contradiction|exact I].
    destruct IH as (Hr2 & Hi2 & new2 & Ht2 & Hs2 & Hd2 & Hc2).
    split; [exact Hr2|]. split; [congruence|].
    exists (new1 ++ new2).
    rewrite Ht2, Ht1, <- app_assoc.
    rewrite CameraNodeProofs.submissions_app, sem_destroys_app, close_calls_app,
      opened_app, Hs1, Hs2, Hd1, Hd2, (shutdown_signals_cons a acts).
    repeat split; lia.
Qed.

Lemma act_all_signals (sigs : list (Z * Z)) (p : process) :
  act_all (map (fun sv => Signal (fst sv) (snd sv)) sigs) p
  = deliver_all sigs p.
Proof.
  revert p. induction sigs as [|[signo v] sigs IH]; intros p; [reflexivity|].
  cbn [map act_all deliver_all act fst snd].
  destruct (deliver signo v p); try reflexivity. apply IH.
Qed.

Lemma shutdown_signals_map (sigs : list (Z * Z)) :
  shutdown_signals (map (fun sv => Signal (fst sv) (snd sv)) sigs)
  = shutdowns sigs.
Proof.
  induction sigs as [|[signo v] sigs IH]; [reflexivity|].
  cbn [map shutdown_signals shutdowns fst]. rewrite IH. reflexivity.
Qed.

(** A pass that finds [sockfd] negative leaves the descriptor of the
    new socket in it, whether or not [connect] and the writes succeed. *)
Lemma stream_pkt_loop_reopens (e : io_env) (env : list io_env)
    (size total : Z) (p : process) :
  total < size -> sockfd p < 0 -> 0 <= socket_ret (net e) ->
  sockfd (snd (stream_pkt_loop (e :: env) size total p)) = socket_ret (net e).
Proof.
  intros Hlt Hfd Hs.
  destruct (init_network (net e) p) as [ret q] eqn:Einit.
  assert (Hq : sockfd q = socket_ret (net e)).
  { destruct (CameraNodeProofs.init_network_cases (net e) p)
      as [(Hneg & _)|[(_ & _ & E)|(_ & _ & E)]]; [lia| |];
      rewrite Einit in E; injection E as _ ->; reflexivity. }
  assert (Hltb : (total <? size) = true) by (apply Z.ltb_lt; lia).
  assert (Hfdb : (sockfd p <? 0) = true) by (apply Z.ltb_lt; lia).
  assert (Hqb : (sockfd q <? 0) = false) by (apply Z.ltb_ge; lia).
  assert (Heq : stream_pkt_loop (e :: env) size total p
                = if ret <? 0 then (Some ret, q)
                  else stream_pkt_loop (e :: env) size total q).
  { cbn [stream_pkt_loop]. rewrite Hltb, Hfdb, Einit, Hqb. reflexivity. }
  rewrite Heq. destruct (ret <? 0); [exact Hq|].
  destruct (stream_pkt_loop_open (e :: env) size total q ltac:(lia)) as [-> _].
  exact Hq.
Qed.

(** X10: what a shutdown signal settles, and what it does not.  Take a
    process whose [main] is in its loop, signals delivered one at a
    time, each handler running to its end.  Once
    [capture_signal_handler] has run for SIGINT or SIGTERM, [running] is
    0 and [sockfd] negative, and whatever follows (installed signals,
    steps of a [stream_pkt] in progress, completed requests, the main
    thread's [sem_wait] and [dequeue], in any order) [running] stays 0,
    no capture request is submitted and the request cursor stays where
    it was; every further shutdown signal destroys [queue_counter]
    again.  The connection is not settled: [stream_pkt] does not look at
    [running], so a packet in progress opens a new socket, and the next
    SIGUSR2 or shutdown signal closes it; what holds is that no
    descriptor is closed that was not opened.  When only signals follow,
    [sockfd] stays negative, nothing more is closed or posted, and the
    queue, the semaphore count and the handler are left as they
    were. *)
Theorem shutdown_is_final (signo vendor_ret : Z) (acts : list activity)
    (p : process) :
  signo = SIGINT \/ signo = SIGTERM ->
  Forall installed_signal acts ->
  exists p1,
    capture_signal_handler signo vendor_ret p = Ok p1
    /\ running p1 = 0 /\ sockfd p1 < 0
    /\ trace p1
       = trace p ++ (if sockfd p >=? 0 then [EvClose (sockfd p)] else [])
           ++ [EvSemDestroy]
    /\ match act_all acts p1 with
       | Ok p2 =>
           running p2 = 0
           /\ next_req_idx_ (cam p2) = next_req_idx_ (cam p)
           /\ exists new,
                trace p2 = trace p ++ new
                /\ submissions new = []
                /\ sem_destroys new = S (shutdown_signals acts)
                /\ (close_calls new + is_open (sockfd p2)
                    <= is_open (sockfd p) + opened new)%nat
                /\ (forall sigs,
                      acts = map (fun sv => Signal (fst sv) (snd sv)) sigs ->
                      sockfd p2 < 0 /\ sem_posts new = 0
                      /\ close_calls new = is_open (sockfd p)
                      /\ cam p2 = cam p /\ frame_queue p2 = frame_queue p
                      /\ sem_value (queue_counter p2)
                         = sem_value (queue_counter p))
       | Throw _ _ => False
       | Undefined => True
       end
    /\ (forall env size total q,
          exists pkt,
            snd (stream_pkt_loop env size total q) = perform_all pkt q)
    /\ (forall e env size,
          0 < size -> 0 <= socket_ret (net e) ->
          sockfd (snd (stream_pkt (e :: env) size p1)) = socket_ret (net e)).
Proof.
  intros Hsig Hin.
  assert (E1 : exists p1,
             capture_signal_handler signo vendor_ret p = Ok p1
             /\ running p1 = 0 /\ sockfd p1 < 0
             /\ cam p1 = cam p /\ frame_queue p1 = frame_queue p
             /\ sem_value (queue_counter p1) = sem_value (queue_counter p)
             /\ trace p1 = trace p
                  ++ (if sockfd p >=? 0 then [EvClose (sockfd p)] else [])
                  ++ [EvSemDestroy]).
  { destruct p as [run fd err sem fq h tr].
    unfold capture_signal_handler.
    assert (Hs : ((signo =? SIGUSR1) && negb (run =? 0) = false)
                 /\ (signo =? SIGINT) || (signo =? SIGTERM) = true).
    { destruct Hsig as [ -> | -> ]; cbn; split; reflexivity. }
    destruct Hs as [Hs1 Hs2]. cbn [running]. rewrite Hs1, Hs2.
    proc_simpl.
    destruct (Z.geb_spec fd 0); proc_simpl;
      eexists; (split; [reflexivity|]); proc_simpl;
      repeat split; try reflexivity; lia. }
  destruct E1 as (p1 & E1 & Hr1 & Hs1 & Hc1 & Hq1 & Hv1 & Ht1).
  exists p1. split; [exact E1|]. split; [exact Hr1|]. split; [exact Hs1|].
  split; [exact Ht1|].
  assert (Hopen1 : is_open (sockfd p1) = 0%nat).
  { unfold is_open. destruct (Z.geb_spec (sockfd p1) 0); [lia|reflexivity]. }
  split; [|split].
  - pose proof (act_all_after_shutdown acts Hin p1 Hr1) as Hall.
    destruct (act_all acts p1) as [p2|? ?|] eqn:E2; [|contradiction|exact I].
    destruct Hall as (Hr2 & Hi2 & new & Ht2 & Hsub & Hde & Hcl).
    split; [exact Hr2|]. split; [rewrite Hi2, Hc1; reflexivity|].
    exists ((if sockfd p >=? 0 then [EvClose (sockfd p)] else [])
              ++ [EvSemDestroy] ++ new).
    split; [rewrite Ht2, Ht1, <- !app_assoc; reflexivity|].
    rewrite CameraNodeProofs.submissions_app, sem_destroys_app,
      close_calls_app, opened_app.
    cbn [app submissions sem_destroys close_calls opened].
    rewrite Hopen1 in Hcl. unfold is_open in *.
    split; [destruct (sockfd p >=? 0); cbn; exact Hsub|].
    split; [destruct (sockfd p >=? 0); cbn; lia|].
    split; [destruct (sockfd p >=? 0); cbn; lia|].
    intros sigs ->.
    rewrite act_all_signals in E2.
    assert (Hin' : Forall (fun sv => installed (fst sv) = true) sigs).
    { clear -Hin. induction sigs as [|[s v] sigs IH]; [constructor|].
      inversion Hin; subst. constructor; [assumption|apply IH; assumption]. }
    destruct (deliver_all_after_shutdown sigs Hin' p1 Hr1 Hs1)
      as (p2' & new' & E2' & _ & Hs2 & Hc2 & Hq2 & Hv2 & Ht2' & _ & Hcl' & Hpo
          & _).
    rewrite E2 in E2'. injection E2' as <-.
    rewrite Ht2 in Ht2'. apply app_inv_head in Ht2'. subst new'.
    rewrite CameraNodeProofs.sem_posts_app.
    cbn [app sem_posts].
    split; [lia|].
    split; [destruct (sockfd p >=? 0); cbn [sem_posts]; lia|].
    split; [destruct (sockfd p >=? 0); cbn; lia|].
    repeat split; congruence.
  - intros env size total q. apply stream_pkt_loop_actions.
  - intros e env size Hsize Hsock. unfold stream_pkt.
    apply stream_pkt_loop_reopens; assumption.
Qed.

Lemma shutdown_is_final_witness :
  exists p1 p2 p3,
    capture_signal_handler SIGINT 0 (sample_process 0 5) = Ok p1
    /\ act_all [Signal SIGUSR1 0; Signal SIGTERM 0; Signal SIGUSR2 0] p1
       = Ok p2
    /\ submissions (trace p2) = [] /\ close_calls (trace p2) = 1%nat
    /\ sem_destroys (trace p2) = 2%nat /\ sockfd p2 < 0
    /\ act_all [Packet (PktSocket 7 0); Packet (PktConnect 0 0);
                Signal SIGUSR1 0; Signal SIGUSR2 0] p2
       = Ok p3
    /\ running p3 = 0 /\ submissions (trace p3) = []
    /\ close_calls (trace p3) = 2%nat.
Proof.
  destruct (shutdown_is_final SIGINT 0
              [Signal SIGUSR1 0; Signal SIGTERM 0; Signal SIGUSR2 0]
              (sample_process 0 5))
    as (p1 & E1 & _ & _ & _ & H & _).
  - left; reflexivity.
  - repeat constructor.
  - exists p1.
    destruct (act_all [Signal SIGUSR1 0; Signal SIGTERM 0; Signal SIGUSR2 0] p1)
      as [p2|? ?|] eqn:E2; [|contradiction|].
    + destruct H as (_ & _ & new & Ht & Hsub & Hde & _ & Hsig).
      destruct (Hsig [(SIGUSR1, 0); (SIGTERM, 0); (SIGUSR2, 0)] eq_refl)
        as (Hfd & _ & Hcl & _).
      cbn [sample_process trace app] in Ht.
      vm_compute in E1. injection E1 as <-.
      vm_compute in E2. injection E2 as <-.
      eexists _, _. split; [reflexivity|]. split; [reflexivity|].
      repeat split; vm_compute; try reflexivity; discriminate.
    + vm_compute in E1. injection E1 as <-.
      vm_compute in E2. discriminate E2.
Defined.

End CameraRunProofs.

(** * The shape of a run of the stream server worker *)

Module StreamPhasesProofs.

Import StreamServer StreamPhases StreamSetup.

Ltac worker_simpl :=
  cbn [log emit set_in set_viddec set_queue set_incoming set_ret
         trace viddec timestamp_queue incoming_stream clientfd_in ret
         sockfd clientfd fst snd];
  rewrite <- ?app_assoc; cbn [app].

Lemma le_decode_nonneg (bs : list byte) : 0 <= le_decode bs.
Proof.
  induction bs as [|b bs IH]; cbn [le_decode]; [lia|].
  pose proof (N2Z.is_nonneg (Byte.to_N b)). lia.
Qed.

(** A read that reports a non-negative count stored that many bytes, and
    never more than were asked for. *)
Lemma recv_from_stream_count (c : list recv_result) (n k : Z) (got : list byte)
    (rest : list recv_result) :
  recv_from_stream c n = (k, got, rest) ->
  0 <= k -> k = Z.of_nat (length got).
Proof.
  destruct c as [|[data|] c]; cbn [recv_from_stream]; intros [= <- <- <-] Hk;
    [reflexivity|reflexivity|lia].
Qed.

(** Set-up reaches the loop with the two descriptors it was given, and
    neither is negative. *)
Lemma setup_entered (core : Z) (e : setup_env) (sfd cfd : Z)
    (tr : list setup_event) :
  setup core e = Entered sfd cfd tr -> 0 <= sfd /\ 0 <= cfd.
Proof.
  unfold setup, pin_to_core.
  destruct (malloc_ok e); cbn [negb]; [|discriminate].
  destruct (setaffinity_ret e =? -1); cbv beta iota zeta;
    (match goal with
     | |- context [negb (?r =? 0)] => destruct (negb (r =? 0)); [discriminate|]
     end);
    (destruct (negb (init_queue_ret e =? 0)); [discriminate|]);
    (destruct (negb (init_decoder_ret e =? 0)); [discriminate|]);
    (destruct (Z.ltb_spec (setup_stream_ret e) 0); [discriminate|]);
    (destruct (Z.ltb_spec (accept_conn_ret e) 0); [discriminate|]);
    intros Heq; inversion Heq; subst; lia.
Qed.

Section Shape.

Variable ENCODED_FRAME_BUF_SIZE : Z.
Variable decoder : Type.
Variable decode_packet : decoder -> list byte -> Z * decoder.
Variable recv_frame : decoder -> Z * decoder.
Variable flush_decoder : decoder -> Z * decoder.
Variable queue : Type.
Variable enqueue : queue -> Z -> Z * queue.
Variable dequeue : queue -> Z * queue.

Abbreviation worker := (worker decoder queue).
Abbreviation iter :=
  (stream_mgr_iter ENCODED_FRAME_BUF_SIZE decode_packet recv_frame
     flush_decoder enqueue dequeue).
Abbreviation loop :=
  (stream_mgr_loop ENCODED_FRAME_BUF_SIZE decode_packet recv_frame
     flush_decoder enqueue dequeue).

(** The [if (new_frame)] block appends one of the four [stage_step]
    sequences and touches neither the input nor [incoming_stream]. *)
Lemma frame_stage_step (w : worker) :
  exists new,
    trace (snd (frame_stage recv_frame dequeue w)) = trace w ++ new
    /\ stage_step (fst (frame_stage recv_frame dequeue w)) new
    /\ incoming_stream (snd (frame_stage recv_frame dequeue w))
       = incoming_stream w
    /\ clientfd_in (snd (frame_stage recv_frame dequeue w)) = clientfd_in w.
Proof.
  destruct w as [cin d0 q0 inc r0 sfd cfd tr].
  unfold frame_stage. worker_simpl.
  destruct (recv_frame d0) as [r d].
  destruct (Z.eqb_spec r EAGAIN) as [->|Hna].
  { worker_simpl. eexists. split; [reflexivity|].
    split; [constructor|split; reflexivity]. }
  destruct (Z.eqb_spec r ENODATA) as [->|Hnd].
  { worker_simpl. eexists. split; [reflexivity|].
    split; [constructor|split; reflexivity]. }
  destruct (Z.eqb_spec r 0) as [->|Hnz]; cbn [negb].
  2:{ worker_simpl. eexists. split; [reflexivity|].
      split; [constructor; assumption|split; reflexivity]. }
  worker_simpl. destruct (dequeue q0) as [ts q]. worker_simpl.
  eexists. split; [reflexivity|].
  split; [constructor|split; reflexivity].
Qed.

(** One pass appends one of the [pass_step] sequences. *)
Lemma iter_step (w : worker) :
  exists new,
    trace (snd (iter w)) = trace w ++ new
    /\ pass_step ENCODED_FRAME_BUF_SIZE (incoming_stream w) (fst (iter w))
         (incoming_stream (snd (iter w))) new.
Proof.
  unfold stream_mgr_iter.
  destruct (incoming_stream w) eqn:Hinc.
  2:{ destruct (frame_stage_step w) as (new & Ht & Hst & Hi & _).
      exists new. split; [exact Ht|]. rewrite Hi, Hinc.
      constructor. exact Hst. }
  destruct w as [cin d0 q0 inc r0 sfd cfd tr]. cbn [incoming_stream] in Hinc.
  subst inc. unfold do_recv. worker_simpl.
  destruct (recv_from_stream cin 8) as [[n1 timestamp] in1].
  destruct (Z.eqb_spec n1 8) as [->|Hn1]; cbn [negb].
  2:{ worker_simpl. eexists. split; [reflexivity|].
      constructor. exact Hn1. }
  destruct (List.list_eq_dec byte_eq_dec timestamp EOSTREAM) as [Heos|Hts].
  { worker_simpl. destruct (flush_decoder d0) as [r d]. worker_simpl.
    eexists. split; [reflexivity|]. constructor. }
  worker_simpl.
  destruct (enqueue q0 (le_decode timestamp)) as [r1 q1].
  destruct (Z.eqb_spec r1 0) as [->|Hr1]; cbn [negb].
  2:{ worker_simpl. eexists. split; [reflexivity|].
      constructor. exact Hr1. }
  worker_simpl.
  destruct (recv_from_stream in1 4) as [[n2 size_buf] in2].
  destruct (Z.eqb_spec n2 4) as [->|Hn2]; cbn [negb].
  2:{ worker_simpl. eexists. split; [reflexivity|].
      constructor. exact Hn2. }
  pose proof (le_decode_nonneg size_buf) as Hnn.
  destruct (Z.gtb_spec (le_decode size_buf) ENCODED_FRAME_BUF_SIZE) as [?|Hfit].
  { worker_simpl. eexists. split; [reflexivity|]. constructor. }
  worker_simpl.
  destruct (recv_from_stream in2 (le_decode size_buf)) as [[n3 payload] in3] eqn:Hrecv.
  destruct (Z.eqb_spec n3 (le_decode size_buf)) as [->|Hn3]; cbn [negb].
  2:{ worker_simpl. eexists. split; [reflexivity|].
      constructor; [lia|exact Hn3]. }
  worker_simpl.
  pose proof (recv_from_stream_count _ _ _ _ _ Hrecv Hnn) as Hlen.
  rewrite Hlen in *.
  destruct (decode_packet d0 payload) as [r2 d2].
  destruct (Z.eqb_spec r2 0) as [->|Hr2]; cbn [negb].
  2:{ worker_simpl. eexists. split; [reflexivity|].
      constructor; [lia|exact Hr2]. }
  match goal with
  | |- context [frame_stage recv_frame dequeue ?w1'] => set (w1 := w1')
  end.
  assert (Hw1t : trace w1
                 = tr ++ [EvRecv 8 8; EvEnqueue (le_decode timestamp) 0;
                          EvRecv 4 4;
                          EvRecv (Z.of_nat (length payload))
                            (Z.of_nat (length payload));
                          EvLog INFO "Received frame"; EvDecode payload 0]).
  { unfold w1. worker_simpl. reflexivity. }
  assert (Hw1i : incoming_stream w1 = true) by reflexivity.
  clearbody w1.
  destruct (frame_stage_step w1) as (new & Ht & Hst & Hi & _).
  rewrite Hw1t, <- app_assoc in Ht. rewrite Hw1i in Hi.
  eexists. rewrite Ht, Hi. split; [reflexivity|].
  apply (pass_packet _ _ payload); [lia|exact Hst].
Qed.

(** An invariant kept by every [pass_step] holds in every reachable
    state. *)
Lemma reachable_invariant
    (I : bool -> loop_ctrl -> list event -> Prop) (w0 : worker) :
  I (incoming_stream w0) Continue (trace w0) ->
  (forall tr b c b' new,
     I b Continue tr -> pass_step ENCODED_FRAME_BUF_SIZE b c b' new ->
     I b' c (tr ++ new)) ->
  forall c w, reachable iter w0 c w -> I (incoming_stream w) c (trace w).
Proof.
  intros H0 Hstep c w Hr.
  induction Hr as [|c w w' _ IH Hiter]; [exact H0|].
  destruct (iter_step w) as (new & Ht & Hp).
  rewrite Hiter in Ht, Hp. cbn [fst snd] in Ht, Hp.
  rewrite Ht. exact (Hstep _ _ _ _ _ IH Hp).
Qed.

(** *** Reads and frames fit their buffers *)

Lemma reads_fit_app (slot : nat) (tr1 tr2 : list event) :
  reads_fit ENCODED_FRAME_BUF_SIZE slot tr1 ->
  reads_fit ENCODED_FRAME_BUF_SIZE (slot_after slot tr1) tr2 ->
  reads_fit ENCODED_FRAME_BUF_SIZE slot (tr1 ++ tr2).
Proof.
  revert slot. induction tr1 as [|ev tr1 IH]; intros slot H1 H2; [exact H2|].
  destruct ev; cbn [app reads_fit slot_after] in *; try (apply IH; assumption).
  destruct H1 as [Hn H1]. split; [exact Hn|]. apply IH; assumption.
Qed.

Lemma slot_after_app (slot : nat) (tr1 tr2 : list event) :
  slot_after slot (tr1 ++ tr2) = slot_after (slot_after slot tr1) tr2.
Proof.
  revert slot. induction tr1 as [|ev tr1 IH]; intros slot; [reflexivity|].
  destruct ev; cbn [app slot_after]; apply IH.
Qed.

Lemma stage_step_no_reads (c : loop_ctrl) (evs : list event) (slot : nat) :
  stage_step c evs ->
  reads_fit ENCODED_FRAME_BUF_SIZE slot evs /\ slot_after slot evs = slot
  /\ Forall (frame_fits ENCODED_FRAME_BUF_SIZE) evs.
Proof.
  intros []; cbn; repeat split; repeat constructor.
Qed.

Lemma fits_inv_step tr b c b' new :
  fits_inv ENCODED_FRAME_BUF_SIZE b Continue tr ->
  pass_step ENCODED_FRAME_BUF_SIZE b c b' new ->
  fits_inv ENCODED_FRAME_BUF_SIZE b' c (tr ++ new).
Proof.
  intros (Hf & Hr & Hs) Hp. unfold fits_inv.
  rewrite Forall_app, slot_after_app.
  destruct Hp as [c evs Hst|k Hk|r|ts r Hr1|ts k Hk|ts|ts n k Hn Hk
                 |ts frame r Hlen Hr1|ts frame c evs Hlen Hst].
  - destruct (stage_step_no_reads c evs (slot_after 0 tr) Hst) as (H1 & H2 & H3).
    split; [split; assumption|].
    split; [apply reads_fit_app; assumption|]. intros _ [=].
  - rewrite (Hs eq_refl eq_refl).
    split; [split; [exact Hf|repeat constructor]|].
    split; [apply reads_fit_app; [exact Hr|]|intros [=]].
    rewrite (Hs eq_refl eq_refl). cbn. tauto.
  - rewrite (Hs eq_refl eq_refl).
    split; [split; [exact Hf|repeat constructor]|].
    split; [apply reads_fit_app; [exact Hr|]|intros _ [=]].
    rewrite (Hs eq_refl eq_refl). cbn. tauto.
  - rewrite (Hs eq_refl eq_refl).
    split; [split; [exact Hf|repeat constructor]|].
    split; [apply reads_fit_app; [exact Hr|]|intros [=]].
    rewrite (Hs eq_refl eq_refl). cbn. tauto.
  - rewrite (Hs eq_refl eq_refl).
    split; [split; [exact Hf|repeat constructor]|].
    split; [apply reads_fit_app; [exact Hr|]|intros [=]].
    rewrite (Hs eq_refl eq_refl). cbn. tauto.
  - rewrite (Hs eq_refl eq_refl).
    split; [split; [exact Hf|repeat constructor]|].
    split; [apply reads_fit_app; [exact Hr|]|intros [=]].
    rewrite (Hs eq_refl eq_refl). cbn. tauto.
  - rewrite (Hs eq_refl eq_refl).
    split; [split; [exact Hf|repeat constructor]|].
    split; [apply reads_fit_app; [exact Hr|]|intros [=]].
    rewrite (Hs eq_refl eq_refl). cbn. tauto.
  - rewrite (Hs eq_refl eq_refl).
    split; [split; [exact Hf|repeat constructor; exact Hlen]|].
    split; [apply reads_fit_app; [exact Hr|]|intros [=]].
    rewrite (Hs eq_refl eq_refl). cbn. lia.
  - rewrite (Hs eq_refl eq_refl).
    destruct (stage_step_no_reads c evs 0%nat Hst) as (H1 & H2 & H3).
    split; [split; [exact Hf|]|].
    { repeat (apply List.Forall_cons; [first [exact Hlen|exact I]|]).
      exact H3. }
    split; [apply reads_fit_app; [exact Hr|]|].
    + rewrite (Hs eq_refl eq_refl). cbn [app reads_fit next_slot].
      repeat split; try lia. exact H1.
    + intros _ _. cbn [app slot_after next_slot]. exact H2.
Qed.

(** X14: no read overflows the variable it fills, and no frame handed
    to the decoder is longer than the frame buffer.  In every state the
    loop can reach, the reads made so far asked in turn for 8 bytes
    (timestamp), 4 bytes (size) and at most [ENCODED_FRAME_BUF_SIZE]
    bytes (payload), and every [decode_packet] call was given at most
    [ENCODED_FRAME_BUF_SIZE] bytes, whatever the peer sent and whatever
    the decoder and the queue answer. *)
Theorem reads_and_frames_fit (input : list recv_result) (d0 : decoder)
    (q0 : queue) (sfd cfd : Z) (c : loop_ctrl) (w : worker) :
  reachable iter (entry input d0 q0 sfd cfd) c w ->
  Forall (frame_fits ENCODED_FRAME_BUF_SIZE) (trace w)
  /\ reads_fit ENCODED_FRAME_BUF_SIZE 0 (trace w).
Proof.
  intros Hr.
  destruct (reachable_invariant (fits_inv ENCODED_FRAME_BUF_SIZE)
              (entry input d0 q0 sfd cfd)) with
    (c := c) (w := w) as (Hf & Hrd & _).
  - unfold fits_inv. cbn. repeat split. constructor.
  - exact fits_inv_step.
  - exact Hr.
  - split; assumption.
Qed.

(** *** The two phases *)

Lemma stage_step_drain (c : loop_ctrl) (evs : list event) :
  stage_step c evs -> Forall drain_event evs /\ Forall no_flush evs.
Proof. intros []; split; repeat constructor. Qed.

Lemma phase_inv_step tr b c b' new :
  phase_inv b tr -> pass_step ENCODED_FRAME_BUF_SIZE b c b' new ->
  phase_inv b' (tr ++ new).
Proof.
  intros Hinv Hp.
  destruct Hp as [c evs Hst|k Hk|r|ts r Hr1|ts k Hk|ts|ts n k Hn Hk
                 |ts frame r Hlen Hr1|ts frame c evs Hlen Hst];
    cbn [phase_inv] in *;
    try solve [apply Forall_app; split; [exact Hinv|repeat constructor]].
  - destruct Hinv as (pre & r & post & -> & Hpre & Hpost).
    exists pre, r, (post ++ evs). rewrite <- app_assoc. cbn [app].
    split; [reflexivity|]. split; [exact Hpre|].
    apply Forall_app. split; [exact Hpost|apply (stage_step_drain c); exact Hst].
  - exists (tr ++ [EvRecv 8 8; EvLog INFO "Received end of stream signal"]), r, [].
    rewrite <- app_assoc. cbn [app]. split; [reflexivity|].
    split; [|constructor].
    apply Forall_app. split; [exact Hinv|repeat constructor].
  - apply Forall_app. split; [exact Hinv|].
    repeat (apply List.Forall_cons; [exact I|]).
    apply (stage_step_drain c); exact Hst.
Qed.

(** X15: [flush_decoder] divides every run in two.  While
    [incoming_stream] is set it has not been called; once the flag is
    cleared it has been called exactly once, and everything the worker
    has done since is poll the decoder, dequeue timestamps and log: it
    never reads the socket, enqueues a timestamp or calls [decode_packet]
    again, whatever the decoder answers. *)
Theorem flush_divides_run (input : list recv_result) (d0 : decoder)
    (q0 : queue) (sfd cfd : Z) (c : loop_ctrl) (w : worker) :
  reachable iter (entry input d0 q0 sfd cfd) c w ->
  (incoming_stream w = true -> Forall no_flush (trace w))
  /\ (incoming_stream w = false ->
      exists pre r post,
        trace w = pre ++ EvFlush r :: post
        /\ Forall no_flush pre /\ Forall drain_event post).
Proof.
  intros Hr.
  pose proof (reachable_invariant (fun b _ tr => phase_inv b tr)
                (entry input d0 q0 sfd cfd)) as Hinv.
  specialize (Hinv ltac:(constructor)
                (fun tr b c b' new H1 H2 => phase_inv_step tr b c b' new H1 H2)
                c w Hr).
  cbn beta in Hinv. unfold phase_inv in Hinv.
  split; intros Hb; rewrite Hb in Hinv; exact Hinv.
Qed.

(** *** The streaming phase *)

Ltac stream_prefix n :=
  do 11 (try (destruct n as [|n]; [StreamServerProofs.prefix_bound|]));
  StreamServerProofs.prefix_bound.

Lemma streaming_inv_step tr b c b' new :
  streaming_inv b Continue tr ->
  pass_step ENCODED_FRAME_BUF_SIZE b c b' new ->
  streaming_inv b' c (tr ++ new).
Proof.
  intros Hinv Hp.
  destruct Hp as [c evs Hst|k Hk|r|ts r Hr1|ts k Hk|ts|ts n k Hn Hk
                 |ts frame r Hlen Hr1|ts frame c evs Hlen Hst];
    unfold streaming_inv in *; intros Hb'; try discriminate Hb'; clear Hb';
    destruct (Hinv eq_refl) as (Hd & Hf & Hpk & Hc & Hbal);
    destruct (Hc eq_refl) as [Hc1 Hc2];
    pose proof (StreamServerProofs.timestamps_enqueued_nonneg tr) as Hnn;
    try destruct Hst;
    StreamServerProofs.count_simpl;
    repeat match goal with
           | |- context [?r =? 0] =>
               destruct (Z.eqb_spec r 0); [try contradiction|]
           end;
    (repeat split; try lia; try discriminate;
     try (apply StreamServerProofs.balanced_app; [assumption|];
          let n := fresh "n" in intros n; stream_prefix n)).
Qed.

(** X16: while packets are coming, the timestamp queue cannot run
    empty under a [dequeue], whatever the decoder does.  As long as
    [incoming_stream] is set, the worker has polled the decoder exactly
    once per packet received in full, so it has dequeued at most one
    timestamp per packet, each after that packet's timestamp was
    enqueued: at every point of the trace no more timestamps have been
    dequeued than enqueued. *)
Theorem streaming_never_underflows (input : list recv_result) (d0 : decoder)
    (q0 : queue) (sfd cfd : Z) (c : loop_ctrl) (w : worker) :
  reachable iter (entry input d0 q0 sfd cfd) c w ->
  incoming_stream w = true ->
  timestamps_dequeued (trace w) = frames_emitted (trace w)
  /\ frames_emitted (trace w) <= frame_polls (trace w)
                              <= packets_received (trace w)
  /\ packets_received (trace w) <= timestamps_enqueued (trace w)
                                <= packets_received (trace w) + 1
  /\ (c = Continue ->
      frame_polls (trace w) = packets_received (trace w)
      /\ timestamps_enqueued (trace w) = packets_received (trace w))
  /\ balanced (trace w).
Proof.
  intros Hr Hb.
  apply (reachable_invariant streaming_inv (entry input d0 q0 sfd cfd));
    [|exact streaming_inv_step|exact Hr|exact Hb].
  intros _. cbn. repeat split; try lia.
  apply StreamServerProofs.balanced_nil.
Qed.

(** *** A connection that ends without the sentinel *)

Lemma recv_from_stream_rest (c : list recv_result) (n k : Z) (got : list byte)
    (rest : list recv_result) :
  recv_from_stream c n = (k, got, rest) ->
  (length rest <= length c)%nat
  /\ (forall P : recv_result -> Prop, Forall P c -> Forall P rest)
  /\ (k = 8 -> n = 8 ->
      (length rest < length c)%nat
      /\ exists data, c = Recvd data :: rest /\ got = take 8 data).
Proof.
  destruct c as [|[data|] c]; cbn [recv_from_stream]; intros [= <- <- <-].
  - split; [reflexivity|]. split; [intros P HP; exact HP|]. intros [=].
  - split; [cbn; lia|]. split; [intros P HP; inversion HP; assumption|].
    intros _ ->. split; [cbn; lia|]. exists data. split; reflexivity.
  - split; [cbn; lia|]. split; [intros P HP; inversion HP; assumption|].
    intros [=].
Qed.

Lemma frame_stage_keeps (w : worker) :
  incoming_stream (snd (frame_stage recv_frame dequeue w)) = incoming_stream w
  /\ clientfd_in (snd (frame_stage recv_frame dequeue w)) = clientfd_in w.
Proof.
  destruct (frame_stage_step w) as (new & _ & _ & Hi & Hc).
  split; assumption.
Qed.

(** A pass made while packets are coming, on input in which no read
    delivers the sentinel: the flag stays set, and a pass that does not
    leave the loop has consumed input. *)
Lemma iter_consumes (w : worker) :
  incoming_stream w = true ->
  Forall (fun r => ~ delivers_sentinel r) (clientfd_in w) ->
  incoming_stream (snd (iter w)) = true
  /\ (fst (iter w) = Continue ->
      (length (clientfd_in (snd (iter w))) < length (clientfd_in w))%nat
      /\ Forall (fun r => ~ delivers_sentinel r) (clientfd_in (snd (iter w)))).
Proof.
  intros Hinc Hin. unfold stream_mgr_iter. rewrite Hinc.
  destruct w as [cin d0 q0 inc r0 sfd cfd tr]. cbn [clientfd_in] in Hin.
  unfold do_recv. worker_simpl.
  destruct (recv_from_stream cin 8) as [[n1 timestamp] in1] eqn:Hr1.
  destruct (recv_from_stream_rest _ _ _ _ _ Hr1) as (_ & _ & Hhead).
  destruct (Z.eqb_spec n1 8) as [->|Hn1]; cbn [negb].
  2:{ worker_simpl. split; [exact Hinc|intros [=]]. }
  destruct (Hhead eq_refl eq_refl) as (Hlt1 & data & -> & ->).
  inversion Hin as [|? ? Hdata Hin1]; subst.
  destruct (List.list_eq_dec byte_eq_dec (take 8 data) EOSTREAM) as [Heos|Hts];
    [exfalso; apply Hdata; exact Heos|].
  worker_simpl.
  destruct (enqueue q0 (le_decode (take 8 data))) as [r1 q1].
  destruct (Z.eqb_spec r1 0) as [->|Hr1z]; cbn [negb].
  2:{ worker_simpl. split; [exact Hinc|intros [=]]. }
  worker_simpl.
  destruct (recv_from_stream in1 4) as [[n2 size_buf] in2] eqn:Hr2.
  destruct (recv_from_stream_rest _ _ _ _ _ Hr2) as (Hle2 & Hall2 & _).
  destruct (Z.eqb_spec n2 4) as [->|Hn2]; cbn [negb].
  2:{ worker_simpl. split; [exact Hinc|intros [=]]. }
  destruct (le_decode size_buf >? ENCODED_FRAME_BUF_SIZE).
  { worker_simpl. split; [exact Hinc|intros [=]]. }
  worker_simpl.
  destruct (recv_from_stream in2 (le_decode size_buf)) as [[n3 payload] in3] eqn:Hr3.
  destruct (recv_from_stream_rest _ _ _ _ _ Hr3) as (Hle3 & Hall3 & _).
  destruct (Z.eqb_spec n3 (le_decode size_buf)) as [->|Hn3]; cbn [negb].
  2:{ worker_simpl. split; [exact Hinc|intros [=]]. }
  worker_simpl.
  destruct (decode_packet d0 payload) as [r2 d2].
  destruct (Z.eqb_spec r2 0) as [->|Hr2z]; cbn [negb].
  2:{ worker_simpl. split; [exact Hinc|intros [=]]. }
  match goal with
  | |- context [frame_stage recv_frame dequeue ?w1'] => set (w1 := w1')
  end.
  assert (Hw1c : clientfd_in w1 = in3) by reflexivity.
  assert (Hw1i : incoming_stream w1 = inc) by reflexivity.
  clearbody w1.
  destruct (frame_stage_keeps w1) as (Hi & Hc).
  rewrite Hi, Hc, Hw1c, Hw1i. cbn [incoming_stream] in Hinc.
  split; [exact Hinc|]. intros _.
  cbn [clientfd_in length] in *.
  split; [lia|]. apply Hall3, Hall2. exact Hin1.
Qed.

Lemma stream_mgr_loop_ends (fuel : nat) :
  forall w : worker,
    incoming_stream w = true ->
    Forall (fun r => ~ delivers_sentinel r) (clientfd_in w) ->
    (length (clientfd_in w) < fuel)%nat ->
    exists w', loop fuel w = Some w' /\ incoming_stream w' = true.
Proof.
  induction fuel as [|fuel IH]; intros w Hinc Hin Hlen; [lia|].
  cbn [stream_mgr_loop].
  destruct (iter_consumes w Hinc Hin) as (Hi & Hcont).
  destruct (iter w) as [[|] w1]; cbn [fst snd] in *.
  - destruct (Hcont eq_refl) as (Hlt & Hin1).
    apply IH; [exact Hi|exact Hin1|lia].
  - exists w1. split; [reflexivity|exact Hi].
Qed.

Lemma stream_mgr_loop_more_fuel (fuel : nat) :
  forall (w w' : worker) (extra : nat),
    loop fuel w = Some w' -> loop (fuel + extra) w = Some w'.
Proof.
  induction fuel as [|fuel IH]; intros w w' extra; cbn [stream_mgr_loop Nat.add];
    [discriminate|].
  destruct (iter w) as [[|] w1]; [apply IH|intros H; exact H].
Qed.

(** X17: a connection that ends without the sentinel does not hang the
    worker.  When no read in the timestamp slot delivers [EOSTREAM], the
    loop is left after at most one pass more than the connection has
    deliveries, with [incoming_stream] still set: [flush_decoder] is
    never called on this path, so frames still inside the decoder are
    not drained. *)
Theorem closed_connection_ends_loop (w : worker) :
  incoming_stream w = true ->
  Forall (fun r => ~ delivers_sentinel r) (clientfd_in w) ->
  exists w',
    (forall fuel : nat,
       (length (clientfd_in w) < fuel)%nat -> loop fuel w = Some w')
    /\ incoming_stream w' = true.
Proof.
  intros Hinc Hin.
  destruct (stream_mgr_loop_ends (S (length (clientfd_in w))) w Hinc Hin
              ltac:(lia)) as (w' & Hloop & Hi).
  exists w'. split; [|exact Hi].
  intros fuel Hlen.
  replace fuel with (S (length (clientfd_in w))
                     + (fuel - S (length (clientfd_in w))))%nat by lia.
  apply stream_mgr_loop_more_fuel. exact Hloop.
Qed.

(** *** A decoder that never reports the end of the stream *)

Lemma draining_pass_again (w : worker) (d' : decoder) :
  incoming_stream w = false ->
  recv_frame (viddec w) = (EAGAIN, d') ->
  exists w',
    iter w = (Continue, w')
    /\ incoming_stream w' = false /\ viddec w' = d'
    /\ clientfd_in w' = clientfd_in w
    /\ timestamp_queue w' = timestamp_queue w
    /\ trace w' = trace w ++ [EvRecvFrame EAGAIN].
Proof.
  intros Hinc Hrf. unfold stream_mgr_iter. rewrite Hinc.
  destruct w as [cin d0 q0 inc r0 sfd cfd tr].
  cbn [viddec incoming_stream] in *.
  unfold frame_stage. worker_simpl. rewrite Hrf.
  rewrite Z.eqb_refl. worker_simpl.
  eexists. split; [reflexivity|]. worker_simpl.
  repeat split; assumption.
Qed.

(** X18: the draining phase is a busy wait on the decoder.  After the
    sentinel, a decoder that keeps answering EAGAIN keeps the worker in
    the loop for ever: each pass polls it once and does nothing else (no
    read, no dequeue, no pause), and no number of passes ends the loop. *)
Theorem draining_spins_on_eagain (stuck : decoder -> Prop) (w : worker) :
  (forall d, stuck d -> exists d', recv_frame d = (EAGAIN, d') /\ stuck d') ->
  incoming_stream w = false -> stuck (viddec w) ->
  forall n : nat,
    loop n w = None
    /\ exists wn,
         reachable iter w Continue wn
         /\ trace wn = trace w ++ repeat (EvRecvFrame EAGAIN) n
         /\ clientfd_in wn = clientfd_in w
         /\ timestamp_queue wn = timestamp_queue w.
Proof.
  intros Hstuck Hinc Hd n. split.
  - revert w Hinc Hd. induction n as [|n IH]; intros w Hinc Hd; [reflexivity|].
    cbn [stream_mgr_loop].
    destruct (Hstuck _ Hd) as (d' & Hrf & Hd').
    destruct (draining_pass_again w d' Hinc Hrf)
      as (w' & -> & Hi & Hv & _).
    apply IH; [exact Hi|rewrite Hv; exact Hd'].
  - assert (Hreach : exists wn,
               reachable iter w Continue wn
               /\ incoming_stream wn = false /\ stuck (viddec wn)
               /\ trace wn = trace w ++ repeat (EvRecvFrame EAGAIN) n
               /\ clientfd_in wn = clientfd_in w
               /\ timestamp_queue wn = timestamp_queue w).
    { induction n as [|n (wn & Hr & Hi & Hs & Ht & Hc & Hq)].
      - exists w. cbn [repeat]. rewrite app_nil_r.
        repeat split; try assumption. constructor.
      - destruct (Hstuck _ Hs) as (d' & Hrf & Hd').
        destruct (draining_pass_again wn d' Hi Hrf)
          as (w' & Hiter & Hi' & Hv' & Hc' & Hq' & Ht').
        exists w'. split; [exact (reach_pass _ _ _ _ _ Hr Hiter)|].
        split; [exact Hi'|]. split; [rewrite Hv'; exact Hd'|].
        split; [|split; congruence].
        rewrite Ht', Ht, <- app_assoc. f_equal.
        symmetry. apply (repeat_cons n (EvRecvFrame EAGAIN)). }
    destruct Hreach as (wn & Hr & _ & _ & Ht & Hc & Hq).
    exists wn. repeat split; assumption.
Qed.

(** *** Leaving the loop *)

Lemma frame_stage_keeps_fds (w : worker) :
  sockfd (snd (frame_stage recv_frame dequeue w)) = sockfd w
  /\ clientfd (snd (frame_stage recv_frame dequeue w)) = clientfd w.
Proof.
  destruct w as [cin d0 q0 inc r0 sfd cfd tr].
  unfold frame_stage. worker_simpl.
  destruct (recv_frame d0) as [r d].
  destruct (r =? EAGAIN); [split; reflexivity|].
  destruct (r =? ENODATA); [split; reflexivity|].
  destruct (negb (r =? 0)); [split; reflexivity|].
  worker_simpl. destruct (dequeue q0) as [ts q]. split; reflexivity.
Qed.

Lemma iter_keeps_fds (w : worker) :
  sockfd (snd (iter w)) = sockfd w /\ clientfd (snd (iter w)) = clientfd w.
Proof.
  unfold stream_mgr_iter.
  destruct (incoming_stream w); [|apply frame_stage_keeps_fds].
  destruct w as [cin d0 q0 inc r0 sfd cfd tr].
  unfold do_recv. worker_simpl.
  destruct (recv_from_stream cin 8) as [[n1 timestamp] in1].
  destruct (negb (n1 =? 8)); [split; reflexivity|].
  destruct (List.list_eq_dec byte_eq_dec timestamp EOSTREAM).
  { worker_simpl. destruct (flush_decoder d0) as [r d]. split; reflexivity. }
  worker_simpl.
  destruct (enqueue q0 (le_decode timestamp)) as [r1 q1].
  destruct (negb (r1 =? 0)); [split; reflexivity|].
  worker_simpl.
  destruct (recv_from_stream in1 4) as [[n2 size_buf] in2].
  destruct (negb (n2 =? 4)); [split; reflexivity|].
  destruct (le_decode size_buf >? ENCODED_FRAME_BUF_SIZE); [split; reflexivity|].
  worker_simpl.
  destruct (recv_from_stream in2 (le_decode size_buf)) as [[n3 payload] in3].
  destruct (negb (n3 =? le_decode size_buf)); [split; reflexivity|].
  worker_simpl.
  destruct (decode_packet d0 payload) as [r2 d2].
  destruct (negb (r2 =? 0)); [split; reflexivity|].
  match goal with
  | |- context [frame_stage recv_frame dequeue ?w1] =>
      destruct (frame_stage_keeps_fds w1) as [H1 H2]
  end.
  split; [rewrite H1|rewrite H2]; reflexivity.
Qed.

Lemma reachable_keeps_fds (w0 : worker) (c : loop_ctrl) (w : worker) :
  reachable iter w0 c w -> sockfd w = sockfd w0 /\ clientfd w = clientfd w0.
Proof.
  induction 1 as [|c w w' _ [IH1 IH2] Hiter]; [split; reflexivity|].
  destruct (iter_keeps_fds w) as [H1 H2]. rewrite Hiter in H1, H2.
  cbn [snd] in H1, H2. split; congruence.
Qed.

Lemma stage_step_holds (c : loop_ctrl) (evs : list event) :
  stage_step c evs -> Forall (fun ev => ~ releases ev) evs.
Proof. intros []; repeat constructor; intros []. Qed.

Lemma holds_step tr b c b' new :
  Forall (fun ev => ~ releases ev) tr ->
  pass_step ENCODED_FRAME_BUF_SIZE b c b' new ->
  Forall (fun ev => ~ releases ev) (tr ++ new).
Proof.
  intros Hinv Hp. apply Forall_app. split; [exact Hinv|].
  destruct Hp as [c evs Hst|k Hk|r|ts r Hr1|ts k Hk|ts|ts n k Hn Hk
                 |ts frame r Hlen Hr1|ts frame c evs Hlen Hst];
    try solve [repeat (apply List.Forall_cons; [intros []|]); apply List.Forall_nil].
  - apply (stage_step_holds c). exact Hst.
  - repeat (apply List.Forall_cons; [intros []|]).
    apply (stage_step_holds c). exact Hst.
Qed.

(** X19: whichever way the loop is left, everything is released once
    and only then.  When set-up reached the loop, no pass of the loop
    frees the buffer, cleans up the decoder or the queue, or closes a
    descriptor; the [cleanup] label then frees the buffer, cleans up the
    decoder and the queue, and closes the listening and the client
    socket that set-up opened, in this order. *)
Theorem loop_exit_releases_once (core : Z) (e : setup_env)
    (input : list recv_result) (d0 : decoder) (q0 : queue) (sfd cfd : Z)
    (tr0 : list setup_event) (w : worker) :
  setup core e = Entered sfd cfd tr0 ->
  reachable iter (entry input d0 q0 sfd cfd) Break w ->
  Forall (fun ev => ~ releases ev) (trace w)
  /\ trace (cleanup w)
     = trace w ++ [EvFree; EvCleanupDecoder; EvCleanupQueue;
                   EvClose sfd; EvClose cfd].
Proof.
  intros Hsetup Hr.
  assert (Hfds : 0 <= sfd /\ 0 <= cfd).
  { apply setup_entered in Hsetup. exact Hsetup. }
  split.
  - apply (reachable_invariant (fun _ _ tr => Forall (fun ev => ~ releases ev) tr)
             (entry input d0 q0 sfd cfd) ltac:(constructor)
             (fun tr b c b' new H1 H2 => holds_step tr b c b' new H1 H2)
             Break w Hr).
  - destruct (reachable_keeps_fds _ _ _ Hr) as [Hs Hc].
    cbn [entry sockfd clientfd] in Hs, Hc.
    rewrite StreamServerProofs.cleanup_trace, Hs, Hc.
    destruct (Z.geb_spec sfd 0); [|lia].
    destruct (Z.geb_spec cfd 0); [|lia].
    reflexivity.
Qed.

End Shape.

Lemma reads_and_frames_fit_witness :
  exists w,
    sample_iter 1024 (sample_entry two_packets) = (Continue, w)
    /\ Forall (frame_fits 1024) (trace w)
    /\ reads_fit 1024 0 (trace w).
Proof.
  eexists. split; [vm_compute; reflexivity|].
  apply (reads_and_frames_fit 1024 _ lag_decode_packet lag_recv_frame
           lag_flush_decoder _ fifo_enqueue fifo_dequeue two_packets
           (0%nat, false) [] 3 4 Continue).
  eapply reach_pass; [apply reach_entry|]. vm_compute. reflexivity.
Defined.

Lemma flush_divides_run_witness :
  exists w,
    sample_iter 1024 (sample_entry [Recvd EOSTREAM]) = (Continue, w)
    /\ exists pre r post,
         trace w = pre ++ EvFlush r :: post
         /\ Forall no_flush pre /\ Forall drain_event post.
Proof.
  eexists. split; [vm_compute; reflexivity|].
  apply (flush_divides_run 1024 _ lag_decode_packet lag_recv_frame
           lag_flush_decoder _ fifo_enqueue fifo_dequeue [Recvd EOSTREAM]
           (0%nat, false) [] 3 4 Continue).
  - eapply reach_pass; [apply reach_entry|]. vm_compute. reflexivity.
  - reflexivity.
Defined.

Lemma streaming_never_underflows_witness :
  exists w,
    sample_iter 1024 (sample_entry two_packets) = (Continue, w)
    /\ frame_polls (trace w) = packets_received (trace w)
    /\ balanced (trace w).
Proof.
  eexists. split; [vm_compute; reflexivity|].
  match goal with
  | |- frame_polls (trace ?w) = _ /\ _ =>
      destruct (streaming_never_underflows 1024 _ lag_decode_packet
                  lag_recv_frame lag_flush_decoder _ fifo_enqueue fifo_dequeue
                  two_packets (0%nat, false) [] 3 4 Continue w)
        as (_ & _ & _ & Hc & Hbal)
  end.
  - eapply reach_pass; [apply reach_entry|]. vm_compute. reflexivity.
  - reflexivity.
  - split; [apply Hc; reflexivity|exact Hbal].
Defined.

Lemma closed_connection_ends_loop_witness :
  exists w',
    sample_loop 1024 3 (sample_entry [Recvd ts_bytes; Recvd [x01]]) = Some w'
    /\ incoming_stream w' = true.
Proof.
  destruct (closed_connection_ends_loop 1024 _ lag_decode_packet
              lag_recv_frame lag_flush_decoder _ fifo_enqueue fifo_dequeue
              (sample_entry [Recvd ts_bytes; Recvd [x01]]))
    as (w' & Hloop & Hinc).
  - reflexivity.
  - repeat (apply List.Forall_cons; [intros H; vm_compute in H; discriminate H|]).
    apply List.Forall_nil.
  - exists w'. split; [apply Hloop; cbn; lia|exact Hinc].
Defined.

Lemma draining_spins_on_eagain_witness :
  sample_loop 1024 100 (mk_worker [] (0%nat, false) [] false 0 3 4 []) = None.
Proof.
  apply (draining_spins_on_eagain 1024 _ lag_decode_packet lag_recv_frame
           lag_flush_decoder _ fifo_enqueue fifo_dequeue
           (fun d => d = (0%nat, false))
           (mk_worker [] (0%nat, false) [] false 0 3 4 [])).
  - intros d ->. exists (0%nat, false). split; reflexivity.
  - reflexivity.
  - reflexivity.
Defined.

Lemma loop_exit_releases_once_witness :
  exists tr0 w,
    setup 2 (sample_setup 4) = Entered 3 4 tr0
    /\ sample_loop 1024 1 (sample_entry []) = Some w
    /\ trace (cleanup w)
       = trace w ++ [EvFree; EvCleanupDecoder; EvCleanupQueue;
                     EvClose 3; EvClose 4].
Proof.
  eexists. eexists. split; [vm_compute; reflexivity|].
  split; [vm_compute; reflexivity|].
  eapply (loop_exit_releases_once 1024 _ lag_decode_packet lag_recv_frame
            lag_flush_decoder _ fifo_enqueue fifo_dequeue 2 (sample_setup 4)
            [] (0%nat, false) []).
  - vm_compute. reflexivity.
  - eapply reach_pass; [apply reach_entry|]. vm_compute. reflexivity.
Defined.

End StreamPhasesProofs.

(** * Set-up of the stream server worker *)

Module StreamSetupProofs.

Import StreamServer StreamSetup.

Ltac setup_leaf :=
  unfold listening, decoder_ready, queue_ready;
  cbn [cleanup_locals enc_frame_buf viddec_st timestamp_queue_st l_sockfd
         l_clientfd init_state];
  rewrite <- ?app_assoc; cbn [app];
  repeat match goal with
         | |- context [?x >=? 0] => destruct (Z.geb_spec x 0); try lia
         end;
  rewrite <- ?app_assoc; cbn [app];
  repeat match goal with
         | |- _ /\ _ => split
         | |- _ <-> _ => split
         | |- exists _, _ => eexists
         | |- _ = _ => reflexivity
         | |- ~ _ => intro
         | |- _ -> _ => intro
         end;
  try solve [intuition (try congruence; try lia; try discriminate)].

(** X20: of the six ways set-up can fail, only a failing [accept_conn]
    reaches the [cleanup] label with every local it uses assigned; the
    label then releases the buffer, the decoder, the queue and the
    listening socket.  When [malloc], [pin_to_core], [init_queue] or
    [init_decoder] fails, the label hands [cleanup_decoder] a decoder
    that was never initialised and then tests [sockfd], which has not
    been assigned; when [setup_stream] fails it tests [clientfd], which
    has not been assigned. *)
Theorem setup_failure_cleanup (core : Z) (e : setup_env) :
  0 < setaffinity_errno e ->
  match setup core e with
  | Entered sfd cfd tr =>
      listening e /\ 0 <= accept_conn_ret e
      /\ sfd = setup_stream_ret e /\ cfd = accept_conn_ret e
  | ToCleanup l tr =>
      ~ (listening e /\ 0 <= accept_conn_ret e)
      /\ match cleanup_locals l tr with
         | Cleaned tr' =>
             listening e /\ accept_conn_ret e < 0
             /\ tr' = tr ++ [SeFree; SeCleanupDecoder Ready;
                             SeCleanupQueue Ready;
                             SeClose (setup_stream_ret e)]
         | ReadsUnassigned var tr' =>
             ~ listening e
             /\ (var = "clientfd"%string <-> decoder_ready e)
             /\ (var = "sockfd"%string <-> ~ decoder_ready e)
             /\ exists st_d st_q,
                  tr' = tr ++ (if malloc_ok e then [SeFree] else [])
                           ++ [SeCleanupDecoder st_d; SeCleanupQueue st_q]
                  /\ (st_d = Ready <-> decoder_ready e)
                  /\ (st_q = Ready <-> queue_ready e)
         end
  end.
Proof.
  intros Herr. unfold setup, pin_to_core.
  destruct (malloc_ok e) eqn:Hm; cbn [negb]; [|setup_leaf].
  destruct (Z.eqb_spec (setaffinity_ret e) (-1)) as [Hs|Hs]; cbv beta iota zeta.
  { destruct (Z.eqb_spec (- setaffinity_errno e) 0); [lia|]. cbn [negb].
    setup_leaf. }
  destruct (Z.eqb_spec (setaffinity_ret e) 0) as [Hs0|Hs0]; cbn [negb];
    [|setup_leaf].
  destruct (Z.eqb_spec (init_queue_ret e) 0) as [Hq|Hq]; cbn [negb];
    [|setup_leaf].
  destruct (Z.eqb_spec (init_decoder_ret e) 0) as [Hd|Hd]; cbn [negb];
    [|setup_leaf].
  destruct (Z.ltb_spec (setup_stream_ret e) 0) as [Hl|Hl]; [setup_leaf|].
  destruct (Z.ltb_spec (accept_conn_ret e) 0) as [Ha|Ha]; setup_leaf.
Qed.

Lemma setup_failure_cleanup_witness :
  exists l tr,
    setup 2 (sample_setup (-1)) = ToCleanup l tr
    /\ cleanup_locals l tr
       = Cleaned (tr ++ [SeFree; SeCleanupDecoder Ready; SeCleanupQueue Ready;
                         SeClose 3]).
Proof.
  pose proof (setup_failure_cleanup 2 (sample_setup (-1)) ltac:(cbn; lia)) as H.
  destruct (setup 2 (sample_setup (-1))) as [sfd cfd tr|l tr] eqn:E.
  - vm_compute in E. discriminate E.
  - exists l, tr. split; [reflexivity|].
    destruct H as (_ & H).
    destruct (cleanup_locals l tr) as [tr'|var tr'] eqn:Ec.
    + destruct H as (_ & _ & ->). reflexivity.
    + exfalso. destruct H as (Hn & _). apply Hn.
      vm_compute. repeat split; discriminate.
Defined.

End StreamSetupProofs.

(** * The frame pipeline of the camera node *)

Module PipelineProofs.

Import CameraNode Startup CameraRun Pipeline.

Lemma mod_window (n x y : Z) :
  0 < n -> x mod n = y mod n -> - n < x - y < n -> x = y.
Proof.
  intros Hn Hmod Hwin.
  pose proof (Z.div_mod x n ltac:(lia)) as Hx.
  pose proof (Z.div_mod y n ltac:(lia)) as Hy.
  rewrite Hmod in Hx.
  assert (Hk : x - y = n * (x / n - y / n)) by lia.
  assert (x / n - y / n = 0) by nia.
  lia.
Qed.

Lemma lookup_buffer (datas : list ptr) (k : Z) :
  (0 < length datas)%nat ->
  datas !! Z.to_nat (k mod Z.of_nat (length datas)) = Some (buffer_of datas k).
Proof.
  intros Hn. unfold buffer_of.
  pose proof (Z.mod_pos_bound k (Z.of_nat (length datas)) ltac:(lia)) as Hb.
  destruct (lookup_lt_is_Some_2 datas (Z.to_nat (k mod Z.of_nat (length datas))))
    as [a Ha]; [lia|].
  unfold ptr in *. rewrite Ha. reflexivity.
Qed.

Lemma buffer_of_inj (datas : list ptr) (x y : Z) :
  NoDup datas -> (0 < length datas)%nat ->
  - Z.of_nat (length datas) < x - y < Z.of_nat (length datas) ->
  buffer_of datas x = buffer_of datas y -> x = y.
Proof.
  intros Hnd Hn Hwin Heq.
  pose proof (lookup_buffer datas x Hn) as Hx.
  pose proof (lookup_buffer datas y Hn) as Hy.
  rewrite Heq in Hx.
  pose proof (NoDup_lookup _ _ _ _ Hnd Hx Hy) as Hidx.
  pose proof (Z.mod_pos_bound x (Z.of_nat (length datas)) ltac:(lia)).
  pose proof (Z.mod_pos_bound y (Z.of_nat (length datas)) ltac:(lia)).
  apply (mod_window (Z.of_nat (length datas))); [lia| |exact Hwin].
  lia.
Qed.

Lemma vec_at_requests (n j : Z) :
  0 <= j < n ->
  vec_at (map (fun i => mk_Request i RequestPending) (seqZ 0 n)) j
  = Some (mk_Request j RequestPending).
Proof.
  intros Hj. unfold vec_at.
  destruct (Z.ltb_spec j 0) as [?|_]; [lia|].
  change (map (fun i => mk_Request i RequestPending) (seqZ 0 n))
    with ((fun i => mk_Request i RequestPending) <$> seqZ 0 n).
  rewrite list_lookup_fmap, lookup_seqZ_lt by lia.
  cbn. f_equal. f_equal. lia.
Qed.

Lemma vec_at_buffer (datas : list ptr) (k : Z) :
  (0 < length datas)%nat ->
  vec_at datas (k mod Z.of_nat (length datas)) = Some (buffer_of datas k).
Proof.
  intros Hn. unfold vec_at.
  pose proof (Z.mod_pos_bound k (Z.of_nat (length datas)) ltac:(lia)) as Hb.
  destruct (Z.ltb_spec (k mod Z.of_nat (length datas)) 0) as [?|_]; [lia|].
  apply lookup_buffer. exact Hn.
Qed.

Ltac pipe_simpl :=
  unfold woken, posting;
  cbn [node main_at camera_at proc sys arm_timer sys_emit
         emit log set_cam set_queue_counter set_frame_queue set_running
         set_sockfd set_errno set_next_req_idx set_requests
         running sockfd errno queue_counter frame_queue cam trace
         requests_ mmap_buffers_ next_req_idx_ frame_bytes_ dma_frame_buffers_
         sem_value sem_destroyed sem_getvalue cookie status reuse
         req_status_eqb fst snd].

Ltac pipe_simpl_in H :=
  unfold woken, posting in H;
  cbn [node main_at camera_at proc sys arm_timer sys_emit
         emit log set_cam set_queue_counter set_frame_queue set_running
         set_sockfd set_errno set_next_req_idx set_requests
         running sockfd errno queue_counter frame_queue cam trace
         requests_ mmap_buffers_ next_req_idx_ frame_bytes_ dma_frame_buffers_
         sem_value sem_destroyed sem_getvalue cookie status reuse
         req_status_eqb fst snd] in H.

(** [request_complete] is its two halves, one after the other. *)
Lemma request_complete_split (request : nat) (p : process) :
  request_complete request p
  = match complete_enqueue request p with
    | None => None
    | Some (false, p') => Some p'
    | Some (true, p') => complete_post request p'
    end.
Proof.
  unfold request_complete, complete_enqueue, complete_post.
  destruct (requests_ (cam p) !! request) as [req|] eqn:Hreq; [|reflexivity].
  destruct (req_status_eqb (status req) RequestCancelled); [reflexivity|].
  destruct (vec_at (mmap_buffers_ (cam p)) (cookie req)) as [data|];
    [|reflexivity].
  cbn [cam emit set_frame_queue log]. rewrite Hreq. reflexivity.
Qed.

Lemma lookup_requests (n j : Z) :
  0 <= j < n ->
  map (fun i => mk_Request i RequestPending) (seqZ 0 n) !! Z.to_nat j
  = Some (mk_Request j RequestPending).
Proof.
  intros Hj. pose proof (vec_at_requests n j Hj) as Hv.
  unfold vec_at in Hv.
  destruct (Z.ltb_spec j 0) as [?|_]; [lia|exact Hv].
Qed.

(** A trigger that is let through hands the camera the buffer of the
    next submission. *)
Lemma trigger_flow (datas : list ptr) (s c vendor_ret : Z) (st : pipeline) :
  Z.of_nat (length datas) <= INT_MAX ->
  flowing datas s c st ->
  match trigger vendor_ret st with
  | Running st' =>
      flowing datas (s + 1) c st'
      /\ camera_at st = Idle
      /\ held_buffers st' = held_buffers st
      /\ queue_counter (proc (node st')) = queue_counter (proc (node st))
      /\ in_camera st' = Some (buffer_of datas s)
  | Stopped _ | Crashed => False
  | _ => True
  end.
Proof.
  intros Hmax Hflow.
  assert (Himax : INT_MAX = 2147483647) by reflexivity.
  assert (Himin : INT_MIN = -2147483648) by reflexivity.
  destruct st as [[p sy] mpc cpc].
  destruct p as [run fd err [sv sd] fq [reqs maps idx fb N] tr].
  unfold flowing in Hflow. pipe_simpl_in Hflow.
  destruct cpc as [|request|request]; unfold trigger; pipe_simpl;
    [|exact I|exact I].
  destruct Hflow as (Hc & Hwin & H1 & H2 & H3 & H4 & H5 & Hs0 & Hs1 & Hs2
                     & Hq & Hm & _).
  subst run reqs maps idx N fq.
  set (n := Z.of_nat (length datas)) in *.
  assert (Hn : 0 < n) by (destruct mpc; lia).
  assert (Hlen : (0 < length datas)%nat) by lia.
  pose proof (Z.mod_pos_bound s n Hn) as Hidx.
  unfold capture_signal_handler. pipe_simpl.
  change ((SIGUSR1 =? SIGUSR1) && negb (1 =? 0)) with true. cbv iota.
  change (1 =? 0) with false. cbv iota.
  unfold queue_request. pipe_simpl.
  rewrite CameraNodeProofs.to_int_range by lia.
  destruct (Z.gtb_spec sv (n - 2)) as [?|Hroom]; [exact I|].
  rewrite (vec_at_requests n (s mod n) Hidx). pipe_simpl.
  destruct (Z.ltb_spec vendor_ret 0) as [?|Hv]; [exact I|].
  pipe_simpl.
  rewrite length_map, length_seqZ, Z2Nat.id by lia.
  rewrite (CameraNodeProofs.ring_advance (s mod n) n Hidx Hmax).
  rewrite Z.add_mod_idemp_l by lia.
  split; [|split; [reflexivity|split; [reflexivity|split; [reflexivity|]]]].
  - unfold flowing. pipe_simpl. fold n.
    replace (s + 1 - 1) with s by lia.
    repeat split; try lia; try exact Hq; try exact Hm;
      destruct mpc; cbn in *; lia.
  - unfold in_camera. pipe_simpl.
    rewrite (lookup_requests n (s mod n) Hidx). pipe_simpl.
    apply vec_at_buffer. exact Hlen.
Qed.

(** The first half of [request_complete] appends the buffer the camera
    filled to the queue. *)
Lemma enqueue_flow (datas : list ptr) (s c : Z) (st : pipeline) :
  flowing datas s c st ->
  match enqueue_step st with
  | Running st' => flowing datas s c st'
  | _ => False
  end.
Proof.
  intros Hflow.
  destruct st as [[p sy] mpc cpc].
  destruct p as [run fd err [sv sd] fq [reqs maps idx fb N] tr].
  destruct cpc as [|request|request]; unfold enqueue_step; pipe_simpl;
    [exact Hflow| |exact Hflow].
  unfold flowing in Hflow. pipe_simpl_in Hflow.
  destruct Hflow as (Hc & Hwin & H1 & H2 & H3 & H4 & H5 & Hs0 & Hs1 & Hs2
                     & Hq & Hm & Hs & Hr).
  subst run reqs maps idx N fq request.
  set (n := Z.of_nat (length datas)) in *.
  assert (Hn : 0 < n) by (destruct mpc; lia).
  assert (Hlen : (0 < length datas)%nat) by lia.
  pose proof (Z.mod_pos_bound (s - 1) n Hn) as Hidx.
  unfold complete_enqueue. pipe_simpl.
  rewrite (lookup_requests n ((s - 1) mod n) Hidx). pipe_simpl.
  pose proof (vec_at_buffer datas (s - 1) Hlen) as Hbuf. fold n in Hbuf.
  rewrite Hbuf. pipe_simpl.
  unfold flowing. pipe_simpl. fold n.
  repeat split; try lia; try exact Hm.
  replace (s - c) with ((s - 1 - c) + 1) by lia.
  rewrite seqZ_app by lia. rewrite map_app.
  replace (c + (s - 1 - c)) with (s - 1) by lia. reflexivity.
Qed.

(** The second half posts the semaphore. *)
Lemma post_flow (datas : list ptr) (s c : Z) (st : pipeline) :
  Z.of_nat (length datas) <= INT_MAX ->
  flowing datas s c st ->
  match post_step st with
  | Running st' => flowing datas s c st'
  | _ => False
  end.
Proof.
  intros Hmax Hflow.
  assert (Himax : INT_MAX = 2147483647) by reflexivity.
  destruct st as [[p sy] mpc cpc].
  destruct p as [run fd err [sv sd] fq [reqs maps idx fb N] tr].
  destruct cpc as [|request|request]; unfold post_step; pipe_simpl;
    [exact Hflow|exact Hflow|].
  unfold flowing in Hflow. pipe_simpl_in Hflow.
  destruct Hflow as (Hc & Hwin & H1 & H2 & H3 & H4 & H5 & Hs0 & Hs1 & Hs2
                     & Hq & Hm & Hs & Hr).
  subst run reqs maps idx N fq request.
  set (n := Z.of_nat (length datas)) in *.
  assert (Hn : 0 < n) by (destruct mpc; lia).
  pose proof (Z.mod_pos_bound (s - 1) n Hn) as Hidx.
  unfold complete_post. pipe_simpl.
  pose proof (lookup_requests n ((s - 1) mod n) Hidx) as Hreq.
  rewrite Hreq. pipe_simpl.
  unfold sem_post. pipe_simpl.
  destruct (Z.ltb_spec sv SEM_VALUE_MAX) as [_|Hbig];
    [|unfold SEM_VALUE_MAX in Hbig; lia].
  unfold flowing. pipe_simpl. fold n. unfold reuse. pipe_simpl.
  rewrite (list_insert_id _ _ _ Hreq).
  repeat split; try lia; try exact Hq; try exact Hm.
Qed.

(** A step of the main loop: past the loop test, past [sem_wait] with
    or without a unit of the count, or past [dequeue] with the oldest
    frame of the queue or none. *)
Lemma main_flow (datas : list ptr) (s c : Z) (interrupted : bool)
    (st : pipeline) :
  flowing datas s c st ->
  match main_step interrupted st with
  | Running st' => exists c', flowing datas s c' st'
  | _ => False
  end.
Proof.
  intros Hflow.
  destruct st as [[p sy] mpc cpc].
  destruct p as [run fd err [sv sd] fq [reqs maps idx fb N] tr].
  unfold flowing in Hflow. pipe_simpl_in Hflow.
  destruct Hflow as (Hc & Hwin & H1 & H2 & H3 & H4 & H5 & Hs0 & Hs1 & Hs2
                     & Hq & Hm & Hcam).
  subst run reqs maps idx N.
  unfold main_step. pipe_simpl.
  destruct mpc as [| | |frame|]; pipe_simpl.
  - change (1 =? 0) with false. cbv iota.
    exists c. unfold flowing. pipe_simpl.
    repeat split; try lia; try exact Hq; exact Hcam.
  - unfold sem_wait. pipe_simpl.
    destruct (Z.ltb_spec 0 sv) as [Hpos|Hzero]; [|destruct interrupted].
    + exists c. unfold flowing. pipe_simpl.
      repeat split; try lia; try exact Hq; exact Hcam.
    + exists c. unfold flowing. pipe_simpl.
      repeat split; try lia; try exact Hq; exact Hcam.
    + exists c. unfold flowing. pipe_simpl.
      repeat split; try lia; try exact Hq; exact Hcam.
  - set (enqueued := match cpc with Capturing _ => s - 1 | _ => s end) in *.
    destruct (Z.ltb_spec 0 (enqueued - c)) as [Hpos|Hzero].
    + rewrite (seqZ_cons c (enqueued - c)) in Hq by lia. cbn [map] in Hq.
      subst fq. pipe_simpl.
      exists (c + 1). unfold flowing. pipe_simpl. fold enqueued.
      repeat split; try lia; try exact Hcam.
      * f_equal. f_equal; lia.
      * f_equal. lia.
    + assert (Hsc : enqueued - c = 0) by lia. rewrite Hsc in Hq.
      cbn [seqZ map] in Hq.
      change (map (buffer_of datas) (seqZ c 0)) with (@nil ptr) in Hq.
      subst fq. pipe_simpl.
      exists c. unfold flowing. pipe_simpl. fold enqueued. rewrite Hsc.
      repeat split; try lia; try exact Hcam.
      destruct cpc; subst enqueued; lia.
  - exists c. unfold flowing. pipe_simpl.
    repeat split; try lia; try exact Hq; exact Hcam.
  - contradiction.
Qed.

Lemma step_flow (datas : list ptr) (o : op) (s c : Z) (st : pipeline) :
  Z.of_nat (length datas) <= INT_MAX ->
  flowing datas s c st ->
  match step o st with
  | Running st' => exists s' c', flowing datas s' c' st'
  | Stopped _ | Crashed => False
  | _ => True
  end.
Proof.
  intros Hmax Hflow. destruct o as [v| | |interrupted]; cbn [step].
  - pose proof (trigger_flow datas s c v st Hmax Hflow) as H.
    destruct (trigger v st); try exact H; try exact I.
    exists (s + 1), c. apply H.
  - pose proof (enqueue_flow datas s c st Hflow) as H.
    destruct (enqueue_step st); try contradiction. exists s, c. exact H.
  - pose proof (post_flow datas s c st Hmax Hflow) as H.
    destruct (post_step st); try contradiction. exists s, c. exact H.
  - pose proof (main_flow datas s c interrupted st Hflow) as H.
    destruct (main_step interrupted st); try contradiction.
    destruct H as (c' & H). exists s, c'. exact H.
Qed.

Lemma run_flow (datas : list ptr) (ops : list op) :
  Z.of_nat (length datas) <= INT_MAX ->
  forall (s c : Z) (st st' : pipeline),
    flowing datas s c st ->
    run ops st = Running st' ->
    exists s' c', flowing datas s' c' st'.
Proof.
  intros Hmax. induction ops as [|o ops IH]; intros s c st st' Hflow;
    cbn [run].
  - intros [= <-]. exists s, c. exact Hflow.
  - pose proof (step_flow datas o s c st Hmax Hflow) as Hstep.
    destruct (step o st) as [st1| | | |]; try discriminate.
    destruct Hstep as (s1 & c1 & Hf). apply (IH _ _ _ _ Hf).
Qed.

Lemma started_flowing (st : pipeline) :
  started (Z.of_nat (length (mmap_buffers_ (cam (proc (node st)))))) st ->
  (0 < length (mmap_buffers_ (cam (proc (node st)))))%nat ->
  flowing (mmap_buffers_ (cam (proc (node st)))) 0 0 st.
Proof.
  intros (Hrun & Hq & Hsem & Hmain & Hcam & Hreq & _ & _ & Hidx & Hn) Hlen.
  unfold flowing, woken. cbn zeta.
  rewrite Hrun, Hq, Hsem, Hmain, Hcam, Hreq, Hidx, Hn.
  repeat split; try lia.
Qed.

(** What the buffers in the encoder and the queue are, in a flowing
    pipeline: those of consecutive submissions, at most as many as there
    are buffers, the one with the camera not among them. *)
Lemma flowing_held (datas : list ptr) (s c : Z) (st : pipeline) :
  NoDup datas ->
  flowing datas s c st ->
  0 <= sem_value (queue_counter (proc (node st)))
  /\ Z.of_nat (length (frame_queue (proc (node st))))
     <= sem_value (queue_counter (proc (node st))) + woken st + posting st
  /\ Z.of_nat (length (held_buffers st)) <= Z.of_nat (length datas)
  /\ (camera_at st <> Idle ->
      sem_value (queue_counter (proc (node st)))
      <= Z.of_nat (length datas) - 2)
  /\ (forall request, camera_at st = Capturing request ->
      Z.of_nat (length (held_buffers st)) <= Z.of_nat (length datas) - 1)
  /\ NoDup (held_buffers st)
  /\ Forall (fun frame => In frame datas) (held_buffers st)
  /\ (forall request, camera_at st = Capturing request ->
      exists frame,
        in_camera st = Some frame /\ In frame datas
        /\ ~ In frame (held_buffers st)).
Proof.
  intros Hnd Hflow.
  destruct st as [[p sy] mpc cpc].
  destruct p as [run fd err [sv sd] fq [reqs maps idx fb N] tr].
  unfold flowing in Hflow. pipe_simpl_in Hflow.
  destruct Hflow as (Hc & Hwin & H1 & H2 & H3 & H4 & H5 & Hs0 & Hs1 & Hs2
                     & Hq & Hm & Hcam).
  subst run reqs maps idx N.
  set (n := Z.of_nat (length datas)) in *.
  set (enqueued := match cpc with Capturing _ => s - 1 | _ => s end) in *.
  set (encoding := match mpc with Encoding _ => 1 | _ => 0 end) in *.
  assert (Hn : 0 < n) by (destruct mpc, cpc; cbn in *; lia).
  assert (Hlen : (0 < length datas)%nat) by lia.
  assert (Henc : 0 <= encoding <= 1) by (destruct mpc; cbn; lia).
  assert (Henq : s - 1 <= enqueued <= s) by (destruct cpc; cbn; lia).
  assert (Hheld : held_buffers
                    {| node := {| proc := {| running := 1; sockfd := fd;
                         errno := err;
                         queue_counter := {| sem_value := sv;
                                             sem_destroyed := sd |};
                         frame_queue := fq;
                         cam := {| requests_ :=
                                     map (fun i => mk_Request i RequestPending)
                                       (seqZ 0 n);
                                   mmap_buffers_ := datas;
                                   next_req_idx_ := s mod n;
                                   frame_bytes_ := fb;
                                   dma_frame_buffers_ := n |};
                         trace := tr |}; sys := sy |};
                       main_at := mpc; camera_at := cpc |}
                  = map (buffer_of datas)
                      (seqZ (c - encoding) (enqueued - c + encoding))).
  { unfold held_buffers, in_encoder. pipe_simpl. rewrite Hq.
    destruct mpc as [| | |frame|]; cbn [app]; subst encoding;
      rewrite ?Z.sub_0_r, ?Z.add_0_r; try reflexivity.
    destruct Hm as (Hc0 & ->).
    rewrite (seqZ_cons (c - 1) (enqueued - c + 1)) by lia. cbn [map].
    f_equal. f_equal. f_equal; lia. }
  rewrite Hheld. pipe_simpl.
  rewrite Hq, !length_map, !length_seqZ.
  assert (Hinj : forall x y,
             c - encoding <= x < s -> c - encoding <= y < s ->
             buffer_of datas x = buffer_of datas y -> x = y).
  { intros x y Hx Hy Heq.
    apply (buffer_of_inj datas); [exact Hnd|exact Hlen|fold n; lia|exact Heq]. }
  split; [exact Hs0|].
  split; [destruct mpc, cpc; cbn in *; lia|].
  split; [lia|].
  split; [destruct cpc; [congruence|cbn in *; lia..]|].
  split; [intros request ->; cbn in *; lia|].
  split; [|split].
  - change (map (buffer_of datas) (seqZ (c - encoding) (enqueued - c + encoding)))
      with (buffer_of datas <$> seqZ (c - encoding) (enqueued - c + encoding)).
    apply NoDup_fmap_2_strong; [|apply NoDup_seqZ].
    intros x y Hx Hy Heq.
    apply elem_of_seqZ in Hx. apply elem_of_seqZ in Hy.
    apply Hinj; [lia|lia|exact Heq].
  - apply Forall_forall. intros frame Hin.
    apply list_elem_of_fmap in Hin. destruct Hin as (k & -> & _).
    pose proof (lookup_buffer datas k Hlen) as Hk.
    apply list_elem_of_In. apply (list_elem_of_lookup_2 _ _ _ Hk).
  - intros request ->. destruct Hcam as (Hs & ->).
    pose proof (Z.mod_pos_bound (s - 1) n Hn) as Hidx.
    exists (buffer_of datas (s - 1)).
    split; [|split].
    + unfold in_camera. pipe_simpl.
      rewrite (lookup_requests n ((s - 1) mod n) Hidx). pipe_simpl.
      apply vec_at_buffer. exact Hlen.
    + pose proof (lookup_buffer datas (s - 1) Hlen) as Hk.
      apply list_elem_of_In. apply (list_elem_of_lookup_2 _ _ _ Hk).
    + intros Hin. apply list_elem_of_In in Hin.
      apply list_elem_of_fmap in Hin. destruct Hin as (k & Heq & Hk).
      apply elem_of_seqZ in Hk. cbn in Henq, Hk.
      assert (k = s - 1) by (apply Hinj; [lia|lia|symmetry; exact Heq]).
      lia.
Qed.

(** X21: the backpressure check keeps every buffer in one place at a
    time.  The main thread, the signal handler and the vendor library's
    thread take their steps in any order: the main loop one call at a
    time ([arm_timer], [sem_wait], which may be interrupted, [dequeue],
    [encode_frame]), [request_complete] in two halves, around its
    [sem_post].  Started with as many buffers as configured, mapped at
    distinct addresses, with the camera keeping up (no trigger before
    the request submitted last has completed) and until a shutdown
    signal arrives, at every point of every such run: no step indexes a
    table out of range; the
    semaphore does not count the queue exactly, but the queue is never
    longer than the count by more than the one frame the main thread
    has been woken for and the one frame being posted; the frame in the
    encoder and the frames in the queue are pairwise distinct buffers,
    N at most, and the buffer the camera is filling is not among them.
    A trigger is let through only with the count at N - 2 or less and
    at most N - 1 buffers in the encoder and the queue, and the buffer
    it hands to the camera is none of those. *)
Theorem backpressure_protects_buffers (ops : list op) (st0 st : pipeline) :
  let datas := mmap_buffers_ (cam (proc (node st0))) in
  let n := Z.of_nat (length datas) in
  1 <= n <= INT_MAX ->
  started n st0 ->
  run ops st0 = Running st ->
  let count := sem_value (queue_counter (proc (node st))) in
  0 <= count
  /\ Z.of_nat (length (frame_queue (proc (node st))))
     <= count + woken st + posting st
  /\ Z.of_nat (length (held_buffers st)) <= n
  /\ NoDup (held_buffers st)
  /\ Forall (fun frame => In frame datas) (held_buffers st)
  /\ (forall request, camera_at st = Capturing request ->
        exists frame,
          in_camera st = Some frame /\ In frame datas
          /\ ~ In frame (held_buffers st))
  /\ (forall o, step o st <> Crashed)
  /\ (forall vendor_ret st',
        trigger vendor_ret st = Running st' ->
        count <= n - 2
        /\ Z.of_nat (length (held_buffers st)) <= n - 1
        /\ held_buffers st' = held_buffers st
        /\ exists frame,
             in_camera st' = Some frame /\ In frame datas
             /\ ~ In frame (held_buffers st)).
Proof.
  intros datas n Hn Hstart Hrun count.
  assert (Hnd : NoDup datas) by apply Hstart.
  assert (Hlen : (0 < length datas)%nat) by lia.
  assert (Hmax : Z.of_nat (length datas) <= INT_MAX) by (fold n; lia).
  pose proof (started_flowing st0 Hstart Hlen) as Hflow0. fold datas in Hflow0.
  destruct (run_flow datas ops Hmax _ _ _ _ Hflow0 Hrun) as (s & c & Hflow).
  destruct (flowing_held datas s c st Hnd Hflow)
    as (Hs0 & Hq & Hsize & _ & _ & Hheld & Hin & Hcam).
  fold n in Hsize.
  split; [exact Hs0|]. split; [exact Hq|]. split; [exact Hsize|].
  split; [exact Hheld|]. split; [exact Hin|]. split; [exact Hcam|].
  split.
  - intros o Hcrash.
    pose proof (step_flow datas o s c st Hmax Hflow) as Hstep.
    rewrite Hcrash in Hstep. exact Hstep.
  - intros vendor_ret st' Htrig.
    pose proof (trigger_flow datas s c vendor_ret st Hmax Hflow) as Hstep.
    rewrite Htrig in Hstep.
    destruct Hstep as (Hflow' & Hidle & Hsame & Hsem & Hbuf).
    destruct (flowing_held datas (s + 1) c st' Hnd Hflow')
      as (_ & _ & _ & Hroom & Hsize' & _ & _ & Hcam').
    assert (Hcap : exists request, camera_at st' = Capturing request).
    { revert Htrig. unfold trigger. rewrite Hidle.
      destruct (capture_signal_handler SIGUSR1 vendor_ret (proc (node st)));
        try discriminate.
      intros [= <-]. cbn [camera_at].
      destruct Hflow as (_ & _ & Hr & _). cbv zeta in Hr. rewrite Hr.
      eexists. reflexivity. }
    destruct Hcap as (request & Hcap).
    fold n in Hroom, Hsize'.
    split; [unfold count; rewrite <- Hsem; apply Hroom; congruence|].
    split; [rewrite <- Hsame; apply (Hsize' request Hcap)|].
    split; [exact Hsame|].
    rewrite <- Hsame. apply (Hcam' request Hcap).
Qed.

Lemma backpressure_protects_buffers_witness :
  (exists st,
     run [Trigger 0; Enqueue; Post; Main false; Main false; Trigger 0]
       sample_pipeline
     = Running st
     /\ sem_value (queue_counter (proc (node st))) = 0
     /\ held_buffers st = [4096]
     /\ in_camera st = Some 8192
     /\ NoDup (held_buffers st))
  /\ (exists st,
        run [Main false; Main true; Trigger 0; Enqueue; Main false; Post]
          sample_pipeline
        = Running st
        /\ sem_value (queue_counter (proc (node st))) = 1
        /\ frame_queue (proc (node st)) = []
        /\ in_encoder st = Some 4096).
Proof.
  split.
  - eexists. split; [vm_compute; reflexivity|].
    split; [reflexivity|]. split; [reflexivity|]. split; [reflexivity|].
    eapply (backpressure_protects_buffers
              [Trigger 0; Enqueue; Post; Main false; Main false; Trigger 0]
              sample_pipeline).
    + vm_compute. split; discriminate.
    + unfold started. cbn.
      repeat split.
      apply NoDup_ListNoDup.
      repeat (constructor; [cbn; intuition discriminate|]). constructor.
    + vm_compute. reflexivity.
  - eexists. split; [vm_compute; reflexivity|].
    repeat split; reflexivity.
Defined.

End PipelineProofs.

(** * The signal handler of the dataset-creation program *)

Module FrameCaptureProofs.

Import CameraNode FrameCapture.

Lemma fc_captures_app tr1 tr2 :
  fc_captures (tr1 ++ tr2) = (fc_captures tr1 + fc_captures tr2)%nat.
Proof.
  induction tr1 as [|e tr1 IH]; [reflexivity|].
  destruct e; cbn; rewrite ?IH; reflexivity.
Qed.

Section Latch.

Variable cam_t : Type.
Variable queue_request : cam_t -> option cam_t.

(** One signal: the flag is only ever cleared, and [queue_request] is
    called exactly for a SIGUSR1 that finds the flag set. *)
Lemma sig_handler_step (signo : Z) (p p' : p_ctx_t cam_t) :
  sig_handler cam_t queue_request signo p = FcOk p' ->
  fc_running p' = fc_running p && negb (fc_shutdown signo)
  /\ exists new,
       fc_trace p' = fc_trace p ++ new
       /\ fc_captures new
          = (if (signo =? SIGUSR1) && fc_running p then 1%nat else 0%nat)
       /\ (fc_running p = false -> new = []).
Proof.
  unfold sig_handler, fc_shutdown. destruct p as [run c tr]. cbn [fc_running fc_cam fc_trace].
  destruct (Z.eqb_spec signo SIGUSR1) as [->|Hne]; cbn [andb].
  - destruct run.
    + destruct (queue_request c) as [c'|]; [|discriminate].
      intros [= <-]. cbn. split; [reflexivity|].
      eexists. rewrite <- app_assoc. split; [reflexivity|].
      split; [reflexivity|discriminate].
    + cbn. intros [= <-]. cbn. split; [reflexivity|].
      exists []. rewrite app_nil_r. repeat split.
  - destruct ((signo =? SIGINT) || (signo =? SIGTERM)); intros [= <-]; cbn.
    + split; [symmetry; apply andb_false_r|]. exists []. rewrite app_nil_r.
      repeat split.
    + split; [rewrite andb_true_r; reflexivity|].
      exists []. rewrite app_nil_r. repeat split.
Qed.


End Latch.


End FrameCaptureProofs.
